(** * Peridynamic porosity simulator: a shallow embedding of [src/main.cpp]

    The program reads five doubles, builds a regular 2D lattice of
    particles, counts for every particle the bonds it takes part in,
    breaks every bond whose random draw is below [phi], derives a
    per-particle damage value and writes a VTK point cloud.

    Conventions of the embedding:
    - a C++ [double] is a kernel binary64 float ([PrimFloat.float]): every
      arithmetic operation and comparison of the source is the IEEE-754
      operation of the same name, each rounded on its own (no fused
      multiply-add), and what is proved about them goes through the
      specification [Prim2SF] of the kernel floats; the kernel floats have
      a single NaN, so nothing is said about the sign or the payload of a
      NaN that an operation returns;
    - a C++ [int] is a [Z] kept in the 32-bit two's-complement range, the
      wrap-around of each arithmetic operation being written out
      ([Int.wrap]); signed overflow is undefined in C++, the wrap-around is
      what the hardware does, and a compiler is free to do otherwise: what
      is proved about a value that has overflowed holds for the program
      only as long as it is compiled that way;
    - a [std::vector] is a [list], read and updated by index, and its
      allocation always succeeds (running out of memory is not modelled);
    - what the language leaves undefined or what ends the program at once
      is an explicit [Fault]: a double converted to an [int] that cannot
      hold it, a vector constructed with a negative size, an index outside
      its vector; the model stops at the fault and does not describe what a
      compiled program does from there (on x86-64 the conversion of a
      double that is out of range yields [min_int] and the run goes on);
    - the random engine is an explicit stream of draws [rng : nat -> float],
      the state kept by the program being the number of draws consumed;
    - the file system is the predicate [can_open] telling whether the
      output file can be opened for writing;
    - prompting for the parameters, the messages on the console and the
      launch of the viewer are left out.

    The file has three parts: the embedding of the source, the definitions
    used to state its properties, and the properties. *)

From Stdlib Require Import ZArith List Floats Strings.String Strings.Ascii Lia.
From stdpp Require Import list strings pretty.

#[local] Open Scope Z_scope.
#[local] Set Warnings "-inexact-float".

(** * The program *)

(** ** 32-bit signed integers *)

Module Int.

Definition min_int : Z := -2147483648.
Definition max_int : Z := 2147483647.

(** Two's-complement reduction into [min_int .. max_int]. *)
Definition wrap (z : Z) : Z := (z + 2147483648) mod 4294967296 - 2147483648.

Definition add (a b : Z) : Z := wrap (a + b).
Definition mul (a b : Z) : Z := wrap (a * b).

(** [x++] *)
Definition incr (a : Z) : Z := add a 1.

Definition in_range (z : Z) : bool := (min_int <=? z) && (z <=? max_int).

End Int.

(** ** Outcomes of the operations that can go wrong at run time *)

Inductive fault : Type :=
| CastOutOfRange      (* double -> int conversion of a value no int holds *)
| AllocFailure        (* std::vector constructed with a negative size *)
| IndexOutOfBounds.   (* operator[] outside the vector *)

Inductive result (A : Type) : Type :=
| Ok (a : A)
| Fault (f : fault).

Arguments Ok {A} a.
Arguments Fault {A} f.

Definition bind {A B : Type} (c : result A) (k : A -> result B) : result B :=
  match c with
  | Ok a => k a
  | Fault f => Fault f
  end.

Notation "'let*' x ':=' c 'in' k" := (bind c (fun x => k))
  (at level 10, x name, c at level 100, k at level 200).

(** ** Doubles *)

#[global] Instance float_inhabited : Inhabited float := populate 0%float.

(** [static_cast<double>(n)] for an [int] [n] (exact: every 32-bit integer
    is a binary64 value). *)
Definition double_of_int (z : Z) : float :=
  if z <? 0 then (- of_uint63 (Uint63.of_Z (- z)))%float
  else of_uint63 (Uint63.of_Z z).

(** [std::floor]: a double whose exponent is non-negative is an integer
    already; otherwise its magnitude is below 2^53 and the floor is computed
    on the integer significand ([Z.shiftl] by a negative amount is the
    flooring division by a power of two). *)
Definition floor (x : float) : float :=
  match Prim2SF x with
  | S754_finite s m e =>
      if 0 <=? e then x
      else double_of_int (Z.shiftl (cond_Zopp s (Zpos m)) e)
  | _ => x
  end.

(** The integer a finite double truncates to (rounding toward zero). *)
Definition SFtrunc (x : spec_float) : option Z :=
  match x with
  | S754_zero _ => Some 0
  | S754_finite s m e => Some (cond_Zopp s (Z.shiftl (Zpos m) e))
  | _ => None
  end.

(** [static_cast<int>(x)]: truncation toward zero; converting a NaN, an
    infinity or a value outside the range of [int] is undefined. *)
Definition static_cast_int (x : float) : result Z :=
  match SFtrunc (Prim2SF x) with
  | Some z => if Int.in_range z then Ok z else Fault CastOutOfRange
  | None => Fault CastOutOfRange
  end.

(** ** Particles and the lattice *)

Record Particle : Type := mkParticle { x : float; y : float }.

#[global] Instance Particle_inhabited : Inhabited Particle :=
  populate (mkParticle 0 0).

Definition set_x (v : float) (p : Particle) : Particle := mkParticle v (y p).
Definition set_y (v : float) (p : Particle) : Particle := mkParticle (x p) v.

(** Squared distance between two particles. *)
Definition dist2 (a b : Particle) : float :=
  let dx := (x a - x b)%float in
  let dy := (y a - y b)%float in
  (dx * dx + dy * dy)%float.

(** [std::vector<T> v(n, init)] with an [int] size. *)
Definition vector_new {A : Type} (n : Z) (init : A) : result (list A) :=
  if n <? 0 then Fault AllocFailure else Ok (replicate (Z.to_nat n) init).

(** [v[id] = f (v[id])]. *)
Definition store {A : Type} (v : list A) (id : Z) (f : A -> A) : result (list A) :=
  if (0 <=? id) && (id <? Z.of_nat (length v))
  then Ok (alter f (Z.to_nat id) v)
  else Fault IndexOutOfBounds.

(** [for (int i = lo; i < hi; ++i) body]: [cnt] iterations from [lo]. The
    counter stays below [hi], so [++i] never leaves the range of [int]. *)
Fixpoint for_loopM {S : Type} (cnt : nat) (lo : Z)
    (body : Z -> S -> result S) (s : S) : result S :=
  match cnt with
  | O => Ok s
  | S c => let* s' := body lo s in for_loopM c (lo + 1) body s'
  end.

Definition for_intM {S : Type} (lo hi : Z) (body : Z -> S -> result S) (s : S)
  : result S :=
  for_loopM (Z.to_nat (hi - lo)) lo body s.

Fixpoint for_loop {S : Type} (cnt : nat) (lo : Z) (body : Z -> S -> S) (s : S) : S :=
  match cnt with
  | O => s
  | S c => for_loop c (lo + 1) body (body lo s)
  end.

Definition for_int {S : Type} (lo hi : Z) (body : Z -> S -> S) (s : S) : S :=
  for_loop (Z.to_nat (hi - lo)) lo body s.

Record lattice : Type := mkLattice {
  lat_Nx : Z;
  lat_Ny : Z;
  lat_N : Z;
  lat_particles : list Particle
}.

(** Step 2 of [runSimulation]: the regular grid, row-major
    ([j] = y-direction, [i] = x-direction). *)
Definition fill_grid (Nx Ny : Z) (dx : float) (particles : list Particle)
  : result (list Particle) :=
  for_intM 0 Ny (fun j particles =>
    for_intM 0 Nx (fun i particles =>
      let id := Int.add (Int.mul j Nx) i in
      let* particles := store particles id (set_x (double_of_int i * dx)%float) in
      store particles id (set_y (double_of_int j * dx)%float)) particles) particles.

Definition build_lattice (Lx Ly dx : float) : result lattice :=
  let* fx := static_cast_int (floor (Lx / dx)) in
  let* fy := static_cast_int (floor (Ly / dx)) in
  let Nx := Int.add fx 1 in
  let Ny := Int.add fy 1 in
  let N := Int.mul Nx Ny in
  let* particles := vector_new N (mkParticle 0 0) in
  let* particles := fill_grid Nx Ny dx particles in
  Ok (mkLattice Nx Ny N particles).

(** ** Bonds *)

(** The test of both pairwise scans:
    [dist2(particles[i], particles[j]) <= delta2]. *)
Definition is_bond (particles : list Particle) (delta2 : float) (i j : Z) : bool :=
  (dist2 (particles !!! Z.to_nat i) (particles !!! Z.to_nat j) <=? delta2)%float.

(** Step 3, first pass: the number of bonds of every particle. Both
    vectors have size [N] and the loops stay below [N], so every index is
    in range. *)
Definition count_bonds (N : Z) (particles : list Particle) (delta2 : float)
    (N_total : list Z) : list Z :=
  for_int 0 N (fun i N_total =>
    for_int (i + 1) N (fun j N_total =>
      if is_bond particles delta2 i j
      then alter Int.incr (Z.to_nat j) (alter Int.incr (Z.to_nat i) N_total)
      else N_total) N_total) N_total.

(** ** Pre-damage *)

(** What the second pairwise scan updates: the per-particle broken counts,
    the two global counters, and the position in the stream of draws. *)
Record predamage : Type := mkPredamage {
  N_broken : list Z;
  totalBonds : Z;
  brokenBonds : Z;
  drawn : nat
}.

(** The body of the inner loop of step 4 for the pair [(i, j)]. *)
Definition predamage_step (particles : list Particle) (delta2 d_phi : float)
    (rng : nat -> float) (i j : Z) (st : predamage) : predamage :=
  if is_bond particles delta2 i j then
    let totalBonds := Int.incr (totalBonds st) in
    let r := rng (drawn st) in
    if (r <? d_phi)%float then
      mkPredamage
        (alter Int.incr (Z.to_nat j) (alter Int.incr (Z.to_nat i) (N_broken st)))
        totalBonds (Int.incr (brokenBonds st)) (S (drawn st))
    else mkPredamage (N_broken st) totalBonds (brokenBonds st) (S (drawn st))
  else st.

(** The state before the scan: [N_broken(N, 0)], both counters at 0, no
    draw taken yet. *)
Definition predamage_init (N : Z) : predamage :=
  mkPredamage (replicate (Z.to_nat N) 0) 0 0 O.

Definition apply_predamage (N : Z) (particles : list Particle) (delta2 d_phi : float)
    (rng : nat -> float) (st : predamage) : predamage :=
  for_int 0 N (fun i st =>
    for_int (i + 1) N (fun j st =>
      predamage_step particles delta2 d_phi rng i j st) st) st.

Definition realized_porosity (totalBonds brokenBonds : Z) : float :=
  if 0 <? totalBonds
  then (double_of_int brokenBonds / double_of_int totalBonds)%float
  else 0%float.

(** ** Local damage *)

Definition damage_at (N_total N_broken : list Z) (i : Z) : float :=
  if 0 <? N_total !!! Z.to_nat i
  then (double_of_int (N_broken !!! Z.to_nat i)
        / double_of_int (N_total !!! Z.to_nat i))%float
  else 0%float.

(** Step 5: [damage[i] = Nb(i) / N(i)], 0 for an isolated point. *)
Definition compute_damage (N : Z) (N_total N_broken : list Z) (damage : list float)
  : list float :=
  for_int 0 N (fun i damage =>
    <[Z.to_nat i := damage_at N_total N_broken i]> damage) damage.

(** ** Serialization *)

Definition nl : string := String (ascii_of_nat 10) EmptyString.

Definition round_half_even (num den : Z) : Z :=
  let q := num / den in
  match 2 * (num mod den) ?= den with
  | Lt => q
  | Eq => if Z.even q then q else q + 1
  | Gt => q + 1
  end.

Definition digit (d : Z) : ascii := ascii_of_nat (48 + Z.to_nat (d mod 10)).

(** The six decimal digits of [n], for [0 <= n < 10^6]. *)
Definition pad6 (n : Z) : string :=
  String (digit (n / 100000)) (String (digit (n / 10000))
    (String (digit (n / 1000)) (String (digit (n / 100))
      (String (digit (n / 10)) (String (digit n) EmptyString))))).

Definition sign_prefix (s : bool) : string := if s then "-" else "".

(** [os << v] for a double under [std::fixed << std::setprecision(6)]: the
    exact binary value, rounded to six decimals (ties to even). *)
Definition fixed6 (v : float) : string :=
  match Prim2SF v with
  | S754_nan => "nan"
  | S754_infinity s => sign_prefix s +:+ "inf"
  | S754_zero s => sign_prefix s +:+ "0.000000"
  | S754_finite s m e =>
      let scaled :=
        if 0 <=? e then Zpos m * 2 ^ e * 1000000
        else round_half_even (Zpos m * 1000000) (2 ^ (- e)) in
      sign_prefix s +:+ pretty (scaled / 1000000) +:+ "."
        +:+ pad6 (scaled mod 1000000)
  end.

Definition point_line (p : Particle) : string :=
  fixed6 (x p) +:+ " " +:+ fixed6 (y p) +:+ " " +:+ fixed6 0 +:+ nl.

Definition vertex_line (i : Z) : string := "1 " +:+ pretty i +:+ nl.

Definition damage_line (d : float) : string := fixed6 d +:+ nl.

(** Step 6: everything sent to the stream [vtk], in order. *)
Definition write_vtk (N : Z) (particles : list Particle) (damage : list float)
  : string :=
  let vtk := "# vtk DataFile Version 3.0" +:+ nl in
  let vtk := vtk +:+ "Peridynamic porous pre-damage" +:+ nl in
  let vtk := vtk +:+ "ASCII" +:+ nl in
  let vtk := vtk +:+ "DATASET POLYDATA" +:+ nl in
  let vtk := vtk +:+ "POINTS " +:+ pretty N +:+ " float" +:+ nl in
  let vtk := for_int 0 N (fun i vtk =>
               vtk +:+ point_line (particles !!! Z.to_nat i)) vtk in
  let vtk := vtk +:+ "VERTICES " +:+ pretty N +:+ " "
                 +:+ pretty (Int.mul 2 N) +:+ nl in
  let vtk := for_int 0 N (fun i vtk => vtk +:+ vertex_line i) vtk in
  let vtk := vtk +:+ "POINT_DATA " +:+ pretty N +:+ nl in
  let vtk := vtk +:+ "SCALARS damage float 1" +:+ nl in
  let vtk := vtk +:+ "LOOKUP_TABLE default" +:+ nl in
  for_int 0 N (fun i vtk => vtk +:+ damage_line (damage !!! Z.to_nat i)) vtk.

Definition output_filename (Lx phi : float) : result string :=
  let* a := static_cast_int Lx in
  let* b := static_cast_int (phi * 100) in
  Ok ("porosity_Lx" +:+ pretty a +:+ "_phi" +:+ pretty b +:+ ".vtk").

(** ** The whole run *)

Definition invalid_parameters (Lx Ly dx phi m : float) : bool :=
  ((dx <=? 0) || (Lx <=? 0) || (Ly <=? 0) || (phi <? 0) || (1 <? phi)
   || (m <=? 0))%float.

Record simulation : Type := mkSimulation {
  sim_lattice : lattice;
  sim_N_total : list Z;
  sim_predamage : predamage;
  sim_realizedPorosity : float;
  sim_damage : list float
}.

(** Steps 2 to 5: everything computed between the validation of the
    parameters and the opening of the output file. *)
Definition simulate (Lx Ly dx phi m : float) (rng : nat -> float)
  : result simulation :=
  let d_phi := phi in
  let* lat := build_lattice Lx Ly dx in
  let N := lat_N lat in
  let particles := lat_particles lat in
  let delta := (m * dx)%float in
  let delta2 := (delta * delta)%float in
  let N_total := count_bonds N particles delta2 (replicate (Z.to_nat N) 0) in
  let pre := apply_predamage N particles delta2 d_phi rng (predamage_init N) in
  let realizedPorosity := realized_porosity (totalBonds pre) (brokenBonds pre) in
  let damage := compute_damage N N_total (N_broken pre)
                  (replicate (Z.to_nat N) 0%float) in
  Ok (mkSimulation lat N_total pre realizedPorosity damage).

Inductive outcome : Type :=
| InvalidParameter
| Aborted (f : fault)
| IOFailure (filename : string)
| Written (filename content : string) (sim : simulation).

Definition runSimulation (Lx Ly dx phi m : float) (rng : nat -> float)
    (can_open : string -> bool) : outcome :=
  if invalid_parameters Lx Ly dx phi m then InvalidParameter
  else
    match simulate Lx Ly dx phi m rng with
    | Fault f => Aborted f
    | Ok sim =>
        match output_filename Lx phi with
        | Fault f => Aborted f
        | Ok filename =>
            if can_open filename
            then Written filename
                   (write_vtk (lat_N (sim_lattice sim))
                      (lat_particles (sim_lattice sim)) (sim_damage sim)) sim
            else IOFailure filename
        end
    end.


(** * Definitions used in the statements *)

(** The exact integer part (rounding down) of a finite double. *)
Definition Zfloor (v : float) : option Z :=
  match Prim2SF v with
  | S754_zero _ => Some 0
  | S754_finite s m e => Some (Z.shiftl (cond_Zopp s (Zpos m)) e)
  | _ => None
  end.

(** The particle the grid holds at row-major index [k]. *)
Definition grid_point (Nx : Z) (dx : float) (k : Z) : Particle :=
  mkParticle (double_of_int (k mod Nx) * dx)%float (double_of_int (k / Nx) * dx)%float.

(** The pairs [(i, j)] with [0 <= i < j < N], in the order in which the
    two nested loops of steps 3 and 4 visit them. *)
Definition all_pairs (N : Z) : list (Z * Z) :=
  seqZ 0 N ≫= (fun i => pair i <$> seqZ (i + 1) (N - (i + 1))).

(** The bonds of a lattice: the visited pairs that pass the distance test. *)
Definition bonds (N : Z) (particles : list Particle) (delta2 : float) : list (Z * Z) :=
  List.filter (fun p => is_bond particles delta2 p.1 p.2) (all_pairs N).

(** The bonds that the draws [rng t], [rng (t+1)], ... break, one draw per
    bond in visiting order. *)
Fixpoint broken_bonds (rng : nat -> float) (d_phi : float) (t : nat)
    (bs : list (Z * Z)) : list (Z * Z) :=
  match bs with
  | [] => []
  | b :: bs' =>
      if (rng t <? d_phi)%float then b :: broken_bonds rng d_phi (S t) bs'
      else broken_bonds rng d_phi (S t) bs'
  end.

Definition touches (k : Z) (p : Z * Z) : bool := (p.1 =? k) || (p.2 =? k).

(** Number of pairs of [bs] with [k] as an endpoint. *)
Definition degree (k : Z) (bs : list (Z * Z)) : nat :=
  length (List.filter (touches k) bs).

Definition Zsum (l : list Z) : Z := foldr Z.add 0 l.

(** Both endpoint counters of a pair go up by one. *)
Definition bump (p : Z * Z) (v : list Z) : list Z :=
  alter Int.incr (Z.to_nat p.2) (alter Int.incr (Z.to_nat p.1) v).

(** What step 4 does for a pair that is a bond: one draw, one decision. *)
Definition break_step (d_phi : float) (rng : nat -> float) (p : Z * Z)
    (st : predamage) : predamage :=
  if (rng (drawn st) <? d_phi)%float
  then mkPredamage (bump p (N_broken st)) (Int.incr (totalBonds st))
         (Int.incr (brokenBonds st)) (S (drawn st))
  else mkPredamage (N_broken st) (Int.incr (totalBonds st)) (brokenBonds st)
         (S (drawn st)).

(** Pairs of distinct, non-negative indices. *)
Definition proper_pair (p : Z * Z) : Prop := 0 <= p.1 /\ 0 <= p.2 /\ p.1 <> p.2.

(** The endpoint of [p] that is not [k]. *)
Definition other_end (k : Z) (p : Z * Z) : Z := if p.1 =? k then p.2 else p.1.

(** The text made of the given lines, each ended by a newline. *)
Definition unlines (ls : list string) : string :=
  foldr (fun l s => l +:+ nl +:+ s) "" ls.

(** The line of a particle in the POINTS block, without its newline. *)
Definition point_text (p : Particle) : string :=
  fixed6 (x p) +:+ " " +:+ fixed6 (y p) +:+ " 0.000000".

(** The lines of the output file, in order. *)
Definition vtk_lines (N : Z) (particles : list Particle) (damage : list float)
  : list string :=
  ["# vtk DataFile Version 3.0"; "Peridynamic porous pre-damage"; "ASCII";
   "DATASET POLYDATA"; "POINTS " +:+ pretty N +:+ " float"]
  ++ (point_text <$> particles)
  ++ ["VERTICES " +:+ pretty N +:+ " " +:+ pretty (Int.mul 2 N)]
  ++ ((fun i => "1 " +:+ pretty i) <$> seqZ 0 N)
  ++ ["POINT_DATA " +:+ pretty N; "SCALARS damage float 1"; "LOOKUP_TABLE default"]
  ++ (fixed6 <$> damage).

(** The double 1.0 as a specification float. *)
Definition SF_one : spec_float := S754_finite false 4503599627370496 (-52).

(** Zeros and finite numbers. *)
Definition SFis_finite (v : spec_float) : bool :=
  match v with
  | S754_zero _ | S754_finite _ _ _ => true
  | _ => false
  end.

Definition SFis_nan (v : spec_float) : bool :=
  match v with
  | S754_nan => true
  | _ => false
  end.

(** Not a NaN, and sign bit clear. *)
Definition SFnonneg (v : spec_float) : bool :=
  match v with
  | S754_zero false | S754_finite false _ _ | S754_infinity false => true
  | _ => false
  end.

(** [i * dx], ..., [(i + cnt - 1) * dx] are all finite. *)
Fixpoint finite_coords (dx : float) (cnt : nat) (i : Z) : bool :=
  match cnt with
  | O => true
  | S c => SFis_finite (Prim2SF (double_of_int i * dx)) && finite_coords dx c (i + 1)
  end.

(** The particles other than [k] that pass the distance test with [k]. *)
Definition neighbours (N : Z) (particles : list Particle) (delta2 : float) (k : Z)
  : list Z :=
  List.filter (fun j => negb (j =? k) && is_bond particles delta2 k j) (seqZ 0 N).
(** * Properties *)

(** ** Integers *)

Lemma wrap_in_range (z : Z) :
  Int.min_int <= z <= Int.max_int -> Int.wrap z = z.
Proof.
  unfold Int.wrap, Int.min_int, Int.max_int. intros Hz.
  rewrite Z.mod_small; lia.
Qed.

Lemma wrap_range (z : Z) : Int.min_int <= Int.wrap z <= Int.max_int.
Proof.
  unfold Int.wrap, Int.min_int, Int.max_int.
  pose proof (Z.mod_pos_bound (z + 2147483648) 4294967296). lia.
Qed.

Lemma wrap_incr (z : Z) : Int.incr (Int.wrap z) = Int.wrap (z + 1).
Proof.
  unfold Int.incr, Int.add, Int.wrap.
  replace ((z + 2147483648) mod 4294967296 - 2147483648 + 1 + 2147483648)
    with ((z + 2147483648) mod 4294967296 + 1) by lia.
  replace (z + 1 + 2147483648) with ((z + 2147483648) + 1) by lia.
  now rewrite Zplus_mod_idemp_l.
Qed.

Lemma in_range_spec (z : Z) :
  Int.in_range z = true <-> Int.min_int <= z <= Int.max_int.
Proof. unfold Int.in_range. rewrite andb_true_iff. lia. Qed.

(** ** Loops *)

Section Loops.

Context {S : Type}.

(** A counted loop is a left fold over its index range. *)
Lemma for_loop_fold (body : Z -> S -> S) (cnt : nat) (lo : Z) (s : S) :
  for_loop cnt lo body s
  = fold_left (fun s i => body i s) (seqZ lo (Z.of_nat cnt)) s.
Proof.
  revert lo s. induction cnt as [|c IH]; intros lo s; [reflexivity|].
  rewrite Nat2Z.inj_succ, seqZ_cons by lia. cbn [for_loop fold_left].
  rewrite IH. do 2 f_equal. lia.
Qed.

Lemma for_int_fold (body : Z -> S -> S) (lo hi : Z) (s : S) :
  for_int lo hi body s = fold_left (fun s i => body i s) (seqZ lo (hi - lo)) s.
Proof.
  unfold for_int. rewrite for_loop_fold.
  destruct (Z_le_gt_dec 0 (hi - lo)).
  - now rewrite Z2Nat.id.
  - rewrite Z2Nat.nonpos, !seqZ_nil by lia. reflexivity.
Qed.

(** Invariant rule for a loop whose body may fault. *)
Lemma for_loopM_inv (P : Z -> S -> Prop) (body : Z -> S -> result S)
    (cnt : nat) (lo : Z) (s : S) :
  P lo s ->
  (forall i t, lo <= i < lo + Z.of_nat cnt -> P i t ->
               exists t', body i t = Ok t' /\ P (i + 1) t') ->
  exists s', for_loopM cnt lo body s = Ok s' /\ P (lo + Z.of_nat cnt) s'.
Proof.
  revert lo s. induction cnt as [|c IH]; intros lo s H0 Hstep.
  - exists s. split; [reflexivity|]. now replace (lo + Z.of_nat 0) with lo by lia.
  - destruct (Hstep lo s) as (t & Hb & Ht); [lia|assumption|].
    destruct (IH (lo + 1) t Ht) as (s' & Hl & Hs').
    + intros i u Hi. apply Hstep. lia.
    + exists s'. cbn [for_loopM]. rewrite Hb. cbn [bind]. split; [assumption|].
      now replace (lo + Z.of_nat (Datatypes.S c)) with (lo + 1 + Z.of_nat c) by lia.
Qed.

Lemma for_intM_inv (P : Z -> S -> Prop) (body : Z -> S -> result S)
    (lo hi : Z) (s : S) :
  lo <= hi ->
  P lo s ->
  (forall i t, lo <= i < hi -> P i t ->
               exists t', body i t = Ok t' /\ P (i + 1) t') ->
  exists s', for_intM lo hi body s = Ok s' /\ P hi s'.
Proof.
  intros Hle H0 Hstep. unfold for_intM.
  destruct (for_loopM_inv P body (Z.to_nat (hi - lo)) lo s H0) as (s' & He & Hs').
  - intros i t Hi. apply Hstep. lia.
  - exists s'. split; [assumption|].
    now replace hi with (lo + Z.of_nat (Z.to_nat (hi - lo))) by lia.
Qed.

End Loops.


(** ** Binary64 facts *)

Lemma digits2_pos_bounds (p : positive) :
  2 ^ (Zpos (digits2_pos p) - 1) <= Zpos p < 2 ^ Zpos (digits2_pos p).
Proof.
  induction p as [p IH|p IH|]; cbn [digits2_pos].
  - rewrite Pos2Z.inj_succ.
    replace (Z.succ (Zpos (digits2_pos p)) - 1) with (Z.succ (Zpos (digits2_pos p) - 1)) by lia.
    rewrite !Z.pow_succ_r by lia. lia.
  - rewrite Pos2Z.inj_succ.
    replace (Z.succ (Zpos (digits2_pos p)) - 1) with (Z.succ (Zpos (digits2_pos p) - 1)) by lia.
    rewrite !Z.pow_succ_r by lia. lia.
  - cbn. lia.
Qed.

Lemma digits2_pos_le (p : positive) (d : Z) :
  0 <= d -> Zpos p < 2 ^ d -> Zpos (digits2_pos p) <= d.
Proof.
  intros Hd Hp. destruct (Z_le_gt_dec (Zpos (digits2_pos p)) d) as [|Hgt]; [assumption|].
  pose proof (digits2_pos_bounds p) as [Hlo _].
  assert (2 ^ d <= 2 ^ (Zpos (digits2_pos p) - 1)) by (apply Z.pow_le_mono_r; lia).
  lia.
Qed.

Lemma iter_xO_spec (k p : positive) :
  Zpos (Pos.iter xO p k) = Zpos p * 2 ^ Zpos k
  /\ Zpos (digits2_pos (Pos.iter xO p k)) = Zpos (digits2_pos p) + Zpos k.
Proof.
  revert p. induction k as [|k IH] using Pos.peano_ind; intros p.
  - cbn [Pos.iter digits2_pos]. rewrite Pos2Z.inj_succ. split; lia.
  - rewrite Pos.iter_succ. cbn [digits2_pos].
    destruct (IH p) as [Hv Hd].
    rewrite Pos2Z.inj_xO, Hv, !Pos2Z.inj_succ, Hd, Z.pow_succ_r by lia.
    split; lia.
Qed.

Lemma shr_fexp_canonical (m : positive) (e : Z) (l : location) :
  canonical_mantissa prec emax m e = true ->
  shr_fexp prec emax (Zpos m) e l = (shr_record_of_loc (Zpos m) l, e).
Proof.
  unfold canonical_mantissa, shr_fexp. intros H%Z.eqb_eq.
  cbn [Zdigits2]. rewrite H, Z.sub_diag. reflexivity.
Qed.

Lemma binary_round_aux_canonical (s : bool) (m : positive) (e : Z) :
  bounded prec emax m e = true ->
  binary_round_aux prec emax s (Zpos m) e loc_Exact = S754_finite s m e.
Proof.
  unfold bounded. intros [Hc He]%andb_true_iff.
  unfold binary_round_aux.
  rewrite (shr_fexp_canonical m e loc_Exact Hc).
  cbn [shr_record_of_loc shr_m loc_of_shr_record round_nearest_even].
  rewrite (shr_fexp_canonical m e loc_Exact Hc).
  cbn [shr_record_of_loc shr_m]. rewrite He. reflexivity.
Qed.

Lemma fexp_eq (e : Z) : fexp prec emax e = Z.max (e - 53) (-1074).
Proof. reflexivity. Qed.

Lemma binary_round_small (s : bool) (p : positive) :
  Zpos p < 2 ^ 53 ->
  exists m e,
    binary_round prec emax s p 0 = S754_finite s m e
    /\ -52 <= e <= 0
    /\ Zpos m = Zpos p * 2 ^ (- e)
    /\ Zpos (digits2_pos m) = 53.
Proof.
  intros Hp.
  pose proof (digits2_pos_le p 53 ltac:(lia) Hp) as Hd.
  assert (H1 : 1 <= Zpos (digits2_pos p)) by lia.
  unfold binary_round. rewrite fexp_eq, Z.add_0_r.
  rewrite Z.max_l by lia. unfold shl_align.
  destruct (Zpos (digits2_pos p) - 53 - 0) as [|k|k] eqn:Hk; [|lia|].
  - exists p, 0. split.
    + apply binary_round_aux_canonical. unfold bounded, canonical_mantissa.
      rewrite fexp_eq. apply andb_true_iff. split; [apply Z.eqb_eq; lia|reflexivity].
    + split; [lia|]. split; [cbn; lia|lia].
  - destruct (iter_xO_spec k p) as [Hv Hdig].
    exists (Pos.iter xO p k), (Zpos (digits2_pos p) - 53). split.
    + apply binary_round_aux_canonical. unfold bounded, canonical_mantissa.
      rewrite fexp_eq, Hdig. apply andb_true_iff.
      split; [apply Z.eqb_eq; lia|apply Z.leb_le; unfold emax, prec; lia].
    + split; [lia|]. split; [|lia].
      rewrite Hv. do 2 f_equal. lia.
Qed.

Lemma SFtrunc_normalize (z : Z) :
  0 <= z < 2 ^ 53 ->
  SFtrunc (binary_normalize prec emax z 0 false) = Some z.
Proof.
  intros Hz. destruct z as [|p|p]; [reflexivity| |lia].
  cbn [binary_normalize].
  destruct (binary_round_small false p) as (m & e & -> & He & Hm & _); [lia|].
  cbn [SFtrunc cond_Zopp]. f_equal.
  rewrite Z.shiftl_div_pow2, Hm by lia.
  apply Z.div_mul. apply Z.pow_nonzero; lia.
Qed.

Lemma SFtrunc_opp (v : spec_float) :
  SFtrunc (SFopp v) = option_map Z.opp (SFtrunc v).
Proof.
  destruct v as [s|s| |s m e]; cbn; try reflexivity.
  f_equal. destruct s; cbn; lia.
Qed.

Lemma SFtrunc_double_of_int (z : Z) :
  - 2 ^ 53 < z < 2 ^ 53 ->
  SFtrunc (Prim2SF (double_of_int z)) = Some z.
Proof.
  intros Hz. unfold double_of_int. destruct (Z.ltb_spec z 0).
  - rewrite opp_spec, SFtrunc_opp, of_uint63_spec, Uint63.of_Z_spec.
    rewrite Z.mod_small by (split; [lia|
      apply Z.lt_trans with (2 ^ 53); [lia|reflexivity]]).
    rewrite SFtrunc_normalize by lia. cbn. f_equal. lia.
  - rewrite of_uint63_spec, Uint63.of_Z_spec.
    rewrite Z.mod_small by (split; [lia|
      apply Z.lt_trans with (2 ^ 53); [lia|reflexivity]]).
    apply SFtrunc_normalize. lia.
Qed.

(** Flooring then converting to [int] yields the exact integer floor,
    provided it is an [int]. *)
Lemma cast_floor (v : float) (z : Z) :
  Zfloor v = Some z ->
  static_cast_int (floor v) = if Int.in_range z then Ok z else Fault CastOutOfRange.
Proof.
  unfold Zfloor, floor, static_cast_int.
  destruct (Prim2SF v) as [s|s| |s m e] eqn:Hv; try discriminate.
  - intros [= <-]. rewrite Hv. reflexivity.
  - intros [= <-]. destruct (Z.leb_spec 0 e) as [He|He].
    + rewrite Hv. cbn [SFtrunc].
      replace (cond_Zopp s (Z.shiftl (Zpos m) e)) with (Z.shiftl (cond_Zopp s (Zpos m)) e);
        [reflexivity|].
      rewrite !Z.shiftl_mul_pow2 by lia. destruct s; cbn [cond_Zopp]; lia.
    + rewrite SFtrunc_double_of_int; [reflexivity|].
      pose proof (Prim2SF_valid v) as Hval. rewrite Hv in Hval.
      cbn [valid_binary] in Hval. unfold bounded, canonical_mantissa in Hval.
      apply andb_true_iff in Hval as [Hc%Z.eqb_eq _]. rewrite fexp_eq in Hc.
      pose proof (digits2_pos_bounds m) as [_ Hhi].
      assert (Hd : Zpos (digits2_pos m) <= 53) by lia.
      assert (Hm : Zpos m < 2 ^ 53).
      { eapply Z.lt_le_trans; [exact Hhi|]. apply Z.pow_le_mono_r; lia. }
      rewrite Z.shiftl_div_pow2 by lia.
      assert (Hpow : 2 <= 2 ^ (- e)).
      { change 2 with (2 ^ 1) at 1. apply Z.pow_le_mono_r; lia. }
      destruct s; cbn [cond_Zopp].
      * pose proof (Z.div_mod (Z.neg m) (2 ^ (- e)) ltac:(lia)) as Hdm.
        pose proof (Z.mod_pos_bound (Z.neg m) (2 ^ (- e)) ltac:(lia)) as Hmod.
        split.
        -- destruct (Z_lt_le_dec (- 2 ^ 53) (Z.neg m / 2 ^ (- e))) as [|Hq]; [assumption|].
           assert (2 ^ (- e) * (Z.neg m / 2 ^ (- e) + 1) <= 2 * (- 2 ^ 53 + 1)) by nia.
           lia.
        -- apply Z.le_lt_trans with 0; [|lia].
           apply Z.lt_succ_r. apply Z.div_lt_upper_bound; lia.
      * split.
        -- apply Z.lt_le_trans with 0; [lia|]. apply Z.div_pos; lia.
        -- apply Z.div_lt_upper_bound; [lia|]. nia.
Qed.

(** A strictly positive double is a positive finite number or [+infinity]. *)
Lemma positive_double (a : float) :
  (0 <? a)%float = true ->
  Prim2SF a = S754_infinity false \/ exists m e, Prim2SF a = S754_finite false m e.
Proof.
  rewrite FloatAxioms.ltb_spec. change (Prim2SF 0) with (S754_zero false).
  destruct (Prim2SF a) as [s|[|]| |[|] m e]; cbn; try discriminate; eauto.
Qed.

(** Rounding keeps the sign it is given. *)
Lemma binary_round_aux_sign (s : bool) (m e : Z) (l : location) :
  match binary_round_aux prec emax s m e l with
  | S754_zero s' | S754_infinity s' | S754_finite s' _ _ => s' = s
  | S754_nan => True
  end.
Proof.
  unfold binary_round_aux.
  destruct (shr_fexp prec emax m e l) as [mrs' e'].
  destruct (shr_fexp prec emax _ e' loc_Exact) as [mrs'' e''].
  destruct (shr_m mrs''); [reflexivity| |exact I].
  destruct (e'' <=? emax - prec); reflexivity.
Qed.

Lemma floor_div_nonneg (a b : float) (z : Z) :
  (0 <? a)%float = true -> (0 <? b)%float = true ->
  Zfloor (a / b) = Some z -> 0 <= z.
Proof.
  intros Ha Hb. unfold Zfloor. rewrite div_spec.
  destruct (positive_double a Ha) as [->|(ma & ea & ->)];
    destruct (positive_double b Hb) as [->|(mb & eb & ->)];
    unfold SF64div, SFdiv; try discriminate.
  - intros [= <-]. lia.
  - destruct (SFdiv_core_binary prec emax (Zpos ma) ea (Zpos mb) eb) as [[mz ez] lz].
    pose proof (binary_round_aux_sign (xorb false false) mz ez lz) as Hs.
    destruct (binary_round_aux prec emax (xorb false false) mz ez lz)
      as [s|s| |s m e]; try discriminate.
    + intros [= <-]. lia.
    + intros [= <-]. cbn in Hs. subst s. cbn [cond_Zopp].
      apply Z.shiftl_nonneg. lia.
Qed.

(** ** Comparisons of doubles *)

Lemma eqb_leb (a b : float) : (a =? b)%float = true -> (a <=? b)%float = true.
Proof.
  rewrite FloatAxioms.eqb_spec, FloatAxioms.leb_spec. unfold SFeqb, SFleb.
  destruct (SFcompare (Prim2SF a) (Prim2SF b)) as [[| |]|]; (discriminate || reflexivity).
Qed.

(** A draw that is at least 0 is not below a zero threshold. *)
Lemma not_below_zero (r d : float) :
  (0 <=? r)%float = true -> (d =? 0)%float = true -> (r <? d)%float = false.
Proof.
  rewrite FloatAxioms.leb_spec, FloatAxioms.eqb_spec, FloatAxioms.ltb_spec. change (Prim2SF 0) with (S754_zero false).
  unfold SFleb, SFeqb, SFltb.
  destruct (Prim2SF r) as [sr|[|]| |[|] mr er];
    destruct (Prim2SF d) as [sd|[|]| |[|] md ed]; cbn; congruence.
Qed.

Lemma compare_cont_Eq (p q : positive) : Pos.compare_cont Eq p q = Eq -> p = q.
Proof. apply Pos.compare_eq. Qed.

(** Only 1.0 compares equal to 1.0. *)
Lemma eqb_one (d : float) : (d =? 1)%float = true -> d = 1%float.
Proof.
  rewrite FloatAxioms.eqb_spec. intros H. apply Prim2SF_inj.
  change (Prim2SF 1) with (S754_finite false 4503599627370496 (-52)) in *.
  unfold SFeqb, SFcompare in H.
  destruct (Prim2SF d) as [sd|[|]| |[|] md ed]; try discriminate.
  destruct (ed ?= -52) eqn:Ee; try discriminate.
  destruct (Pos.compare_cont Eq md 4503599627370496) eqn:E; try discriminate.
  apply Z.compare_eq in Ee. apply compare_cont_Eq in E. now subst md ed.
Qed.

(** ** Division of two integer-valued doubles *)

Lemma digits2_pos_unique (p : positive) (d : Z) :
  2 ^ (d - 1) <= Zpos p < 2 ^ d -> Zpos (digits2_pos p) = d.
Proof.
  intros [Hlo Hhi]. pose proof (digits2_pos_bounds p) as [Hlo' Hhi'].
  assert (Hd : 0 < d).
  { destruct (Z_lt_le_dec 0 d); [assumption|].
    rewrite (Z.pow_neg_r 2 (d - 1)) in Hlo by lia.
    destruct (Z.eq_dec d 0) as [->|]; [cbn in Hhi; lia|].
    rewrite Z.pow_neg_r in Hhi by lia. lia. }
  destruct (Z.lt_trichotomy (Zpos (digits2_pos p)) d) as [Hlt|[Heq|Hgt]];
    [|assumption|].
  - assert (2 ^ Zpos (digits2_pos p) <= 2 ^ (d - 1)) by (apply Z.pow_le_mono_r; lia).
    lia.
  - assert (2 ^ d <= 2 ^ (Zpos (digits2_pos p) - 1)) by (apply Z.pow_le_mono_r; lia).
    lia.
Qed.

Lemma shr_m_shr_1 (mrs : shr_record) :
  0 <= shr_m mrs -> shr_m (shr_1 mrs) = shr_m mrs / 2.
Proof.
  destruct mrs as [m r s]. cbn [shr_m]. intros Hm.
  destruct m as [|[p|p|]|p]; cbn [shr_1 shr_m]; try reflexivity; try lia.
  - rewrite (Pos2Z.inj_xI p). apply Z.div_unique with 1; lia.
  - rewrite (Pos2Z.inj_xO p). apply Z.div_unique with 0; lia.
Qed.

Lemma round_nearest_even_bounds (m : Z) (l : location) :
  m <= round_nearest_even m l <= m + 1.
Proof.
  unfold round_nearest_even. destruct l as [|[| |]]; try lia.
  destruct (Z.even m); lia.
Qed.

Lemma shr_m_of_loc (m : Z) (l : location) : shr_m (shr_record_of_loc m l) = m.
Proof. destruct l as [|[| |]]; reflexivity. Qed.

(** Shifting a significand of 53 or 54 bits to 53 bits. *)
Lemma shr_fexp_53_54 (m e : Z) (l : location) :
  2 ^ 52 <= m < 2 ^ 54 -> -1000 <= e ->
  exists mrs,
    shr_fexp prec emax m e l = (mrs, if m <? 2 ^ 53 then e else e + 1)
    /\ shr_m mrs = if m <? 2 ^ 53 then m else m / 2.
Proof.
  intros Hm He. unfold shr_fexp. destruct m as [|p|p]; try lia.
  cbn [Zdigits2]. rewrite fexp_eq.
  destruct (Z.ltb_spec (Zpos p) (2 ^ 53)) as [Hlt|Hge].
  - rewrite (digits2_pos_unique p 53) by (change (53 - 1) with 52; lia).
    replace (Z.max (53 + e - 53) (-1074) - e) with 0 by lia.
    eexists. split; [reflexivity|]. apply shr_m_of_loc.
  - rewrite (digits2_pos_unique p 54) by (change (54 - 1) with 53; lia).
    replace (Z.max (54 + e - 53) (-1074) - e) with 1 by lia.
    eexists. split; [reflexivity|]. cbn [SpecFloat.iter_pos].
    rewrite shr_m_shr_1; rewrite shr_m_of_loc; lia.
Qed.

(** Rounding a value below 1 cannot exceed 1. *)
Lemma binary_round_aux_le_one (q e : Z) (l : location) :
  2 ^ 52 <= q < 2 ^ 54 -> -1000 <= e <= -1 -> q + 1 <= 2 ^ (- e) ->
  SFleb (binary_round_aux prec emax false q e l) SF_one = true.
Proof.
  intros Hq He Hval. unfold binary_round_aux.
  destruct (shr_fexp_53_54 q e l Hq ltac:(lia)) as (mrs1 & -> & Hm1).
  set (e1 := if q <? 2 ^ 53 then e else e + 1) in *.
  set (m1 := round_nearest_even (shr_m mrs1) (loc_of_shr_record mrs1)).
  pose proof (round_nearest_even_bounds (shr_m mrs1) (loc_of_shr_record mrs1)) as Hr.
  fold m1 in Hr.
  assert (Hpow : 2 ^ (- e) = 2 * 2 ^ (- e - 1)).
  { rewrite <- Z.pow_succ_r by lia. f_equal. lia. }
  assert (Hb1 : 2 ^ 52 <= m1 <= 2 ^ 53 /\ m1 <= 2 ^ (- e1) /\ -1000 <= e1 <= 0).
  { subst e1. destruct (Z.ltb_spec q (2 ^ 53)) as [Hlt|Hge]; rewrite Hm1 in Hr.
    - repeat split; lia.
    - assert (2 ^ 53 <= q / 2 * 2 + 1 /\ q / 2 * 2 <= q).
      { pose proof (Z.div_mod q 2 ltac:(lia)).
        pose proof (Z.mod_pos_bound q 2 ltac:(lia)). lia. }
      replace (- (e + 1)) with (- e - 1) by lia.
      change (2 ^ 53) with (2 * 2 ^ 52) in *. change (2 ^ 54) with (2 * (2 * 2 ^ 52)) in *.
      repeat split; lia. }
  destruct Hb1 as (Hm1r & Hm1v & He1).
  destruct (shr_fexp_53_54 m1 e1 loc_Exact) as (mrs2 & -> & Hm2);
    [change (2 ^ 54) with (2 * 2 ^ 53); lia|lia|].
  assert (Hb2 : exists m2 : positive, shr_m mrs2 = Zpos m2
            /\ 2 ^ 52 <= Zpos m2
            /\ Zpos m2 <= 2 ^ (- (if m1 <? 2 ^ 53 then e1 else e1 + 1))).
  { rewrite Hm2. destruct (Z.ltb_spec m1 (2 ^ 53)) as [Hlt|Hge].
    - destruct m1 as [|m2|m2]; try lia. exists m2. repeat split; lia.
    - assert (m1 = 2 ^ 53) by lia. subst m1. rewrite H.
      exists 4503599627370496%positive. split; [reflexivity|]. split; [reflexivity|].
      rewrite H in Hm1v.
      assert (53 <= - e1).
      { destruct (Z_le_gt_dec 53 (- e1)); [assumption|].
        assert (2 ^ (- e1) <= 2 ^ 52) by (apply Z.pow_le_mono_r; lia).
        change (2 ^ 53) with (2 * 2 ^ 52) in Hm1v. lia. }
      change (Zpos 4503599627370496) with (2 ^ 52).
      apply Z.pow_le_mono_r; lia. }
  destruct Hb2 as (m2 & -> & Hm2lo & Hm2v).
  set (e2 := if m1 <? 2 ^ 53 then e1 else e1 + 1) in *.
  assert (He2 : e2 <= 1) by (subst e2; destruct (m1 <? 2 ^ 53); lia).
  replace (e2 <=? emax - prec) with true
    by (symmetry; apply Z.leb_le; unfold emax, prec; lia).
  unfold SFleb, SF_one, SFcompare.
  destruct (Z.compare_spec e2 (-52)) as [Heq|Hlt|Hgt]; [|reflexivity|].
  - rewrite Heq in Hm2v. change (2 ^ (- -52)) with (2 ^ 52) in Hm2v.
    assert (m2 = 4503599627370496%positive) by lia. subst m2.
    now rewrite Pos.compare_cont_refl.
  - exfalso. destruct (Z_le_gt_dec 0 (- e2)).
    + assert (2 ^ (- e2) <= 2 ^ 51) by (apply Z.pow_le_mono_r; lia).
      change (2 ^ 52) with (2 * 2 ^ 51) in Hm2lo. lia.
    + rewrite Z.pow_neg_r in Hm2v by lia. lia.
Qed.

Lemma Prim2SF_double_of_int_pos (z : Z) :
  0 < z < 2 ^ 53 ->
  exists m e,
    Prim2SF (double_of_int z) = S754_finite false m e
    /\ -52 <= e <= 0 /\ Zpos m = z * 2 ^ (- e) /\ Zpos (digits2_pos m) = 53.
Proof.
  intros Hz. unfold double_of_int. destruct (Z.ltb_spec z 0); [lia|].
  rewrite of_uint63_spec, Uint63.of_Z_spec.
  rewrite Z.mod_small by (split; [lia|
    apply Z.lt_trans with (2 ^ 53); [lia|reflexivity]]).
  destruct z as [|p|p]; try lia. cbn [binary_normalize].
  apply binary_round_small. lia.
Qed.

Lemma div_eucl_div_mod (a b : Z) : Z.div_eucl a b = (a / b, a mod b).
Proof. unfold Z.div, Z.modulo. now destruct (Z.div_eucl a b). Qed.

Lemma new_location_0 (n : Z) : new_location n 0 = loc_Exact.
Proof. unfold new_location. destruct (Z.even n); reflexivity. Qed.

(** The quotient and exponent handed to the rounding step when both
    significands have 53 bits. *)
Lemma SFdiv_core_53 (mb mt : positive) (eb et : Z) :
  Zpos (digits2_pos mb) = 53 -> Zpos (digits2_pos mt) = 53 ->
  -52 <= eb <= 0 -> -52 <= et <= 0 ->
  SFdiv_core_binary prec emax (Zpos mb) eb (Zpos mt) et
  = (Zpos mb * 2 ^ 53 / Zpos mt, eb - et - 53,
     new_location (Zpos mt) ((Zpos mb * 2 ^ 53) mod Zpos mt)).
Proof.
  intros Hdb Hdt Heb Het. unfold SFdiv_core_binary. cbn [Zdigits2].
  rewrite Hdb, Hdt, fexp_eq.
  replace (Z.min (Z.max (53 + eb - (53 + et) - 53) (-1074)) (eb - et))
    with (eb - et - 53) by lia.
  replace (eb - et - (eb - et - 53)) with 53 by lia.
  rewrite Z.shiftl_mul_pow2 by lia. now rewrite div_eucl_div_mod.
Qed.

Lemma SFdiv_self (m : positive) (e : Z) :
  Zpos (digits2_pos m) = 53 -> -52 <= e <= 0 ->
  SF64div (S754_finite false m e) (S754_finite false m e) = SF_one.
Proof.
  intros Hd He. unfold SF64div, SFdiv. rewrite SFdiv_core_53 by assumption.
  rewrite Z.mul_comm, Z.div_mul, Z.mod_mul by lia.
  rewrite new_location_0, Z.sub_diag. reflexivity.
Qed.

Lemma SFdiv_lt_one (mb mt : positive) (eb et : Z) :
  Zpos (digits2_pos mb) = 53 -> Zpos (digits2_pos mt) = 53 ->
  -52 <= eb <= 0 -> -52 <= et <= 0 ->
  Zpos mb * 2 ^ (- et) < Zpos mt * 2 ^ (- eb) ->
  SFleb (SF64div (S754_finite false mb eb) (S754_finite false mt et)) SF_one = true.
Proof.
  intros Hdb Hdt Heb Het Hlt. unfold SF64div, SFdiv.
  rewrite SFdiv_core_53 by assumption. cbn [xorb].
  pose proof (digits2_pos_bounds mb) as Hb. rewrite Hdb in Hb.
  pose proof (digits2_pos_bounds mt) as Ht. rewrite Hdt in Ht.
  change (53 - 1) with 52 in *.
  set (q := Zpos mb * 2 ^ 53 / Zpos mt).
  pose proof (Z.div_mod (Zpos mb * 2 ^ 53) (Zpos mt) ltac:(lia)) as Hdm.
  pose proof (Z.mod_pos_bound (Zpos mb * 2 ^ 53) (Zpos mt) ltac:(lia)) as Hmod.
  fold q in Hdm.
  assert (HA : 0 < 2 ^ (- eb)) by (apply Z.pow_pos_nonneg; lia).
  assert (HB : 0 < 2 ^ (- et)) by (apply Z.pow_pos_nonneg; lia).
  assert (HE : 2 ^ (- (eb - et - 53)) * 2 ^ (- et) = 2 ^ 53 * 2 ^ (- eb)).
  { rewrite <- !Z.pow_add_r by lia. f_equal. lia. }
  assert (HEpos : 0 < 2 ^ (- (eb - et - 53))) by (apply Z.pow_pos_nonneg; lia).
  apply binary_round_aux_le_one.
  - change (2 ^ 54) with (2 * 2 ^ 53). change (2 ^ 53) with (2 * 2 ^ 52) in *.
    split; nia.
  - lia.
  - assert (q < 2 ^ (- (eb - et - 53))); [|lia].
    apply Z.mul_lt_mono_pos_r with (Zpos mt * 2 ^ (- et)); [lia|].
    change (2 ^ 53) with (2 * 2 ^ 52) in *. nia.
Qed.

Lemma SFleb_zero_nonneg (v : spec_float) :
  match v with
  | S754_zero _ | S754_finite false _ _ | S754_infinity false => True
  | _ => False
  end ->
  SFleb (S754_zero false) v = true.
Proof. destruct v as [s|[|]| |[|] m e]; cbn; tauto. Qed.

(** The quotient of two non-negative [int]s [b <= t], [t > 0], computed in
    doubles, lies in [[0, 1]]. *)
Lemma div_int_unit_interval (b t : Z) :
  0 <= b <= t -> 0 < t < 2 ^ 53 ->
  (0 <=? double_of_int b / double_of_int t)%float = true
  /\ (double_of_int b / double_of_int t <=? 1)%float = true.
Proof.
  intros Hb Ht. rewrite !FloatAxioms.leb_spec, div_spec.
  change (Prim2SF 0) with (S754_zero false). change (Prim2SF 1) with SF_one.
  destruct (Prim2SF_double_of_int_pos t Ht) as (mt & et & Hpt & Het & Hmt & Hdt).
  destruct (Z.eq_dec b 0) as [->|Hb0].
  { rewrite Hpt. change (Prim2SF (double_of_int 0)) with (S754_zero false).
    split; reflexivity. }
  assert (Hle : SFleb (SF64div (Prim2SF (double_of_int b)) (Prim2SF (double_of_int t)))
                  SF_one = true).
  { destruct (Z.eq_dec b t) as [->|Hne].
    - rewrite Hpt, SFdiv_self by assumption. reflexivity.
    - destruct (Prim2SF_double_of_int_pos b ltac:(lia))
        as (mb & eb & Hpb & Heb & Hmb & Hdb).
      rewrite Hpb, Hpt. apply SFdiv_lt_one; try assumption.
      assert (HA : 0 < 2 ^ (- eb)) by (apply Z.pow_pos_nonneg; lia).
      assert (HB : 0 < 2 ^ (- et)) by (apply Z.pow_pos_nonneg; lia).
      rewrite Hmb, Hmt. nia. }
  split; [|exact Hle].
  destruct (Prim2SF_double_of_int_pos b ltac:(lia)) as (mb & eb & Hpb & _).
  rewrite Hpb, Hpt in *. apply SFleb_zero_nonneg. revert Hle.
  unfold SF64div, SFdiv.
  destruct (SFdiv_core_binary prec emax (Zpos mb) eb (Zpos mt) et) as [[mz ez] lz].
  pose proof (binary_round_aux_sign (xorb false false) mz ez lz) as Hs.
  destruct (binary_round_aux prec emax (xorb false false) mz ez lz)
    as [s|s| |s m e]; cbn in Hs; subst; try (intros _; exact I).
  discriminate.
Qed.
(** ** Operations that cannot produce a NaN *)

Lemma iter_pos_inv {A : Type} (P : A -> Prop) (f : A -> A) (p : positive) (a : A) :
  (forall a, P a -> P (f a)) -> P a -> P (SpecFloat.iter_pos f p a).
Proof.
  intros Hf. revert a. induction p as [p IH|p IH|]; intros a Ha; cbn [SpecFloat.iter_pos]; auto.
Qed.

Lemma shr_1_nonneg (mrs : shr_record) : 0 <= shr_m mrs -> 0 <= shr_m (shr_1 mrs).
Proof.
  destruct mrs as [m r s]. cbn [shr_m].
  destruct m as [|[p|p|]|p]; cbn [shr_1 shr_m]; lia.
Qed.

Lemma shr_fexp_nonneg (m e : Z) (l : location) :
  0 <= m -> 0 <= shr_m (fst (shr_fexp prec emax m e l)).
Proof.
  intros Hm. unfold shr_fexp, shr.
  destruct (fexp prec emax (Zdigits2 m + e) - e) as [|p|p]; cbn [fst];
    try (rewrite shr_m_of_loc; exact Hm).
  apply iter_pos_inv; [exact shr_1_nonneg|]. now rewrite shr_m_of_loc.
Qed.

Lemma binary_round_aux_not_nan (s : bool) (m e : Z) (l : location) :
  0 <= m -> SFis_nan (binary_round_aux prec emax s m e l) = false.
Proof.
  intros Hm. unfold binary_round_aux.
  pose proof (shr_fexp_nonneg m e l Hm) as H1.
  destruct (shr_fexp prec emax m e l) as [mrs' e']. cbn [fst] in H1.
  pose proof (round_nearest_even_bounds (shr_m mrs') (loc_of_shr_record mrs')) as Hr.
  pose proof (shr_fexp_nonneg (round_nearest_even (shr_m mrs') (loc_of_shr_record mrs'))
                e' loc_Exact ltac:(lia)) as H2.
  destruct (shr_fexp prec emax _ e' loc_Exact) as [mrs'' e'']. cbn [fst] in H2.
  destruct (shr_m mrs''); [reflexivity| |lia].
  destruct (e'' <=? emax - prec); reflexivity.
Qed.

Lemma binary_normalize_not_nan (m e : Z) (sz : bool) :
  SFis_nan (binary_normalize prec emax m e sz) = false.
Proof.
  destruct m as [|p|p]; cbn [binary_normalize]; [reflexivity| |];
    unfold binary_round; destruct (shl_align _ _ _) as [mz ez];
    apply binary_round_aux_not_nan; lia.
Qed.

Lemma SFsub_finite (a b : spec_float) :
  SFis_finite a = true -> SFis_finite b = true -> SFis_nan (SF64sub a b) = false.
Proof.
  destruct a as [sa|sa| |sa ma ea]; try discriminate;
    destruct b as [sb|sb| |sb mb eb]; try discriminate; intros _ _;
    unfold SF64sub, SFsub.
  - destruct sa, sb; reflexivity.
  - reflexivity.
  - reflexivity.
  - apply binary_normalize_not_nan.
Qed.

(** A square is not a NaN and has its sign bit clear. *)
Lemma SFmul_square (a : spec_float) :
  SFis_nan a = false -> SFnonneg (SF64mul a a) = true.
Proof.
  destruct a as [sa|sa| |sa ma ea]; try discriminate; intros _;
    unfold SF64mul, SFmul; try (destruct sa; reflexivity).
  pose proof (binary_round_aux_not_nan (xorb sa sa) (Zpos (ma * ma)) (ea + ea)
                loc_Exact ltac:(lia)) as Hn.
  pose proof (binary_round_aux_sign (xorb sa sa) (Zpos (ma * ma)) (ea + ea)
                loc_Exact) as Hs.
  rewrite xorb_nilpotent in *.
  destruct (binary_round_aux prec emax false (Zpos (ma * ma)) (ea + ea) loc_Exact)
    as [s|s| |s m e]; cbn in Hs, Hn; subst; (reflexivity || discriminate).
Qed.

Lemma SFadd_nonneg (a b : spec_float) :
  SFnonneg a = true -> SFnonneg b = true -> SFis_nan (SF64add a b) = false.
Proof.
  destruct a as [[|]|[|]| |[|] ma ea]; try discriminate;
    destruct b as [[|]|[|]| |[|] mb eb]; try discriminate; intros _ _;
    unfold SF64add, SFadd; try reflexivity.
  apply binary_normalize_not_nan.
Qed.

Lemma SFleb_infinity (a : spec_float) :
  SFis_nan a = false -> SFleb a (S754_infinity false) = true.
Proof. destruct a as [s|[|]| |[|] m e]; (discriminate || reflexivity). Qed.

(** With an infinite squared horizon, every pair of particles with finite
    coordinates passes the distance test. *)
Lemma dist2_le_infinity (a b : Particle) :
  SFis_finite (Prim2SF (x a)) = true -> SFis_finite (Prim2SF (y a)) = true ->
  SFis_finite (Prim2SF (x b)) = true -> SFis_finite (Prim2SF (y b)) = true ->
  (dist2 a b <=? infinity)%float = true.
Proof.
  intros Hxa Hya Hxb Hyb. unfold dist2.
  rewrite FloatAxioms.leb_spec. change (Prim2SF infinity) with (S754_infinity false).
  apply SFleb_infinity. rewrite add_spec.
  apply SFadd_nonneg; rewrite mul_spec; apply SFmul_square; rewrite sub_spec;
    now apply SFsub_finite.
Qed.

Lemma finite_coords_spec (dx : float) (cnt : nat) (lo i : Z) :
  finite_coords dx cnt lo = true -> lo <= i < lo + Z.of_nat cnt ->
  SFis_finite (Prim2SF (double_of_int i * dx)) = true.
Proof.
  revert lo. induction cnt as [|c IH]; intros lo H Hi; [lia|].
  cbn [finite_coords] in H. apply andb_true_iff in H as [H0 H1].
  destruct (Z.eq_dec i lo) as [->|Hne]; [exact H0|].
  apply (IH (lo + 1)); [exact H1|lia].
Qed.


(** ** The lattice *)

Lemma store_twice (ps : list Particle) (id : Z) (vx vy : float) :
  0 <= id < Z.of_nat (length ps) ->
  exists ps',
    (let* qs := store ps id (set_x vx) in store qs id (set_y vy)) = Ok ps'
    /\ length ps' = length ps
    /\ ps' !! Z.to_nat id = Some (mkParticle vx vy)
    /\ forall k, k <> Z.to_nat id -> ps' !! k = ps !! k.
Proof.
  intros Hid. unfold store.
  assert (H1 : (0 <=? id) && (id <? Z.of_nat (length ps)) = true)
    by (apply andb_true_iff; lia).
  rewrite H1. cbn [bind]. rewrite length_alter, H1.
  eexists. split; [reflexivity|]. rewrite !length_alter. split; [reflexivity|].
  split.
  - rewrite !list_lookup_alter_eq.
    destruct (lookup_lt_is_Some_2 ps (Z.to_nat id)) as [p Hp]; [lia|].
    rewrite Hp. reflexivity.
  - intros k Hk. rewrite !list_lookup_alter_ne by congruence. reflexivity.
Qed.

Lemma fill_grid_spec (Nx Ny : Z) (dx : float) (ps : list Particle) :
  0 <= Nx -> 0 <= Ny -> Nx * Ny <= Int.max_int ->
  Z.of_nat (length ps) = Nx * Ny ->
  exists ps',
    fill_grid Nx Ny dx ps = Ok ps'
    /\ length ps' = length ps
    /\ forall k, 0 <= k < Nx * Ny -> ps' !! Z.to_nat k = Some (grid_point Nx dx k).
Proof.
  intros HNx HNy Hmax Hlen. unfold fill_grid.
  set (I := fun (n : Z) (qs : list Particle) =>
              length qs = length ps
              /\ forall k, 0 <= k < n -> qs !! Z.to_nat k = Some (grid_point Nx dx k)).
  destruct (for_intM_inv (fun j => I (j * Nx))
              (fun j particles =>
                 for_intM 0 Nx (fun i particles =>
                   let id := Int.add (Int.mul j Nx) i in
                   let* particles :=
                     store particles id (set_x (double_of_int i * dx)%float) in
                   store particles id (set_y (double_of_int j * dx)%float))
                   particles) 0 Ny ps HNy) as (ps' & He & Hl & Hps').
  - split; [reflexivity|]. intros k Hk. lia.
  - intros j qs Hj Hqs.
    destruct (for_intM_inv (fun i => I (j * Nx + i))
                (fun i particles =>
                   let id := Int.add (Int.mul j Nx) i in
                   let* particles :=
                     store particles id (set_x (double_of_int i * dx)%float) in
                   store particles id (set_y (double_of_int j * dx)%float))
                0 Nx qs HNx) as (rs & Hr & HIr).
    + now rewrite Z.add_0_r.
    + intros i rs Hi [Hlr Hrs].
      assert (Hid : 0 <= j * Nx + i < Nx * Ny) by nia.
      assert (Hw : Int.add (Int.mul j Nx) i = j * Nx + i).
      { unfold Int.add, Int.mul.
        rewrite (wrap_in_range (j * Nx)) by (unfold Int.min_int; nia).
        apply wrap_in_range. unfold Int.min_int. lia. }
      cbv zeta. rewrite Hw.
      destruct (store_twice rs (j * Nx + i) (double_of_int i * dx)%float
                  (double_of_int j * dx)%float) as (ts & Ht & Hlt & Hnew & Hold);
        [lia|].
      exists ts. split; [exact Ht|]. split; [congruence|].
      intros k Hk. destruct (Z.eq_dec k (j * Nx + i)) as [->|Hne].
      * rewrite Hnew. unfold grid_point. do 3 f_equal.
        -- rewrite Z.add_comm, Z.mod_add by lia. now rewrite Z.mod_small by lia.
        -- rewrite Z.add_comm, Z.div_add by lia. now rewrite Z.div_small by lia.
      * rewrite Hold by lia. apply Hrs. lia.
    + exists rs. split; [exact Hr|].
      now replace ((j + 1) * Nx) with (j * Nx + Nx) by lia.
  - exists ps'. split; [exact He|]. split; [exact Hl|].
    intros k Hk. apply Hps'. lia.
Qed.

(** What the lattice builder produces when the grid dimensions fit in an
    [int]. *)
Lemma build_lattice_spec (Lx Ly dx : float) (a b : Z) :
  (0 <? Lx)%float = true -> (0 <? Ly)%float = true -> (0 <? dx)%float = true ->
  Zfloor (Lx / dx) = Some a -> Zfloor (Ly / dx) = Some b ->
  (a + 1) * (b + 1) <= Int.max_int ->
  0 <= a /\ 0 <= b
  /\ exists particles,
       build_lattice Lx Ly dx
       = Ok (mkLattice (a + 1) (b + 1) ((a + 1) * (b + 1)) particles)
       /\ length particles = Z.to_nat ((a + 1) * (b + 1))
       /\ forall k, 0 <= k < (a + 1) * (b + 1) ->
            particles !! Z.to_nat k = Some (grid_point (a + 1) dx k).
Proof.
  intros HLx HLy Hdx Ha Hb Hmax.
  pose proof (floor_div_nonneg Lx dx a HLx Hdx Ha) as Ha0.
  pose proof (floor_div_nonneg Ly dx b HLy Hdx Hb) as Hb0.
  split; [exact Ha0|]. split; [exact Hb0|].
  unfold Int.max_int in Hmax.
  assert (Hra : Int.in_range a = true)
    by (apply in_range_spec; unfold Int.min_int, Int.max_int; nia).
  assert (Hrb : Int.in_range b = true)
    by (apply in_range_spec; unfold Int.min_int, Int.max_int; nia).
  unfold build_lattice.
  rewrite (cast_floor _ a Ha), Hra, (cast_floor _ b Hb), Hrb. cbn [bind].
  assert (HNx : Int.add a 1 = a + 1)
    by (apply wrap_in_range; unfold Int.min_int, Int.max_int; nia).
  assert (HNy : Int.add b 1 = b + 1)
    by (apply wrap_in_range; unfold Int.min_int, Int.max_int; nia).
  rewrite HNx, HNy.
  assert (HN : Int.mul (a + 1) (b + 1) = (a + 1) * (b + 1))
    by (apply wrap_in_range; unfold Int.min_int, Int.max_int; nia).
  rewrite HN. unfold vector_new.
  destruct (Z.ltb_spec ((a + 1) * (b + 1)) 0) as [|_]; [nia|]. cbn [bind].
  destruct (fill_grid_spec (a + 1) (b + 1) dx
              (replicate (Z.to_nat ((a + 1) * (b + 1))) (mkParticle 0 0)))
    as (ps & Hfill & Hlen & Hps);
    [lia|lia|unfold Int.max_int; lia|rewrite length_replicate; lia|].
  rewrite Hfill. cbn [bind]. exists ps. split; [reflexivity|].
  rewrite Hlen, length_replicate. split; [reflexivity|exact Hps].
Qed.

(** C1 (as amended): for strictly positive [Lx], [Ly], [dx] whose grid
    dimensions fit in an [int] -- [(floor(Lx/dx)+1) * (floor(Ly/dx)+1)] at
    most 2^31-1 -- the lattice builder succeeds with
    [Nx = floor(Lx/dx)+1], [Ny = floor(Ly/dx)+1] and [N = Nx*Ny]
    particles, the particle of row-major index [j*Nx + i] sits exactly at
    [(i*dx, j*dx)], and [Nx], [Ny] are at least 1 (also when [Lx] or [Ly]
    is smaller than [dx]). *)
Theorem lattice_builder_in_range (Lx Ly dx : float) (a b : Z) :
  (0 <? Lx)%float = true -> (0 <? Ly)%float = true -> (0 <? dx)%float = true ->
  Zfloor (Lx / dx) = Some a -> Zfloor (Ly / dx) = Some b ->
  (a + 1) * (b + 1) <= Int.max_int ->
  exists lat,
    build_lattice Lx Ly dx = Ok lat
    /\ lat_Nx lat = a + 1 /\ lat_Ny lat = b + 1
    /\ lat_N lat = lat_Nx lat * lat_Ny lat
    /\ Z.of_nat (length (lat_particles lat)) = lat_N lat
    /\ 1 <= lat_Nx lat /\ 1 <= lat_Ny lat
    /\ forall i j, 0 <= i < lat_Nx lat -> 0 <= j < lat_Ny lat ->
         lat_particles lat !! Z.to_nat (j * lat_Nx lat + i)
         = Some (mkParticle (double_of_int i * dx) (double_of_int j * dx)).
Proof.
  intros HLx HLy Hdx Ha Hb Hmax.
  destruct (build_lattice_spec Lx Ly dx a b HLx HLy Hdx Ha Hb Hmax)
    as (Ha0 & Hb0 & ps & Hbuild & Hlen & Hps).
  eexists. split; [exact Hbuild|]. cbn [lat_Nx lat_Ny lat_N lat_particles].
  rewrite Hlen. repeat split; try nia.
  intros i j Hi Hj. rewrite Hps by nia. unfold grid_point. do 3 f_equal.
  - rewrite Z.add_comm, Z.mod_add by lia. now rewrite Z.mod_small by lia.
  - rewrite Z.add_comm, Z.div_add by lia. now rewrite Z.div_small by lia.
Qed.

(** The degenerate domain [Ly < dx] still yields the single row [Ny = 1]. *)
Lemma lattice_builder_in_range_witness :
  exists lat,
    build_lattice 2.5 0.25 1 = Ok lat
    /\ lat_Nx lat = 2 + 1 /\ lat_Ny lat = 0 + 1
    /\ lat_N lat = lat_Nx lat * lat_Ny lat
    /\ Z.of_nat (length (lat_particles lat)) = lat_N lat
    /\ 1 <= lat_Nx lat /\ 1 <= lat_Ny lat
    /\ forall i j, 0 <= i < lat_Nx lat -> 0 <= j < lat_Ny lat ->
         lat_particles lat !! Z.to_nat (j * lat_Nx lat + i)
         = Some (mkParticle (double_of_int i * 1) (double_of_int j * 1)).
Proof.
  apply (lattice_builder_in_range 2.5 0.25 1 2 0); reflexivity || (vm_compute; congruence).
Defined.

(** C1 fails as stated: [Lx = 3e9], [Ly = dx = 1] are strictly positive and
    [floor(Lx/dx) + 1 = 3000000001], which no [int] holds, so no lattice
    with that [Nx] is produced; and for [Lx = Ly = 65535], [dx = 1] the
    product [Nx * Ny = 2^32] is reduced to [N = 0], the vector is empty and
    the first grid point is written outside it. *)
Lemma lattice_builder_overflow :
  ((0 <? 3000000000)%float = true /\ (0 <? 1)%float = true
   /\ Zfloor (3000000000 / 1) = Some 3000000000
   /\ build_lattice 3000000000 1 1 = Fault CastOutOfRange)
  /\ ((0 <? 65535)%float = true
      /\ Zfloor (65535 / 1) = Some 65535
      /\ Int.mul (65535 + 1) (65535 + 1) = 0
      /\ build_lattice 65535 65535 1 = Fault IndexOutOfBounds).
Proof. vm_compute. repeat split; reflexivity. Qed.

(** Whatever the parameters, a lattice that was built has [N] particles. *)

Lemma for_loopM_preserves {S : Type} (P : S -> Prop) (body : Z -> S -> result S)
    (cnt : nat) (lo : Z) (s s' : S) :
  (forall i t t', P t -> body i t = Ok t' -> P t') ->
  P s -> for_loopM cnt lo body s = Ok s' -> P s'.
Proof.
  intros Hbody. revert lo s. induction cnt as [|c IH]; intros lo s Hs.
  - intros [= <-]. exact Hs.
  - cbn [for_loopM]. destruct (body lo s) as [t|f] eqn:Hb; [|discriminate].
    cbn [bind]. apply IH. exact (Hbody lo s t Hs Hb).
Qed.

Lemma store_length {A : Type} (v v' : list A) (id : Z) (f : A -> A) :
  store v id f = Ok v' -> length v' = length v.
Proof.
  unfold store. destruct ((0 <=? id) && (id <? Z.of_nat (length v))); [|discriminate].
  intros [= <-]. apply length_alter.
Qed.

Lemma fill_grid_length (Nx Ny : Z) (dx : float) (ps ps' : list Particle) :
  fill_grid Nx Ny dx ps = Ok ps' -> length ps' = length ps.
Proof.
  unfold fill_grid, for_intM.
  apply (for_loopM_preserves (fun qs => length qs = length ps)); [|reflexivity].
  intros j qs qs' Hqs.
  apply (for_loopM_preserves (fun rs => length rs = length ps)); [|exact Hqs].
  intros i rs rs' Hrs. cbv zeta.
  destruct (store rs _ _) as [ts|f] eqn:E1; [|discriminate]. cbn [bind].
  intros E2. apply store_length in E1, E2. congruence.
Qed.

Lemma build_lattice_length (Lx Ly dx : float) (lat : lattice) :
  build_lattice Lx Ly dx = Ok lat ->
  0 <= lat_N lat <= Int.max_int
  /\ length (lat_particles lat) = Z.to_nat (lat_N lat).
Proof.
  unfold build_lattice.
  destruct (static_cast_int (floor (Lx / dx))) as [fx|f]; [|discriminate].
  destruct (static_cast_int (floor (Ly / dx))) as [fy|f]; [|discriminate].
  cbn [bind]. unfold vector_new.
  destruct (Z.ltb_spec (Int.mul (Int.add fx 1) (Int.add fy 1)) 0); [discriminate|].
  cbn [bind].
  destruct (fill_grid _ _ _ _) as [ps|f] eqn:Hfill; [|discriminate].
  cbn [bind]. intros [= <-]. cbn [lat_N lat_particles].
  apply fill_grid_length in Hfill. rewrite length_replicate in Hfill.
  split; [|exact Hfill]. split; [assumption|]. apply wrap_range.
Qed.


(** ** The pairwise scans *)

Section Scans.

Context {S : Type}.

Lemma fold_left_bind {A B : Type} (g : S -> B -> S) (h : A -> list B)
    (l : list A) (s : S) :
  fold_left g (l ≫= h) s = fold_left (fun s a => fold_left g (h a) s) l s.
Proof.
  revert s. induction l as [|a l IH]; intros s; [reflexivity|].
  rewrite bind_cons, fold_left_app. apply IH.
Qed.

Lemma fold_left_fmap {A B : Type} (g : S -> B -> S) (h : A -> B)
    (l : list A) (s : S) :
  fold_left g (h <$> l) s = fold_left (fun s a => g s (h a)) l s.
Proof. revert s. induction l as [|a l IH]; intros s; [reflexivity|]. apply IH. Qed.

Lemma fold_left_ext_in {A : Type} (g h : S -> A -> S) (l : list A) (s : S) :
  (forall a t, a ∈ l -> g t a = h t a) -> fold_left g l s = fold_left h l s.
Proof.
  revert s. induction l as [|a l IH]; intros s Hgh; [reflexivity|].
  cbn [fold_left]. rewrite Hgh by left. apply IH.
  intros b t Hb. apply Hgh. now right.
Qed.

(** The two nested loops visit exactly the list [all_pairs N], in order. *)
Lemma nested_loops_pairs (f : Z -> Z -> S -> S) (N : Z) (s : S) :
  for_int 0 N (fun i s => for_int (i + 1) N (fun j s => f i j s) s) s
  = fold_left (fun s p => f p.1 p.2 s) (all_pairs N) s.
Proof.
  unfold all_pairs. rewrite for_int_fold, fold_left_bind, Z.sub_0_r.
  apply fold_left_ext_in. intros i t _.
  now rewrite for_int_fold, fold_left_fmap.
Qed.

(** Skipping the pairs that fail a test is folding over the filtered list. *)
Lemma fold_left_filter {A : Type} (keep : A -> bool) (g : S -> A -> S)
    (l : list A) (s : S) :
  fold_left (fun s a => if keep a then g s a else s) l s
  = fold_left g (List.filter keep l) s.
Proof.
  revert s. induction l as [|a l IH]; intros s; [reflexivity|].
  cbn [fold_left List.filter]. destruct (keep a); apply IH.
Qed.

End Scans.

Lemma elem_of_all_pairs (N i j : Z) :
  (i, j) ∈ all_pairs N <-> 0 <= i /\ i < j /\ j < N.
Proof.
  unfold all_pairs. rewrite list_elem_of_bind. split.
  - intros (a & Hin & Ha). apply list_elem_of_fmap in Hin as (b & [= -> ->] & Hb).
    apply elem_of_seqZ in Ha, Hb. lia.
  - intros (Hi & Hij & Hj). exists i. split.
    + apply list_elem_of_fmap. exists j. split; [reflexivity|].
      apply elem_of_seqZ. lia.
    + apply elem_of_seqZ. lia.
Qed.

Lemma NoDup_all_pairs (N : Z) : NoDup (all_pairs N).
Proof.
  unfold all_pairs. apply NoDup_bind.
  - intros a1 a2 [i j] _ _ H1 H2.
    apply list_elem_of_fmap in H1 as (b1 & [= -> ->] & _).
    apply list_elem_of_fmap in H2 as (b2 & [= -> _] & _). reflexivity.
  - intros a _. apply NoDup_fmap_2; [|apply NoDup_seqZ].
    intros b1 b2 [= ->]. reflexivity.
  - apply NoDup_seqZ.
Qed.

Lemma elem_of_bonds (N : Z) (particles : list Particle) (delta2 : float) (i j : Z) :
  (i, j) ∈ bonds N particles delta2
  <-> (0 <= i /\ i < j /\ j < N) /\ is_bond particles delta2 i j = true.
Proof.
  unfold bonds. rewrite list_elem_of_In, filter_In, <- list_elem_of_In.
  now rewrite elem_of_all_pairs.
Qed.

Lemma count_bonds_fold (N : Z) (particles : list Particle) (delta2 : float)
    (v : list Z) :
  count_bonds N particles delta2 v
  = fold_left (fun v p => bump p v) (bonds N particles delta2) v.
Proof.
  unfold count_bonds, bonds.
  rewrite (nested_loops_pairs (fun i j N_total =>
             if is_bond particles delta2 i j
             then alter Int.incr (Z.to_nat j) (alter Int.incr (Z.to_nat i) N_total)
             else N_total)).
  apply (fold_left_filter (fun p => is_bond particles delta2 p.1 p.2)
           (fun v p => bump p v)).
Qed.

(** ** Counting increments *)

Lemma iter_incr (n : nat) (z : Z) :
  Nat.iter n Int.incr (Int.wrap z) = Int.wrap (z + Z.of_nat n).
Proof.
  induction n as [|n IH]; [now rewrite Z.add_0_r|].
  rewrite Nat.iter_succ, IH, wrap_incr. f_equal. lia.
Qed.

Lemma iter_incr_0 (n : nat) : Nat.iter n Int.incr 0 = Int.wrap (Z.of_nat n).
Proof. exact (iter_incr n 0). Qed.

Lemma iter_incr_comm (n : nat) (z : Z) :
  Nat.iter n Int.incr (Int.incr z) = Int.incr (Nat.iter n Int.incr z).
Proof. induction n as [|n IH]; [reflexivity|]. now rewrite !Nat.iter_succ, IH. Qed.

Lemma length_bump (p : Z * Z) (v : list Z) : length (bump p v) = length v.
Proof. unfold bump. now rewrite !length_alter. Qed.

Lemma lookup_bump (p : Z * Z) (v : list Z) (k : Z) :
  proper_pair p -> 0 <= k ->
  bump p v !! Z.to_nat k
  = (if touches k p then Int.incr else id) <$> v !! Z.to_nat k.
Proof.
  intros (H1 & H2 & Hne) Hk. unfold bump, touches.
  destruct (Z.eqb_spec p.2 k) as [Hk2|Hk2].
  - rewrite <- Hk2.
    rewrite list_lookup_alter_eq, list_lookup_alter_ne by lia.
    now rewrite orb_true_r.
  - rewrite list_lookup_alter_ne by lia. rewrite orb_false_r.
    destruct (Z.eqb_spec p.1 k) as [Hk1|Hk1].
    + rewrite <- Hk1. now rewrite list_lookup_alter_eq.
    + rewrite list_lookup_alter_ne by lia. now destruct (v !! Z.to_nat k).
Qed.

Lemma degree_cons (k : Z) (p : Z * Z) (bs : list (Z * Z)) :
  degree k (p :: bs) = if touches k p then Datatypes.S (degree k bs) else degree k bs.
Proof. unfold degree. cbn [List.filter]. now destruct (touches k p). Qed.

Lemma length_fold_bump (bs : list (Z * Z)) (v : list Z) :
  length (fold_left (fun v p => bump p v) bs v) = length v.
Proof.
  revert v. induction bs as [|p bs IH]; intros v; [reflexivity|].
  cbn [fold_left]. now rewrite IH, length_bump.
Qed.

(** After all the pairs of [bs] have been processed, the counter of [k]
    has been incremented once per pair that has [k] as an endpoint. *)
Lemma lookup_fold_bump (bs : list (Z * Z)) (v : list Z) (k : Z) :
  Forall proper_pair bs -> 0 <= k ->
  fold_left (fun v p => bump p v) bs v !! Z.to_nat k
  = Nat.iter (degree k bs) Int.incr <$> v !! Z.to_nat k.
Proof.
  intros Hbs Hk. revert v. induction Hbs as [|p bs Hp _ IH]; intros v.
  - cbn. now destruct (v !! Z.to_nat k).
  - cbn [fold_left]. rewrite IH, lookup_bump, degree_cons by assumption.
    destruct (v !! Z.to_nat k) as [a|]; [|reflexivity]. cbn.
    destruct (touches k p); [|reflexivity].
    now rewrite Nat.iter_succ, iter_incr_comm.
Qed.

Lemma proper_all_pairs (N : Z) : Forall proper_pair (all_pairs N).
Proof.
  apply Forall_forall. intros [i j] H%elem_of_all_pairs. unfold proper_pair. cbn. lia.
Qed.

Lemma Forall_filter_bool {A : Type} (P : A -> Prop) (f : A -> bool) (l : list A) :
  Forall P l -> Forall P (List.filter f l).
Proof.
  induction 1 as [|a l Ha _ IH]; cbn [List.filter]; [constructor|].
  destruct (f a); [constructor|]; assumption.
Qed.

Lemma proper_bonds (N : Z) (particles : list Particle) (delta2 : float) :
  Forall proper_pair (bonds N particles delta2).
Proof. apply Forall_filter_bool, proper_all_pairs. Qed.

Lemma proper_broken (rng : nat -> float) (d_phi : float) (t : nat)
    (bs : list (Z * Z)) :
  Forall proper_pair bs -> Forall proper_pair (broken_bonds rng d_phi t bs).
Proof.
  intros Hbs. revert t. induction Hbs as [|b bs Hb _ IH]; intros t; cbn; [constructor|].
  destruct (rng t <? d_phi)%float; [constructor|]; auto.
Qed.

(** ** The pre-damage scan *)

Lemma apply_predamage_fold (N : Z) (particles : list Particle)
    (delta2 d_phi : float) (rng : nat -> float) (st : predamage) :
  apply_predamage N particles delta2 d_phi rng st
  = fold_left (fun st p => break_step d_phi rng p st) (bonds N particles delta2) st.
Proof.
  unfold apply_predamage, bonds.
  rewrite (nested_loops_pairs (predamage_step particles delta2 d_phi rng)).
  rewrite <- (fold_left_filter (fun p => is_bond particles delta2 p.1 p.2)
                (fun st p => break_step d_phi rng p st)).
  apply fold_left_ext_in. intros [i j] t _. reflexivity.
Qed.

(** Closed form of the state after the bonds [bs] have been decided. *)
Lemma fold_break_step (d_phi : float) (rng : nat -> float) (bs : list (Z * Z))
    (st : predamage) :
  fold_left (fun st p => break_step d_phi rng p st) bs st
  = let B := broken_bonds rng d_phi (drawn st) bs in
    mkPredamage (fold_left (fun v p => bump p v) B (N_broken st))
      (Nat.iter (length bs) Int.incr (totalBonds st))
      (Nat.iter (length B) Int.incr (brokenBonds st))
      (drawn st + length bs).
Proof.
  revert st. induction bs as [|b bs IH]; intros st.
  - cbn. rewrite Nat.add_0_r. now destruct st.
  - cbn [fold_left broken_bonds]. rewrite IH. unfold break_step.
    destruct (rng (drawn st) <? d_phi)%float;
      cbn [N_broken totalBonds brokenBonds drawn fold_left length];
      rewrite ?Nat.iter_succ, ?iter_incr_comm; f_equal; lia.
Qed.

(** ** Degrees *)

Lemma degree_filter_le (k : Z) (f : Z * Z -> bool) (bs : list (Z * Z)) :
  (degree k (List.filter f bs) <= degree k bs)%nat.
Proof.
  induction bs as [|p bs IH]; [reflexivity|].
  cbn [List.filter]. destruct (f p); rewrite ?degree_cons;
    destruct (touches k p); lia.
Qed.

Lemma degree_broken_le (k : Z) (rng : nat -> float) (d_phi : float) (t : nat)
    (bs : list (Z * Z)) :
  (degree k (broken_bonds rng d_phi t bs) <= degree k bs)%nat.
Proof.
  revert t. induction bs as [|p bs IH]; intros t; [reflexivity|].
  cbn [broken_bonds]. specialize (IH (Datatypes.S t)).
  destruct (rng t <? d_phi)%float; rewrite ?degree_cons;
    destruct (touches k p); lia.
Qed.

Lemma length_broken_le (rng : nat -> float) (d_phi : float) (t : nat)
    (bs : list (Z * Z)) :
  (length (broken_bonds rng d_phi t bs) <= length bs)%nat.
Proof.
  revert t. induction bs as [|p bs IH]; intros t; [reflexivity|].
  cbn [broken_bonds]. specialize (IH (Datatypes.S t)).
  destruct (rng t <? d_phi)%float; cbn [length]; lia.
Qed.

(** A particle has at most [N - 1] partners among the visited pairs. *)
Lemma degree_all_pairs_lt (N k : Z) :
  0 <= k < N -> (degree k (all_pairs N) < Z.to_nat N)%nat.
Proof.
  intros Hk. unfold degree.
  set (T := List.filter (touches k) (all_pairs N)).
  assert (HT : forall p, p ∈ T -> (0 <= p.1 /\ p.1 < p.2 /\ p.2 < N) /\ touches k p = true).
  { intros [i j] Hp. unfold T in Hp.
    rewrite list_elem_of_In, filter_In, <- list_elem_of_In, elem_of_all_pairs in Hp.
    exact Hp. }
  assert (Hnd : NoDup T).
  { apply NoDup_ListNoDup, List.NoDup_filter, NoDup_ListNoDup, NoDup_all_pairs. }
  assert (Hnd' : NoDup (k :: (other_end k <$> T))).
  { apply NoDup_cons. split.
    - intros (p & Hp & Hin)%list_elem_of_fmap.
      destruct (HT p Hin) as [Hr Ht]. unfold other_end, touches in *.
      destruct (Z.eqb_spec p.1 k); destruct (Z.eqb_spec p.2 k); cbn in Ht; lia.
    - apply NoDup_fmap_2_strong; [|exact Hnd].
      intros [i1 j1] [i2 j2] H1 H2.
      destruct (HT _ H1) as [Hr1 Ht1], (HT _ H2) as [Hr2 Ht2].
      unfold other_end, touches in *. cbn [fst snd] in *.
      destruct (Z.eqb_spec i1 k); destruct (Z.eqb_spec j1 k);
        destruct (Z.eqb_spec i2 k); destruct (Z.eqb_spec j2 k);
        cbn in Ht1, Ht2; try discriminate; intros ?; f_equal; lia. }
  assert (Hsub : (k :: (other_end k <$> T)) ⊆+ seqZ 0 N).
  { apply NoDup_submseteq; [exact Hnd'|].
    intros z [->|(p & -> & Hin)%list_elem_of_fmap]%elem_of_cons;
      apply elem_of_seqZ; [lia|].
    destruct (HT p Hin) as [Hr _]. unfold other_end. destruct (p.1 =? k); lia. }
  apply submseteq_length in Hsub.
  rewrite length_seqZ in Hsub. cbn [length] in Hsub. rewrite length_fmap in Hsub.
  lia.
Qed.

Lemma Zsum_app (l1 l2 : list Z) : Zsum (l1 ++ l2) = Zsum l1 + Zsum l2.
Proof. unfold Zsum. induction l1 as [|a l1 IH]; cbn; lia. Qed.

Lemma Zsum_fmap_add {A : Type} (f g : A -> Z) (l : list A) :
  Zsum ((fun a => f a + g a) <$> l) = Zsum (f <$> l) + Zsum (g <$> l).
Proof. unfold Zsum. induction l as [|a l IH]; cbn; lia. Qed.

Lemma Zsum_fmap_ext {A : Type} (f g : A -> Z) (l : list A) :
  (forall a, a ∈ l -> f a = g a) -> Zsum (f <$> l) = Zsum (g <$> l).
Proof.
  unfold Zsum. induction l as [|a l IH]; intros Hfg; [reflexivity|].
  cbn. rewrite Hfg by left. f_equal. apply IH. intros b Hb. apply Hfg. now right.
Qed.

Lemma Zsum_indicator (a : Z) (n : nat) :
  0 <= a ->
  Zsum ((fun k => if a =? k then 1 else 0) <$> seqZ 0 (Z.of_nat n))
  = if a <? Z.of_nat n then 1 else 0.
Proof.
  intros Ha. induction n as [|n IH].
  - change (Z.of_nat 0) with 0. destruct (Z.ltb_spec a 0); [lia|reflexivity].
  - rewrite seqZ_S, fmap_app, Zsum_app, IH. cbn [fmap list_fmap Zsum foldr].
    destruct (Z.ltb_spec a (Z.of_nat n)); destruct (Z.eqb_spec a (0 + Z.of_nat n));
      destruct (Z.ltb_spec a (Z.of_nat (Datatypes.S n))); lia.
Qed.

(** Every pair counts for two endpoints: the degrees add up to twice the
    number of pairs. *)
Lemma Zsum_degree (N : Z) (bs : list (Z * Z)) :
  Forall (fun p => proper_pair p /\ p.1 < N /\ p.2 < N) bs ->
  Zsum ((fun k => Z.of_nat (degree k bs)) <$> seqZ 0 N) = 2 * Z.of_nat (length bs).
Proof.
  induction 1 as [|p bs [(H1 & H2 & Hne) [HN1 HN2]] _ IH].
  - cbn [length]. unfold degree. cbn [List.filter length].
    unfold Zsum. induction (seqZ 0 N) as [|a l IHl]; cbn; lia.
  - rewrite (Zsum_fmap_ext _ (fun k => ((if p.1 =? k then 1 else 0)
                                        + (if p.2 =? k then 1 else 0))
                                       + Z.of_nat (degree k bs))).
    + rewrite Zsum_fmap_add, Zsum_fmap_add, IH.
      assert (HN : N = Z.of_nat (Z.to_nat N)) by lia. rewrite HN at 1 2.
      rewrite !Zsum_indicator by assumption. rewrite <- HN.
      destruct (Z.ltb_spec p.1 N); destruct (Z.ltb_spec p.2 N); cbn [length]; lia.
    + intros k _. rewrite degree_cons. unfold touches.
      destruct (Z.eqb_spec p.1 k); destruct (Z.eqb_spec p.2 k); cbn [orb]; lia.
Qed.

Lemma in_range_all_pairs (N : Z) :
  Forall (fun p => proper_pair p /\ p.1 < N /\ p.2 < N) (all_pairs N).
Proof.
  apply Forall_forall. intros [i j] H%elem_of_all_pairs. unfold proper_pair. cbn. lia.
Qed.

Lemma in_range_bonds (N : Z) (particles : list Particle) (delta2 : float) :
  Forall (fun p => proper_pair p /\ p.1 < N /\ p.2 < N) (bonds N particles delta2).
Proof. apply Forall_filter_bool, in_range_all_pairs. Qed.

Lemma in_range_broken (N : Z) (rng : nat -> float) (d_phi : float) (t : nat)
    (bs : list (Z * Z)) :
  Forall (fun p => proper_pair p /\ p.1 < N /\ p.2 < N) bs ->
  Forall (fun p => proper_pair p /\ p.1 < N /\ p.2 < N) (broken_bonds rng d_phi t bs).
Proof.
  intros Hbs. revert t. induction Hbs as [|b bs Hb _ IH]; intros t; cbn; [constructor|].
  destruct (rng t <? d_phi)%float; [constructor|]; auto.
Qed.

(** The counters after a scan from zero, as a list. *)
Lemma fold_bump_zero (N : Z) (bs : list (Z * Z)) :
  Forall proper_pair bs ->
  fold_left (fun v p => bump p v) bs (replicate (Z.to_nat N) 0)
  = (fun k => Int.wrap (Z.of_nat (degree k bs))) <$> seqZ 0 N.
Proof.
  intros Hbs. apply list_eq. intros i.
  replace i with (Z.to_nat (Z.of_nat i)) at 1 by lia.
  rewrite lookup_fold_bump by (assumption || lia). rewrite Nat2Z.id.
  rewrite list_lookup_fmap.
  destruct (Z_lt_le_dec (Z.of_nat i) N) as [Hi|Hi].
  - rewrite lookup_replicate_2, lookup_seqZ_lt by lia. cbn.
    now rewrite iter_incr_0.
  - rewrite lookup_seqZ_ge by lia.
    destruct (replicate (Z.to_nat N) 0 !! i) eqn:E; [|reflexivity].
    apply lookup_replicate in E. lia.
Qed.

(** ** Number of visited pairs *)

Lemma filter_all {A : Type} (f : A -> bool) (l : list A) :
  Forall (fun a => f a = true) l -> List.filter f l = l.
Proof.
  induction 1 as [|a l Ha _ IH]; [reflexivity|].
  cbn [List.filter]. now rewrite Ha, IH.
Qed.

Lemma length_bind_rows (N : Z) (n : nat) :
  Z.of_nat n <= N ->
  2 * Z.of_nat (length (seqZ 0 (Z.of_nat n)
                          ≫= (fun i => pair i <$> seqZ (i + 1) (N - (i + 1)))))
  = Z.of_nat n * (2 * N - Z.of_nat n - 1).
Proof.
  induction n as [|n IH]; intros Hn; [reflexivity|].
  rewrite seqZ_S, bind_app, length_app, Nat2Z.inj_add, Z.mul_add_distr_l.
  rewrite IH by lia. rewrite bind_singleton, length_fmap, length_seqZ. lia.
Qed.

Lemma length_all_pairs (N : Z) :
  0 <= N -> 2 * Z.of_nat (length (all_pairs N)) = N * (N - 1).
Proof.
  intros HN. unfold all_pairs.
  rewrite <- (Z2Nat.id N) at 1 by lia. rewrite length_bind_rows by lia. lia.
Qed.

(** ** Which bonds break *)

Lemma broken_bonds_none (rng : nat -> float) (d_phi : float) (t : nat)
    (bs : list (Z * Z)) :
  (forall k, (rng k <? d_phi)%float = false) -> broken_bonds rng d_phi t bs = [].
Proof.
  intros H. revert t. induction bs as [|b bs IH]; intros t; [reflexivity|].
  cbn [broken_bonds]. now rewrite H.
Qed.

Lemma broken_bonds_all (rng : nat -> float) (d_phi : float) (t : nat)
    (bs : list (Z * Z)) :
  (forall k, (rng k <? d_phi)%float = true) -> broken_bonds rng d_phi t bs = bs.
Proof.
  intros H. revert t. induction bs as [|b bs IH]; intros t; [reflexivity|].
  cbn [broken_bonds]. now rewrite H, IH.
Qed.

(** The state after step 4, in closed form. *)
Lemma apply_predamage_spec (N : Z) (particles : list Particle)
    (delta2 d_phi : float) (rng : nat -> float) :
  let bs := bonds N particles delta2 in
  let B := broken_bonds rng d_phi 0 bs in
  apply_predamage N particles delta2 d_phi rng (predamage_init N)
  = mkPredamage ((fun k => Int.wrap (Z.of_nat (degree k B))) <$> seqZ 0 N)
      (Int.wrap (Z.of_nat (length bs))) (Int.wrap (Z.of_nat (length B)))
      (length bs).
Proof.
  intros bs B. rewrite apply_predamage_fold, fold_break_step.
  cbn [predamage_init drawn N_broken totalBonds brokenBonds].
  fold bs. fold B. rewrite !iter_incr_0, fold_bump_zero; [reflexivity|].
  apply proper_broken, proper_bonds.
Qed.

Lemma count_bonds_spec (N : Z) (particles : list Particle) (delta2 : float) :
  count_bonds N particles delta2 (replicate (Z.to_nat N) 0)
  = (fun k => Int.wrap (Z.of_nat (degree k (bonds N particles delta2)))) <$> seqZ 0 N.
Proof. rewrite count_bonds_fold. apply fold_bump_zero, proper_bonds. Qed.

Lemma degree_bonds_lt (N : Z) (particles : list Particle) (delta2 : float) (k : Z) :
  0 <= k < N -> (degree k (bonds N particles delta2) < Z.to_nat N)%nat.
Proof.
  intros Hk. eapply Nat.le_lt_trans; [apply degree_filter_le|].
  now apply degree_all_pairs_lt.
Qed.

Lemma wrap_degree (N : Z) (k : Z) (d : nat) :
  N <= Int.max_int -> (d < Z.to_nat N)%nat -> Int.wrap (Z.of_nat d) = Z.of_nat d.
Proof.
  intros HN Hd. apply wrap_in_range. unfold Int.min_int, Int.max_int in *. lia.
Qed.

(** ** Bond enumeration *)

(** C2: for a lattice of [N] particles ([N] an [int]) and any horizon
    factor [m], the scan of step 3 visits the pairs of [all_pairs N] and
    nothing else: each pair [(i, j)] with [0 <= i < j < N] exactly once,
    never a pair [(i, i)] and never both [(i, j)] and [(j, i)]; the
    distance function of the code returns the squared Euclidean distance
    [(a.x - b.x)^2 + (a.y - b.y)^2] of its two particles, computed in
    doubles; a visited pair is a bond iff that squared distance is
    [<= (m*dx)*(m*dx)], the comparison being true when the two sides are
    equal; and when the scan ends [N_total[k]] is the number of bonds
    having [k] as an endpoint, each bond having been counted at both of
    its endpoints. *)
Theorem bond_enumerator_spec (N : Z) (particles : list Particle) (m dx : float) :
  0 <= N <= Int.max_int ->
  let delta2 := ((m * dx) * (m * dx))%float in
  let sqdist := fun a b : Particle =>
    ((x a - x b) * (x a - x b) + (y a - y b) * (y a - y b))%float in
  (forall a b, dist2 a b = sqdist a b)
  /\ (forall v, count_bonds N particles delta2 v
             = fold_left (fun v p => if is_bond particles delta2 p.1 p.2
                                     then bump p v else v) (all_pairs N) v)
  /\ NoDup (all_pairs N)
  /\ (forall i j, (i, j) ∈ all_pairs N <-> 0 <= i /\ i < j /\ j < N)
  /\ (forall i, (i, i) ∉ all_pairs N)
  /\ (forall i j, (i, j) ∈ all_pairs N -> (j, i) ∉ all_pairs N)
  /\ (forall i j, (i, j) ∈ bonds N particles delta2
        <-> (0 <= i /\ i < j /\ j < N)
            /\ (sqdist (particles !!! Z.to_nat i) (particles !!! Z.to_nat j)
                <=? delta2)%float = true)
  /\ (forall i j, (sqdist (particles !!! Z.to_nat i) (particles !!! Z.to_nat j)
                   =? delta2)%float = true ->
                  is_bond particles delta2 i j = true)
  /\ (forall p v k, proper_pair p -> 0 <= k ->
        bump p v !! Z.to_nat k
        = (if touches k p then Int.incr else id) <$> v !! Z.to_nat k)
  /\ count_bonds N particles delta2 (replicate (Z.to_nat N) 0)
     = (fun k => Z.of_nat (degree k (bonds N particles delta2))) <$> seqZ 0 N.
Proof.
  intros HN delta2 sqdist. split; [reflexivity|]. split.
  { intros v. unfold count_bonds.
    exact (nested_loops_pairs (fun i j N_total =>
             if is_bond particles delta2 i j
             then alter Int.incr (Z.to_nat j) (alter Int.incr (Z.to_nat i) N_total)
             else N_total) N v). }
  split; [apply NoDup_all_pairs|].
  split; [apply elem_of_all_pairs|].
  split; [intros i H%elem_of_all_pairs; lia|].
  split; [intros i j H%elem_of_all_pairs H'%elem_of_all_pairs; lia|].
  split; [intros i j; apply elem_of_bonds|].
  split; [intros i j; apply eqb_leb|].
  split; [apply lookup_bump|].
  rewrite count_bonds_spec. apply list_fmap_ext. intros i k Hk.
  apply lookup_seqZ in Hk as [-> Hi].
  apply (wrap_degree N (0 + Z.of_nat i)); [lia|].
  apply degree_bonds_lt. lia.
Qed.

(** The 2 x 2 lattice of spacing 1 with [m = 1.5]. *)
Lemma bond_enumerator_spec_witness :
  let particles := [mkParticle 0 0; mkParticle 1 0; mkParticle 0 1; mkParticle 1 1] in
  count_bonds 4 particles ((1.5 * 1) * (1.5 * 1))%float (replicate (Z.to_nat 4) 0)
  = (fun k => Z.of_nat (degree k (bonds 4 particles ((1.5 * 1) * (1.5 * 1))%float)))
      <$> seqZ 0 4.
Proof.
  intros particles.
  apply (bond_enumerator_spec 4 particles 1.5 1). unfold Int.max_int. lia.
Defined.

(** ** Per-particle and global counters *)

(** Per-particle counters after the two scans. *)
Lemma counters_at (N : Z) (particles : list Particle) (delta2 d_phi : float)
    (rng : nat -> float) (i : Z) :
  0 <= N <= Int.max_int -> 0 <= i < N ->
  let bs := bonds N particles delta2 in
  N_broken (apply_predamage N particles delta2 d_phi rng (predamage_init N))
    !! Z.to_nat i = Some (Z.of_nat (degree i (broken_bonds rng d_phi 0 bs)))
  /\ count_bonds N particles delta2 (replicate (Z.to_nat N) 0) !! Z.to_nat i
     = Some (Z.of_nat (degree i bs))
  /\ (degree i (broken_bonds rng d_phi 0 bs) <= degree i bs < Z.to_nat N)%nat.
Proof.
  intros HN Hi bs. rewrite apply_predamage_spec, count_bonds_spec.
  cbn [N_broken]. fold bs.
  pose proof (degree_broken_le i rng d_phi 0 bs) as Hle.
  pose proof (degree_bonds_lt N particles delta2 i Hi) as Hlt. fold bs in Hlt.
  rewrite !list_lookup_fmap, lookup_seqZ_lt by lia.
  cbn [fmap option_fmap option_map]. rewrite Z.add_0_l, Z2Nat.id by lia.
  rewrite !(wrap_degree N i) by lia. auto.
Qed.

(** C6: after the pre-damage scan every particle [i] satisfies
    [0 <= N_broken[i] <= N_total[i]], although the two counters come from
    two separate scans; exactly one draw is taken per bond, and the bond
    number [t] in visiting order is broken iff draw number [t] is below
    [d_phi], a decision on which nothing later depends or returns. *)
Theorem broken_le_total (N : Z) (particles : list Particle) (delta2 d_phi : float)
    (rng : nat -> float) :
  0 <= N <= Int.max_int ->
  let N_total := count_bonds N particles delta2 (replicate (Z.to_nat N) 0) in
  let st := apply_predamage N particles delta2 d_phi rng (predamage_init N) in
  let bs := bonds N particles delta2 in
  (forall i, 0 <= i < N ->
     exists b t, N_broken st !! Z.to_nat i = Some b
                 /\ N_total !! Z.to_nat i = Some t /\ 0 <= b <= t)
  /\ drawn st = length bs
  /\ N_broken st
     = (fun k => Z.of_nat (degree k (broken_bonds rng d_phi 0 bs))) <$> seqZ 0 N.
Proof.
  intros HN N_total st bs. subst N_total st. split; [|split].
  - intros i Hi.
    destruct (counters_at N particles delta2 d_phi rng i HN Hi) as (Hb & Ht & Hle).
    eexists _, _. split; [exact Hb|]. split; [exact Ht|]. lia.
  - rewrite apply_predamage_spec. reflexivity.
  - rewrite apply_predamage_spec. cbn [N_broken]. fold bs.
    apply list_fmap_ext. intros i k Hk. apply lookup_seqZ in Hk as [-> Hi].
    apply (wrap_degree N (0 + Z.of_nat i)); [lia|].
    eapply Nat.le_lt_trans; [apply degree_broken_le|]. apply degree_bonds_lt. lia.
Qed.

Lemma broken_le_total_witness :
  let particles := [mkParticle 0 0; mkParticle 1 0; mkParticle 0 1; mkParticle 1 1] in
  let rng := fun k : nat => if Nat.even k then 0.25%float else 0.75%float in
  drawn (apply_predamage 4 particles 2.25 0.5 rng (predamage_init 4))
  = length (bonds 4 particles 2.25).
Proof.
  intros particles rng.
  apply (broken_le_total 4 particles 2.25 0.5 rng). unfold Int.max_int. lia.
Defined.



Lemma length_filter_bool_le {A : Type} (f : A -> bool) (l : list A) :
  (length (List.filter f l) <= length l)%nat.
Proof.
  induction l as [|a l IH]; [reflexivity|].
  cbn [List.filter]. destruct (f a); cbn [length]; lia.
Qed.

(** Up to 65536 particles there are fewer than 2^31 pairs, hence bonds. *)
Lemma few_particles_few_bonds (N : Z) (particles : list Particle) (delta2 : float) :
  0 <= N <= 65536 ->
  Z.of_nat (length (bonds N particles delta2)) <= Int.max_int.
Proof.
  intros HN. pose proof (length_all_pairs N ltac:(lia)) as Hlen.
  pose proof (length_filter_bool_le (fun p => is_bond particles delta2 p.1 p.2)
                (all_pairs N)) as Hle.
  fold (bonds N particles delta2) in Hle. unfold Int.max_int. nia.
Qed.

(** C5 (as amended): whenever the number of bonds is at most 2^31-1 -- as
    it is for every lattice of at most 65536 particles -- the global
    [totalBonds] of the pre-damage scan is half the sum of the
    per-particle [N_total] of the enumeration scan. *)
Theorem total_bonds_sum (N : Z) (particles : list Particle) (delta2 d_phi : float)
    (rng : nat -> float) :
  0 <= N <= Int.max_int ->
  N <= 65536 \/ Z.of_nat (length (bonds N particles delta2)) <= Int.max_int ->
  2 * totalBonds (apply_predamage N particles delta2 d_phi rng (predamage_init N))
  = Zsum (count_bonds N particles delta2 (replicate (Z.to_nat N) 0)).
Proof.
  intros HN Hsmall.
  assert (Hlen : Z.of_nat (length (bonds N particles delta2)) <= Int.max_int).
  { destruct Hsmall as [H|H]; [apply few_particles_few_bonds; lia|exact H]. }
  rewrite apply_predamage_spec, count_bonds_spec. cbn [totalBonds].
  rewrite wrap_in_range by (unfold Int.min_int; lia).
  rewrite <- (Zsum_degree N) by apply in_range_bonds.
  apply Zsum_fmap_ext. intros k Hk%elem_of_seqZ. symmetry.
  apply (wrap_degree N k); [lia|]. apply degree_bonds_lt. lia.
Qed.

Lemma total_bonds_sum_witness :
  let particles := [mkParticle 0 0; mkParticle 1 0; mkParticle 0 1; mkParticle 1 1] in
  let rng := fun k : nat => if Nat.even k then 0.25%float else 0.75%float in
  2 * totalBonds (apply_predamage 4 particles 2.25 0.5 rng (predamage_init 4))
  = Zsum (count_bonds 4 particles 2.25 (replicate (Z.to_nat 4) 0)).
Proof.
  intros particles rng.
  apply (total_bonds_sum 4 particles 2.25 0.5 rng);
    [unfold Int.max_int; lia|left; lia].
Defined.

(** C10 (as amended): whenever the number of broken bonds is at most
    2^31-1 -- as it is for every lattice of at most 65536 particles -- the
    global [brokenBonds] is half the sum of the per-particle [N_broken]. *)
Theorem broken_bonds_sum (N : Z) (particles : list Particle) (delta2 d_phi : float)
    (rng : nat -> float) :
  0 <= N <= Int.max_int ->
  N <= 65536
  \/ Z.of_nat (length (broken_bonds rng d_phi 0 (bonds N particles delta2)))
     <= Int.max_int ->
  let st := apply_predamage N particles delta2 d_phi rng (predamage_init N) in
  2 * brokenBonds st = Zsum (N_broken st).
Proof.
  intros HN Hsmall st. subst st.
  assert (Hlen : Z.of_nat (length (broken_bonds rng d_phi 0
                                     (bonds N particles delta2))) <= Int.max_int).
  { destruct Hsmall as [H|H]; [|exact H].
    pose proof (length_broken_le rng d_phi 0 (bonds N particles delta2)).
    pose proof (few_particles_few_bonds N particles delta2 ltac:(lia)). lia. }
  rewrite apply_predamage_spec. cbn [brokenBonds N_broken].
  rewrite wrap_in_range by (unfold Int.min_int; lia).
  rewrite <- (Zsum_degree N) by apply in_range_broken, in_range_bonds.
  apply Zsum_fmap_ext. intros k Hk%elem_of_seqZ. symmetry.
  apply (wrap_degree N k); [lia|].
  eapply Nat.le_lt_trans; [apply degree_broken_le|]. apply degree_bonds_lt. lia.
Qed.

Lemma broken_bonds_sum_witness :
  let particles := [mkParticle 0 0; mkParticle 1 0; mkParticle 0 1; mkParticle 1 1] in
  let rng := fun k : nat => if Nat.even k then 0.25%float else 0.75%float in
  2 * brokenBonds (apply_predamage 4 particles 2.25 0.5 rng (predamage_init 4))
  = Zsum (N_broken (apply_predamage 4 particles 2.25 0.5 rng (predamage_init 4))).
Proof.
  intros particles rng.
  apply (broken_bonds_sum 4 particles 2.25 0.5 rng);
    [unfold Int.max_int; lia|left; lia].
Defined.

(** The boundary scenario of the specification: [Lx = Ly = dx = 1] and
    [m = 1.5] give four particles, all six pairs are bonds, and every
    particle has three of them; with [m = 1] the diagonal pairs are no
    longer bonds while the four sides, at distance exactly [delta], are. *)
Example boundary_scenario :
  let particles := [mkParticle 0 0; mkParticle 1 0; mkParticle 0 1; mkParticle 1 1] in
  (build_lattice 1 1 1 = Ok (mkLattice 2 2 4 particles))
  /\ count_bonds 4 particles ((1.5 * 1) * (1.5 * 1))%float (replicate 4 0) = [3; 3; 3; 3]
  /\ length (bonds 4 particles ((1.5 * 1) * (1.5 * 1))%float) = 6%nat
  /\ bonds 4 particles ((1 * 1) * (1 * 1))%float = [(0, 1); (0, 2); (1, 3); (2, 3)]
  /\ count_bonds 4 particles ((1 * 1) * (1 * 1))%float (replicate 4 0) = [2; 2; 2; 2].
Proof. vm_compute. repeat split; reflexivity. Qed.

(** ** Counters beyond the range of [int] *)

Lemma Zsum_count_bonds (N : Z) (particles : list Particle) (delta2 : float) :
  0 <= N <= Int.max_int ->
  Zsum (count_bonds N particles delta2 (replicate (Z.to_nat N) 0))
  = 2 * Z.of_nat (length (bonds N particles delta2)).
Proof.
  intros HN. rewrite count_bonds_spec.
  rewrite <- (Zsum_degree N) by apply in_range_bonds.
  apply Zsum_fmap_ext. intros k Hk%elem_of_seqZ.
  apply (wrap_degree N k); [lia|]. apply degree_bonds_lt. lia.
Qed.

Lemma Zsum_N_broken (N : Z) (particles : list Particle) (delta2 d_phi : float)
    (rng : nat -> float) :
  0 <= N <= Int.max_int ->
  Zsum (N_broken (apply_predamage N particles delta2 d_phi rng (predamage_init N)))
  = 2 * Z.of_nat (length (broken_bonds rng d_phi 0 (bonds N particles delta2))).
Proof.
  intros HN. rewrite apply_predamage_spec. cbn [N_broken].
  rewrite <- (Zsum_degree N) by apply in_range_broken, in_range_bonds.
  apply Zsum_fmap_ext. intros k Hk%elem_of_seqZ.
  apply (wrap_degree N k); [lia|].
  eapply Nat.le_lt_trans; [apply degree_broken_le|]. apply degree_bonds_lt. lia.
Qed.

(** The single row of 65537 particles built for [Lx = 65536], [Ly = 0.5],
    [dx = 1]. *)
Lemma wide_row_lattice :
  exists lat,
    build_lattice 65536 0.5 1 = Ok lat
    /\ lat_N lat = 65537
    /\ forall i, 0 <= i < 65537 ->
         lat_particles lat !! Z.to_nat i
         = Some (mkParticle (double_of_int i * 1) (double_of_int 0 * 1)).
Proof.
  destruct (build_lattice_spec 65536 0.5 1 65536 0)
    as (_ & _ & ps & Hb & _ & Hps); try reflexivity.
  { vm_compute. discriminate. }
  eexists. split; [exact Hb|]. split; [reflexivity|].
  intros i Hi. cbn [lat_particles]. rewrite Hps by (change ((65536 + 1) * (0 + 1)) with 65537; lia).
  unfold grid_point. change (65536 + 1) with 65537.
  now rewrite Z.mod_small, Z.div_small by lia.
Qed.

(** With a horizon factor of 2^600 the squared horizon is [+infinity] and
    every pair of the row is a bond. *)
Lemma wide_row_bonds (lat : lattice) :
  lat_N lat = 65537 ->
  (forall i, 0 <= i < 65537 ->
     lat_particles lat !! Z.to_nat i
     = Some (mkParticle (double_of_int i * 1) (double_of_int 0 * 1))) ->
  bonds (lat_N lat) (lat_particles lat) ((0x1p+600 * 1) * (0x1p+600 * 1))%float
  = all_pairs 65537.
Proof.
  intros HN Hps. rewrite HN. unfold bonds. apply filter_all, Forall_forall.
  intros [i j] Hin%elem_of_all_pairs. cbn [fst snd]. unfold is_bond.
  rewrite (list_lookup_total_correct _ _ _ (Hps i ltac:(lia))).
  rewrite (list_lookup_total_correct _ _ _ (Hps j ltac:(lia))).
  change ((0x1p+600 * 1) * (0x1p+600 * 1))%float with infinity.
  assert (Hfin : finite_coords 1 (Z.to_nat 65537) 0 = true) by (vm_compute; reflexivity).
  apply dist2_le_infinity; cbn [x y];
    try reflexivity; apply (finite_coords_spec 1 (Z.to_nat 65537) 0); (exact Hfin || lia).
Qed.

Lemma length_wide_row_pairs : Z.of_nat (length (all_pairs 65537)) = 2147516416.
Proof. pose proof (length_all_pairs 65537 ltac:(lia)). lia. Qed.

(** C5 fails as stated: for [Lx = 65536], [Ly = 0.5], [dx = 1] and
    [m = 2^600] the lattice is a row of 65537 particles, all of whose
    2147516416 pairs are bonds; the [int] counter [totalBonds] has wrapped
    around to -2147450880, while the [N_total[i]] add up to 4295032832. *)
Lemma total_bonds_overflow :
  exists lat,
    build_lattice 65536 0.5 1 = Ok lat
    /\ let N := lat_N lat in
       let particles := lat_particles lat in
       let delta2 := ((0x1p+600 * 1) * (0x1p+600 * 1))%float in
       let st := apply_predamage N particles delta2 0.5 (fun _ => 0.75%float)
                   (predamage_init N) in
       totalBonds st = -2147450880
       /\ Zsum (count_bonds N particles delta2 (replicate (Z.to_nat N) 0))
          = 4295032832
       /\ 2 * totalBonds st
          <> Zsum (count_bonds N particles delta2 (replicate (Z.to_nat N) 0)).
Proof.
  destruct wide_row_lattice as (lat & Hb & HN & Hps).
  exists lat. split; [exact Hb|]. cbv zeta.
  assert (Ht : totalBonds
                 (apply_predamage (lat_N lat) (lat_particles lat)
                    ((0x1p+600 * 1) * (0x1p+600 * 1))%float 0.5
                    (fun _ => 0.75%float) (predamage_init (lat_N lat)))
               = -2147450880).
  { rewrite apply_predamage_spec. cbn [totalBonds].
    rewrite (wide_row_bonds lat HN Hps), length_wide_row_pairs. reflexivity. }
  assert (Hs : Zsum (count_bonds (lat_N lat) (lat_particles lat)
                       ((0x1p+600 * 1) * (0x1p+600 * 1))%float
                       (replicate (Z.to_nat (lat_N lat)) 0))
               = 4295032832).
  { rewrite Zsum_count_bonds by (rewrite HN; unfold Int.max_int; lia).
    rewrite (wide_row_bonds lat HN Hps), length_wide_row_pairs. reflexivity. }
  rewrite Ht, Hs. repeat split; lia.
Qed.

(** C10 fails as stated: on the same lattice with [phi = 1] and every draw
    equal to 0.5 all 2147516416 bonds are broken; [brokenBonds] has wrapped
    around to -2147450880, while the [N_broken[i]] add up to 4295032832. *)
Lemma broken_bonds_overflow :
  exists lat,
    build_lattice 65536 0.5 1 = Ok lat
    /\ let N := lat_N lat in
       let particles := lat_particles lat in
       let delta2 := ((0x1p+600 * 1) * (0x1p+600 * 1))%float in
       let st := apply_predamage N particles delta2 1 (fun _ => 0.5%float)
                   (predamage_init N) in
       brokenBonds st = -2147450880
       /\ Zsum (N_broken st) = 4295032832
       /\ 2 * brokenBonds st <> Zsum (N_broken st).
Proof.
  destruct wide_row_lattice as (lat & Hb & HN & Hps).
  exists lat. split; [exact Hb|]. cbv zeta.
  assert (Hall : broken_bonds (fun _ => 0.5%float) 1 0
                   (bonds (lat_N lat) (lat_particles lat)
                      ((0x1p+600 * 1) * (0x1p+600 * 1))%float)
                 = all_pairs 65537).
  { rewrite broken_bonds_all by reflexivity. exact (wide_row_bonds lat HN Hps). }
  assert (Ht : brokenBonds
                 (apply_predamage (lat_N lat) (lat_particles lat)
                    ((0x1p+600 * 1) * (0x1p+600 * 1))%float 1
                    (fun _ => 0.5%float) (predamage_init (lat_N lat)))
               = -2147450880).
  { rewrite apply_predamage_spec. cbn [brokenBonds].
    rewrite Hall, length_wide_row_pairs. reflexivity. }
  assert (Hs : Zsum (N_broken
                       (apply_predamage (lat_N lat) (lat_particles lat)
                          ((0x1p+600 * 1) * (0x1p+600 * 1))%float 1
                          (fun _ => 0.5%float) (predamage_init (lat_N lat))))
               = 4295032832).
  { rewrite Zsum_N_broken by (rewrite HN; unfold Int.max_int; lia).
    rewrite Hall, length_wide_row_pairs. reflexivity. }
  rewrite Ht, Hs. repeat split; lia.
Qed.

(** ** Parameter validation *)

(** C4: the run ends with [InvalidParameter] exactly when one of
    [Lx <= 0], [Ly <= 0], [dx <= 0], [phi < 0], [phi > 1], [m <= 0] holds,
    alone or together with others; this outcome carries neither a lattice
    nor a file, and it is reached without evaluating anything of the
    simulation (in particular whatever the lattice builder would do on
    these parameters); otherwise the run goes on to the simulation, with
    the parameters as given. *)
Theorem invalid_parameter_iff (Lx Ly dx phi m : float) (rng : nat -> float)
    (can_open : string -> bool) :
  (runSimulation Lx Ly dx phi m rng can_open = InvalidParameter
   <-> ((Lx <=? 0)%float = true \/ (Ly <=? 0)%float = true
        \/ (dx <=? 0)%float = true \/ (phi <? 0)%float = true
        \/ (1 <? phi)%float = true \/ (m <=? 0)%float = true))
  /\ (runSimulation Lx Ly dx phi m rng can_open <> InvalidParameter ->
      runSimulation Lx Ly dx phi m rng can_open
      = match simulate Lx Ly dx phi m rng with
        | Fault f => Aborted f
        | Ok sim =>
            match output_filename Lx phi with
            | Fault f => Aborted f
            | Ok filename =>
                if can_open filename
                then Written filename
                       (write_vtk (lat_N (sim_lattice sim))
                          (lat_particles (sim_lattice sim)) (sim_damage sim)) sim
                else IOFailure filename
            end
        end).
Proof.
  unfold runSimulation.
  destruct (invalid_parameters Lx Ly dx phi m) eqn:Hinv; unfold invalid_parameters in Hinv.
  - rewrite !orb_true_iff in Hinv. split; [split; [intros _; tauto|reflexivity]|].
    intros H. now elim H.
  - rewrite !orb_false_iff in Hinv. split; [split|reflexivity].
    + destruct (simulate Lx Ly dx phi m rng) as [sim|f]; [|discriminate].
      destruct (output_filename Lx phi) as [fn|f]; [|discriminate].
      destruct (can_open fn); discriminate.
    + intros [H|[H|[H|[H|[H|H]]]]]; rewrite H in Hinv; intuition discriminate.
Qed.

(** The rejected parameters named in the specification, one at a time and
    all together; the last run would divide by zero were it not rejected. *)
Example invalid_parameter_examples :
  forall rng can_open,
    runSimulation 1 1 0 0.5 1 rng can_open = InvalidParameter
    /\ runSimulation (-1) 1 1 0.5 1 rng can_open = InvalidParameter
    /\ runSimulation 1 1 1 1.5 1 rng can_open = InvalidParameter
    /\ runSimulation 1 1 1 0.5 0 rng can_open = InvalidParameter
    /\ runSimulation (-1) 1 0 1.5 0 rng can_open = InvalidParameter.
Proof. intros rng can_open. repeat split. Qed.

(** ** Determinism *)

Lemma broken_bonds_ext (rng rng' : nat -> float) (d_phi : float) (t : nat)
    (bs : list (Z * Z)) :
  (forall k, (t <= k < t + length bs)%nat -> rng k = rng' k) ->
  broken_bonds rng d_phi t bs = broken_bonds rng' d_phi t bs.
Proof.
  revert t. induction bs as [|b bs IH]; intros t H; [reflexivity|].
  cbn [broken_bonds]. rewrite <- (H t) by (cbn [length]; lia).
  rewrite IH; [reflexivity|]. intros k Hk. apply H. cbn [length]. lia.
Qed.

Lemma apply_predamage_ext (N : Z) (particles : list Particle) (delta2 d_phi : float)
    (rng rng' : nat -> float) :
  (forall k, (k < length (bonds N particles delta2))%nat -> rng k = rng' k) ->
  apply_predamage N particles delta2 d_phi rng (predamage_init N)
  = apply_predamage N particles delta2 d_phi rng' (predamage_init N).
Proof.
  intros H. rewrite !apply_predamage_spec. cbv zeta.
  rewrite (broken_bonds_ext rng rng'); [reflexivity|].
  intros k Hk. apply H. lia.
Qed.

(** C9: two runs on the same five parameters, with random sources that
    deliver the same draws (and the same file system), compute the same
    lattice, the same bonds, the same counters and damage field, and end
    with the same outcome. *)
Theorem two_run_determinism (Lx Ly dx phi m : float) (rng rng' : nat -> float)
    (can_open : string -> bool) :
  (forall k, rng k = rng' k) ->
  simulate Lx Ly dx phi m rng = simulate Lx Ly dx phi m rng'
  /\ runSimulation Lx Ly dx phi m rng can_open
     = runSimulation Lx Ly dx phi m rng' can_open
  /\ (forall lat, build_lattice Lx Ly dx = Ok lat ->
        broken_bonds rng phi 0
          (bonds (lat_N lat) (lat_particles lat) ((m * dx) * (m * dx))%float)
        = broken_bonds rng' phi 0
            (bonds (lat_N lat) (lat_particles lat) ((m * dx) * (m * dx))%float)).
Proof.
  intros Hrng.
  assert (Hsim : simulate Lx Ly dx phi m rng = simulate Lx Ly dx phi m rng').
  { unfold simulate. destruct (build_lattice Lx Ly dx) as [lat|f]; [|reflexivity].
    cbn [bind]. cbv zeta.
    rewrite (apply_predamage_ext _ _ _ _ rng rng') by (intros; apply Hrng).
    reflexivity. }
  split; [exact Hsim|]. split.
  - unfold runSimulation. now rewrite Hsim.
  - intros lat _. apply broken_bonds_ext. intros k _. apply Hrng.
Qed.

Lemma two_run_determinism_witness :
  let rng := fun k : nat => if Nat.even k then 0.25%float else 0.75%float in
  let rng' := fun k : nat => if Nat.odd k then 0.75%float else 0.25%float in
  simulate 1 1 1 0.5 1.5 rng = simulate 1 1 1 0.5 1.5 rng'.
Proof.
  intros rng rng'.
  apply (two_run_determinism 1 1 1 0.5 1.5 rng rng' (fun _ => true)).
  intros k. unfold rng, rng'. rewrite <- Nat.negb_even.
  destruct (Nat.even k); reflexivity.
Defined.

(** ** Sizes of the vectors of a run *)

(** Writing [f i] at every index of a list, in any order. *)
Lemma lookup_fold_insert {A : Type} (f : Z -> A) (l : list Z) (d : list A) (k : Z) :
  Forall (fun i => 0 <= i < Z.of_nat (length d)) l -> 0 <= k ->
  fold_left (fun d i => <[Z.to_nat i := f i]> d) l d !! Z.to_nat k
  = if decide (k ∈ l) then Some (f k) else d !! Z.to_nat k.
Proof.
  intros Hl Hk. revert d Hl. induction l as [|i l IH]; intros d Hl.
  - cbn [fold_left]. destruct (decide (k ∈ [])) as [H|_]; [|reflexivity].
    now apply elem_of_nil in H.
  - apply Forall_cons in Hl as [Hi Hl]. cbn [fold_left].
    rewrite IH by (rewrite length_insert; exact Hl).
    destruct (decide (k ∈ l)) as [Hin|Hnin].
    + rewrite decide_True by (now right). reflexivity.
    + destruct (Z.eq_dec i k) as [->|Hne].
      * rewrite decide_True by left. apply list_lookup_insert_eq. lia.
      * rewrite decide_False by (rewrite elem_of_cons; intuition congruence).
        apply list_lookup_insert_ne. lia.
Qed.

Lemma length_fold_insert {A : Type} (f : Z -> A) (l : list Z) (d : list A) :
  length (fold_left (fun d i => <[Z.to_nat i := f i]> d) l d) = length d.
Proof.
  revert d. induction l as [|i l IH]; intros d; [reflexivity|].
  cbn [fold_left]. now rewrite IH, length_insert.
Qed.

Lemma compute_damage_length (N : Z) (N_total N_broken : list Z) (d : list float) :
  length (compute_damage N N_total N_broken d) = length d.
Proof. unfold compute_damage. rewrite for_int_fold. apply length_fold_insert. Qed.

Lemma compute_damage_lookup (N : Z) (N_total N_broken : list Z) (d : list float)
    (i : Z) :
  Z.of_nat (length d) = N -> 0 <= i < N ->
  compute_damage N N_total N_broken d !! Z.to_nat i
  = Some (damage_at N_total N_broken i).
Proof.
  intros Hd Hi. unfold compute_damage. rewrite for_int_fold, Z.sub_0_r.
  rewrite (lookup_fold_insert (damage_at N_total N_broken)) by
    (try lia; apply Forall_forall; intros j Hj%elem_of_seqZ; lia).
  rewrite decide_True by (apply elem_of_seqZ; lia). reflexivity.
Qed.

Lemma simulate_sizes (Lx Ly dx phi m : float) (rng : nat -> float) (sim : simulation) :
  simulate Lx Ly dx phi m rng = Ok sim ->
  0 <= lat_N (sim_lattice sim) <= Int.max_int
  /\ length (lat_particles (sim_lattice sim)) = Z.to_nat (lat_N (sim_lattice sim))
  /\ length (sim_damage sim) = Z.to_nat (lat_N (sim_lattice sim)).
Proof.
  unfold simulate. destruct (build_lattice Lx Ly dx) as [lat|f] eqn:Hb; [|discriminate].
  cbn [bind]. intros [= <-]. cbn [sim_lattice sim_damage].
  destruct (build_lattice_length _ _ _ _ Hb) as [HN Hlen].
  rewrite compute_damage_length, length_replicate. auto.
Qed.

(** ** The damage field *)

(** The damage of one particle, from its two counters. *)
Lemma damage_at_spec (N_total N_broken : list Z) (i b t : Z) :
  N_broken !! Z.to_nat i = Some b -> N_total !! Z.to_nat i = Some t ->
  0 <= b <= t -> t <= Int.max_int ->
  let d := damage_at N_total N_broken i in
  d = (if 0 <? t then (double_of_int b / double_of_int t)%float else 0%float)
  /\ (t = 0 -> d = 0%float)
  /\ (0 <=? d)%float = true /\ (d <=? 1)%float = true.
Proof.
  intros Hb Ht Hbt Hmax d. subst d. unfold damage_at.
  rewrite (list_lookup_total_correct _ _ _ Hb), (list_lookup_total_correct _ _ _ Ht).
  split; [reflexivity|]. split; [now intros ->|].
  destruct (Z.ltb_spec 0 t); [|split; reflexivity].
  apply div_int_unit_interval; [lia|].
  split; [lia|]. apply Z.le_lt_trans with Int.max_int; [lia|reflexivity].
Qed.

(** C3: in every run that completes the simulation, for every particle
    [i] the damage is [N_broken[i] / N_total[i]] (division of doubles) when
    [N_total[i] > 0] and [0] when [N_total[i] = 0]; it lies in [[0, 1]];
    and the whole field is [compute_damage] applied to the two count
    vectors, a total function of them. *)
Theorem damage_field_spec (Lx Ly dx phi m : float) (rng : nat -> float)
    (sim : simulation) :
  simulate Lx Ly dx phi m rng = Ok sim ->
  let N := lat_N (sim_lattice sim) in
  let T := sim_N_total sim in
  let B := N_broken (sim_predamage sim) in
  sim_damage sim = compute_damage N T B (replicate (Z.to_nat N) 0%float)
  /\ length (sim_damage sim) = Z.to_nat N
  /\ forall i, 0 <= i < N ->
       exists b t d,
         B !! Z.to_nat i = Some b /\ T !! Z.to_nat i = Some t
         /\ sim_damage sim !! Z.to_nat i = Some d
         /\ d = (if 0 <? t then (double_of_int b / double_of_int t)%float
                 else 0%float)
         /\ (t = 0 -> d = 0%float)
         /\ (0 <=? d)%float = true /\ (d <=? 1)%float = true.
Proof.
  intros Hsim. destruct (simulate_sizes _ _ _ _ _ _ _ Hsim) as (HN & Hp & Hd).
  revert Hsim HN Hp Hd. unfold simulate.
  destruct (build_lattice Lx Ly dx) as [lat|f]; [|discriminate].
  cbn [bind]. intros [= <-]. cbn [sim_lattice sim_N_total sim_predamage sim_damage].
  intros HN Hp Hd. split; [reflexivity|]. split; [exact Hd|].
  intros i Hi.
  destruct (counters_at (lat_N lat) (lat_particles lat) (m * dx * (m * dx)) phi rng i
              HN Hi) as (Hb & Ht & Hle).
  eexists _, _, _. split; [exact Hb|]. split; [exact Ht|].
  split; [apply compute_damage_lookup; [rewrite length_replicate|]; lia|].
  apply (damage_at_spec _ _ i _ _ Hb Ht); lia.
Qed.

Lemma damage_field_spec_witness :
  let rng := fun k : nat => if Nat.even k then 0.25%float else 0.75%float in
  exists sim,
    simulate 1 1 1 0.5 1.5 rng = Ok sim
    /\ length (sim_damage sim) = Z.to_nat (lat_N (sim_lattice sim))
    /\ sim_damage sim !! 2%nat = Some 0%float.
Proof.
  intros rng.
  destruct (simulate 1 1 1 0.5 1.5 rng) as [sim|f] eqn:E;
    [|vm_compute in E; discriminate].
  exists sim. split; [reflexivity|].
  split; [apply (damage_field_spec 1 1 1 0.5 1.5 rng sim E)|].
  vm_compute in E. now injection E as <-.
Defined.

(** ** Serialization *)

Lemma append_assoc (a b c : string) : (a +:+ b) +:+ c = a +:+ (b +:+ c).
Proof.
  induction a as [|ch a IH]; [reflexivity|].
  change (String ch ((a +:+ b) +:+ c) = String ch (a +:+ (b +:+ c))).
  now rewrite IH.
Qed.

Lemma append_nil_r (a : string) : a +:+ "" = a.
Proof.
  induction a as [|ch a IH]; [reflexivity|].
  change (String ch (a +:+ "") = String ch a). now rewrite IH.
Qed.

Lemma unlines_app (l1 l2 : list string) :
  unlines (l1 ++ l2) = unlines l1 +:+ unlines l2.
Proof.
  induction l1 as [|l l1 IH]; [reflexivity|].
  change (l +:+ nl +:+ unlines (l1 ++ l2) = (l +:+ nl +:+ unlines l1) +:+ unlines l2).
  now rewrite IH, !append_assoc.
Qed.

Lemma unlines_cons (l : string) (ls : list string) :
  unlines (l :: ls) = l +:+ nl +:+ unlines ls.
Proof. reflexivity. Qed.

(** A loop that appends one line per index writes the lines in index order. *)
Lemma for_int_append (f : Z -> string) (N : Z) (s : string) :
  for_int 0 N (fun i vtk => vtk +:+ f i +:+ nl) s = s +:+ unlines (f <$> seqZ 0 N).
Proof.
  rewrite for_int_fold, Z.sub_0_r. generalize (seqZ 0 N). intros l. revert s.
  induction l as [|i l IH]; intros s; [now rewrite append_nil_r|].
  cbn [fold_left]. rewrite IH, fmap_cons, unlines_cons, !append_assoc. reflexivity.
Qed.

(** Reading a vector at the indices [0 .. N-1] visits its elements in order. *)
Lemma fmap_lookup_total_seqZ {A B : Type} `{!Inhabited A} (f : A -> B) (l : list A) :
  (fun i => f (l !!! Z.to_nat i)) <$> seqZ 0 (Z.of_nat (length l)) = f <$> l.
Proof.
  apply list_eq. intros i. rewrite !list_lookup_fmap.
  destruct (Nat.lt_ge_cases i (length l)) as [Hi|Hi].
  - rewrite lookup_seqZ_lt by lia. cbn. rewrite Z.add_0_l, Nat2Z.id.
    now rewrite (list_lookup_lookup_total_lt l i Hi).
  - rewrite lookup_seqZ_ge by lia. now rewrite (lookup_ge_None_2 l i Hi).
Qed.

Lemma fixed6_zero : fixed6 0 = "0.000000".
Proof. reflexivity. Qed.

Lemma for_int_lines (g f : Z -> string) (N : Z) (s : string) :
  (forall i, g i = f i +:+ nl) ->
  for_int 0 N (fun i vtk => vtk +:+ g i) s = s +:+ unlines (f <$> seqZ 0 N).
Proof.
  intros Hg. rewrite <- for_int_append. rewrite !for_int_fold.
  apply fold_left_ext_in. intros i t _. now rewrite Hg.
Qed.

Lemma unlines_nil : unlines [] = "".
Proof. reflexivity. Qed.

Lemma write_vtk_lines (N : Z) (particles : list Particle) (damage : list float) :
  Z.of_nat (length particles) = N -> Z.of_nat (length damage) = N ->
  write_vtk N particles damage = unlines (vtk_lines N particles damage).
Proof.
  intros Hp Hd. unfold write_vtk, vtk_lines.
  rewrite (for_int_lines _ (fun i => fixed6 (damage !!! Z.to_nat i)))
    by (intros i; reflexivity).
  rewrite (for_int_lines _ (fun i => "1 " +:+ pretty i))
    by (intros i; unfold vertex_line; now rewrite !append_assoc).
  rewrite (for_int_lines _ (fun i => point_text (particles !!! Z.to_nat i)))
    by (intros i; unfold point_line, point_text;
        now rewrite fixed6_zero, !append_assoc).
  rewrite <- (fmap_lookup_total_seqZ point_text particles).
  rewrite <- (fmap_lookup_total_seqZ fixed6 damage).
  rewrite Hp, Hd.
  rewrite !unlines_app, !unlines_cons, unlines_nil, !append_assoc.
  reflexivity.
Qed.

(** ** The output file *)

(** The file name uses truncation, not rounding: [Lx = 2.9] gives 2, and
    [phi = 0.29] gives 28 because [0.29 * 100] is just below 29. *)
Example filename_truncates :
  output_filename 2.9 0.29 = Ok "porosity_Lx2_phi28.vtk".
Proof. reflexivity. Qed.

(** * Further properties of the code *)

(** ** The lattice builder returns a whole grid or nothing *)

Lemma for_loopM_partial {S : Type} (P : Z -> S -> Prop) (body : Z -> S -> result S)
    (cnt : nat) (lo : Z) (s s' : S) :
  P lo s ->
  (forall i t t', lo <= i < lo + Z.of_nat cnt -> P i t -> body i t = Ok t' ->
                  P (i + 1) t') ->
  for_loopM cnt lo body s = Ok s' -> P (lo + Z.of_nat cnt) s'.
Proof.
  revert lo s. induction cnt as [|c IH]; intros lo s Hs Hstep.
  - intros [= <-]. now replace (lo + Z.of_nat 0) with lo by lia.
  - cbn [for_loopM]. destruct (body lo s) as [t|f] eqn:Hb; [|discriminate].
    cbn [bind]. intros Hrest.
    replace (lo + Z.of_nat (Datatypes.S c)) with (lo + 1 + Z.of_nat c) by lia.
    apply (IH (lo + 1) t); [apply (Hstep lo s t); (lia || assumption)| |exact Hrest].
    intros i u u' Hi. apply Hstep. lia.
Qed.

Lemma for_intM_partial {S : Type} (P : Z -> S -> Prop) (body : Z -> S -> result S)
    (lo hi : Z) (s s' : S) :
  lo <= hi ->
  P lo s ->
  (forall i t t', lo <= i < hi -> P i t -> body i t = Ok t' -> P (i + 1) t') ->
  for_intM lo hi body s = Ok s' -> P hi s'.
Proof.
  intros Hle Hs Hstep Hrun. unfold for_intM in Hrun.
  replace hi with (lo + Z.of_nat (Z.to_nat (hi - lo))) by lia.
  apply (for_loopM_partial P body _ lo s s' Hs); [|exact Hrun].
  intros i t t' Hi. apply Hstep. lia.
Qed.

Lemma store_Ok {A : Type} (v v' : list A) (id : Z) (f : A -> A) :
  store v id f = Ok v' ->
  0 <= id < Z.of_nat (length v) /\ v' = alter f (Z.to_nat id) v.
Proof.
  unfold store.
  destruct ((0 <=? id) && (id <? Z.of_nat (length v))) eqn:E; [|discriminate].
  intros [= <-]. apply andb_true_iff in E. split; [lia|reflexivity].
Qed.

(** A grid fill that ends without fault has written [Nx * Ny] points, all
    inside the vector. *)
Lemma fill_grid_Ok (Nx Ny : Z) (dx : float) (ps ps' : list Particle) :
  0 <= Nx -> 0 <= Ny -> Z.of_nat (length ps) <= Int.max_int ->
  fill_grid Nx Ny dx ps = Ok ps' ->
  Nx * Ny <= Z.of_nat (length ps)
  /\ forall k, 0 <= k < Nx * Ny -> ps' !! Z.to_nat k = Some (grid_point Nx dx k).
Proof.
  intros HNx HNy HL Hfill. unfold fill_grid in Hfill.
  set (I := fun (n : Z) (qs : list Particle) =>
              n <= Z.of_nat (length ps) /\ length qs = length ps
              /\ forall k, 0 <= k < n -> qs !! Z.to_nat k = Some (grid_point Nx dx k)).
  assert (HI : I (Ny * Nx) ps').
  { refine (for_intM_partial (fun j => I (j * Nx)) _ 0 Ny ps ps' HNy _ _ Hfill).
    - repeat split; intros; lia.
    - intros j qs qs' Hj Hqs Hrow.
      replace ((j + 1) * Nx) with (j * Nx + Nx) by lia.
      refine (for_intM_partial (fun i => I (j * Nx + i)) _ 0 Nx qs qs' HNx _ _ Hrow);
        [now rewrite Z.add_0_r|].
      intros i rs rs' Hi (Hle & Hlen & Hrs) Hbody. cbv zeta in Hbody.
      assert (Hw : Int.add (Int.mul j Nx) i = j * Nx + i).
      { unfold Int.add, Int.mul, Int.max_int in *.
        rewrite (wrap_in_range (j * Nx)) by (unfold Int.min_int, Int.max_int; nia).
        apply wrap_in_range. unfold Int.min_int, Int.max_int. nia. }
      rewrite Hw in Hbody.
      destruct (store rs (j * Nx + i) _) as [ts|f] eqn:E1; [|discriminate].
      cbn [bind] in Hbody.
      apply store_Ok in E1 as [Hin1 ->]. apply store_Ok in Hbody as [_ ->].
      unfold I. rewrite !length_alter. repeat split; try lia.
      intros k Hk. destruct (Z.eq_dec k (j * Nx + i)) as [->|Hne].
      + rewrite !list_lookup_alter_eq.
        destruct (lookup_lt_is_Some_2 rs (Z.to_nat (j * Nx + i))) as [p Hp]; [lia|].
        rewrite Hp. cbn. unfold grid_point, set_x, set_y. cbn [x y]. do 3 f_equal.
        * rewrite Z.add_comm, Z.mod_add by lia. now rewrite Z.mod_small by lia.
        * rewrite Z.add_comm, Z.div_add by lia. now rewrite Z.div_small by lia.
      + rewrite !list_lookup_alter_ne by lia. apply Hrs. lia. }
  destruct HI as (Hle & _ & Hps). split; [lia|].
  intros k Hk. apply Hps. lia.
Qed.

(** X1: whenever the lattice builder returns a lattice with [Nx >= 1] and
    [Ny >= 1] -- whatever the three doubles it was given -- the product
    [Nx * Ny] did not wrap around, the vector holds exactly [Nx * Ny]
    particles, and every grid point [(i, j)] was written at index
    [j*Nx + i] with position [(i*dx, j*dx)]: a grid that does not fit is
    never returned truncated. *)
Theorem lattice_whole_or_nothing (Lx Ly dx : float) (lat : lattice) :
  build_lattice Lx Ly dx = Ok lat ->
  1 <= lat_Nx lat -> 1 <= lat_Ny lat ->
  lat_N lat = lat_Nx lat * lat_Ny lat
  /\ Z.of_nat (length (lat_particles lat)) = lat_Nx lat * lat_Ny lat
  /\ forall i j, 0 <= i < lat_Nx lat -> 0 <= j < lat_Ny lat ->
       lat_particles lat !! Z.to_nat (j * lat_Nx lat + i)
       = Some (mkParticle (double_of_int i * dx) (double_of_int j * dx)).
Proof.
  unfold build_lattice.
  destruct (static_cast_int (floor (Lx / dx))) as [fx|f]; [|discriminate].
  destruct (static_cast_int (floor (Ly / dx))) as [fy|f]; [|discriminate].
  cbn [bind]. unfold vector_new.
  set (Nx := Int.add fx 1). set (Ny := Int.add fy 1).
  destruct (Z.ltb_spec (Int.mul Nx Ny) 0) as [|HN0]; [discriminate|]. cbn [bind].
  destruct (fill_grid Nx Ny dx _) as [ps|f] eqn:Hfill; [|discriminate].
  cbn [bind]. intros [= <-]. cbn [lat_Nx lat_Ny lat_N lat_particles].
  intros HNx HNy.
  pose proof (wrap_range (Nx * Ny)) as Hr. fold (Int.mul Nx Ny) in Hr.
  pose proof (fill_grid_length _ _ _ _ _ Hfill) as Hlen.
  rewrite length_replicate in Hlen.
  apply fill_grid_Ok in Hfill as [Hle Hps];
    [|lia|lia|rewrite length_replicate; lia].
  rewrite length_replicate in Hle.
  assert (HN : Int.mul Nx Ny = Nx * Ny).
  { apply wrap_in_range. unfold Int.min_int. nia. }
  rewrite Hlen, HN. split; [reflexivity|]. split; [lia|].
  intros i j Hi Hj. rewrite Hps by nia. unfold grid_point. do 3 f_equal.
  - rewrite Z.add_comm, Z.mod_add by lia. now rewrite Z.mod_small by lia.
  - rewrite Z.add_comm, Z.div_add by lia. now rewrite Z.div_small by lia.
Qed.

Lemma lattice_whole_or_nothing_witness :
  exists lat,
    build_lattice 2.5 1 0.5 = Ok lat
    /\ lat_N lat = lat_Nx lat * lat_Ny lat
    /\ lat_Nx lat = 6 /\ lat_Ny lat = 3.
Proof.
  destruct (build_lattice 2.5 1 0.5) as [lat|f] eqn:E;
    [|vm_compute in E; discriminate].
  exists lat. split; [reflexivity|].
  assert (H : lat_Nx lat = 6 /\ lat_Ny lat = 3)
    by (vm_compute in E; injection E as <-; split; reflexivity).
  split; [|exact H].
  apply (lattice_whole_or_nothing 2.5 1 0.5 lat E); lia.
Defined.

(** ** The squared distance *)

Lemma binary_round_aux_negb (s : bool) (m e : Z) (l : location) :
  binary_round_aux prec emax (negb s) m e l
  = SFopp (binary_round_aux prec emax s m e l).
Proof.
  unfold binary_round_aux.
  destruct (shr_fexp prec emax m e l) as [mrs' e'].
  destruct (shr_fexp prec emax _ e' loc_Exact) as [mrs'' e''].
  destruct (shr_m mrs''); [reflexivity| |reflexivity].
  destruct (e'' <=? emax - prec); reflexivity.
Qed.

Lemma SFopp_involutive (v : spec_float) : SFopp (SFopp v) = v.
Proof. destruct v as [s|s| |s m e]; cbn; now rewrite ?negb_involutive. Qed.

Lemma binary_round_true (m : positive) (e : Z) :
  binary_round prec emax true m e = SFopp (binary_round prec emax false m e).
Proof.
  unfold binary_round. destruct (shl_align _ _ _) as [mz ez].
  apply (binary_round_aux_negb false).
Qed.

Lemma binary_normalize_opp (z e : Z) :
  z <> 0 ->
  binary_normalize prec emax (- z) e false
  = SFopp (binary_normalize prec emax z e false).
Proof.
  intros Hz. destruct z as [|p|p]; [congruence| |].
  - change (- Z.pos p) with (Z.neg p). cbn [binary_normalize].
    apply binary_round_true.
  - change (- Z.neg p) with (Z.pos p). cbn [binary_normalize].
    now rewrite binary_round_true, SFopp_involutive.
Qed.

(** Swapping the operands of a subtraction negates the result, or leaves
    a zero. *)
Lemma SFsub_swap (a b : spec_float) :
  SF64sub b a = SFopp (SF64sub a b)
  \/ (exists s s', SF64sub a b = S754_zero s /\ SF64sub b a = S754_zero s').
Proof.
  unfold SF64sub.
  destruct a as [sa|sa| |sa ma ea]; destruct b as [sb|sb| |sb mb eb];
    cbn [SFsub SFopp];
    try (left; reflexivity);
    try solve [destruct sa, sb; cbn;
               ((left; reflexivity) || (right; eexists _, _; split; reflexivity))].
  rewrite (Z.min_comm eb ea).
  set (ca := cond_Zopp sa (Z.pos (fst (shl_align ma ea (Z.min ea eb))))).
  set (cb := cond_Zopp sb (Z.pos (fst (shl_align mb eb (Z.min ea eb))))).
  destruct (Z.eq_dec (ca - cb) 0) as [H0|Hn0].
  - right. exists false, false.
    rewrite H0. replace (cb - ca) with 0 by lia. split; reflexivity.
  - left. replace (cb - ca) with (- (ca - cb)) by lia.
    now apply binary_normalize_opp.
Qed.

(** A number and its opposite have the same square. *)
Lemma SFmul_square_swap (u v : spec_float) :
  v = SFopp u \/ (exists s s', u = S754_zero s /\ v = S754_zero s') ->
  SF64mul v v = SF64mul u u.
Proof.
  intros [->|(s & s' & -> & ->)].
  - unfold SF64mul. destruct u as [[|]|[|]| |[|] m e]; reflexivity.
  - unfold SF64mul. destruct s, s'; reflexivity.
Qed.

(** Swapping the arguments gives the same double (when the result is a
    NaN the equation only says that both results are NaN). *)
Lemma dist2_sym (a b : Particle) : dist2 a b = dist2 b a.
Proof.
  apply Prim2SF_inj. unfold dist2.
  rewrite !add_spec, !mul_spec, !sub_spec.
  rewrite (SFmul_square_swap _ _ (SFsub_swap (Prim2SF (x a)) (Prim2SF (x b)))).
  rewrite (SFmul_square_swap _ _ (SFsub_swap (Prim2SF (y a)) (Prim2SF (y b)))).
  reflexivity.
Qed.

(** X2: the distance test does not depend on the order of the two
    particles: [dist2 a b <= delta2] and [dist2 b a <= delta2] have the
    same truth value, whatever the coordinates (when one squared distance
    is a NaN so is the other, and both tests fail), so the test gives the
    same answer for [(i, j)] and for [(j, i)] and visiting only the pairs
    with [i < j] loses no bond. When the squared distance is a number, the
    two calls return the same double. *)
Theorem bond_test_symmetric (particles : list Particle) (delta2 : float) (a b : Particle)
    (i j : Z) :
  (dist2 a b <=? delta2)%float = (dist2 b a <=? delta2)%float
  /\ is_bond particles delta2 i j = is_bond particles delta2 j i
  /\ (Prim2SF (dist2 a b) = S754_nan <-> Prim2SF (dist2 b a) = S754_nan)
  /\ (Prim2SF (dist2 a b) <> S754_nan -> dist2 a b = dist2 b a).
Proof.
  split; [now rewrite dist2_sym|].
  split; [unfold is_bond; now rewrite dist2_sym|].
  split; [now rewrite dist2_sym|].
  intros _. apply dist2_sym.
Qed.

Lemma bond_test_symmetric_witness :
  let a := mkParticle 0.5 1 in
  let b := mkParticle 2 0.25 in
  Prim2SF (dist2 a b) <> S754_nan /\ dist2 a b = dist2 b a
  /\ dist2 a b = 2.8125%float.
Proof.
  intros a b.
  assert (Hn : Prim2SF (dist2 a b) <> S754_nan) by (vm_compute; discriminate).
  split; [exact Hn|]. split; [|reflexivity].
  apply (bond_test_symmetric [] 0 a b 0 0). exact Hn.
Defined.

(** ** Bond counts as numbers of neighbours *)

Lemma is_bond_sym (particles : list Particle) (delta2 : float) (i j : Z) :
  is_bond particles delta2 i j = is_bond particles delta2 j i.
Proof. unfold is_bond. now rewrite dist2_sym. Qed.

Lemma elem_of_filter_bool {A : Type} (f : A -> bool) (l : list A) (a : A) :
  a ∈ List.filter f l <-> a ∈ l /\ f a = true.
Proof. now rewrite !list_elem_of_In, filter_In. Qed.

Lemma NoDup_filter_bool {A : Type} (f : A -> bool) (l : list A) :
  NoDup l -> NoDup (List.filter f l).
Proof. intros H. now apply NoDup_ListNoDup, List.NoDup_filter, NoDup_ListNoDup. Qed.

(** The bonds at [k], mapped to their other endpoint, are the neighbours
    of [k], each once. *)
Lemma degree_neighbours (N : Z) (particles : list Particle) (delta2 : float) (k : Z) :
  0 <= k < N ->
  degree k (bonds N particles delta2) = length (neighbours N particles delta2 k).
Proof.
  intros Hk. unfold degree.
  set (T := List.filter (touches k) (bonds N particles delta2)).
  assert (HT : forall p, p ∈ T ->
            (0 <= p.1 /\ p.1 < p.2 /\ p.2 < N) /\ is_bond particles delta2 p.1 p.2 = true
            /\ touches k p = true).
  { intros [i j] Hp. unfold T in Hp.
    apply elem_of_filter_bool in Hp as [Hp Ht]. apply elem_of_bonds in Hp.
    cbn [fst snd]. tauto. }
  rewrite <- (length_fmap (other_end k) T).
  apply Permutation_length, NoDup_Permutation.
  - apply NoDup_fmap_2_strong.
    + intros [i1 j1] [i2 j2] H1 H2.
      destruct (HT _ H1) as (Hr1 & _ & Ht1), (HT _ H2) as (Hr2 & _ & Ht2).
      unfold other_end, touches in *. cbn [fst snd] in *.
      destruct (Z.eqb_spec i1 k); destruct (Z.eqb_spec j1 k);
        destruct (Z.eqb_spec i2 k); destruct (Z.eqb_spec j2 k);
        cbn in Ht1, Ht2; try discriminate; intros ?; f_equal; lia.
    + apply NoDup_filter_bool, NoDup_filter_bool, NoDup_all_pairs.
  - apply NoDup_filter_bool, NoDup_seqZ.
  - intros z. unfold neighbours.
    rewrite list_elem_of_fmap, elem_of_filter_bool, elem_of_seqZ, andb_true_iff,
      negb_true_iff, Z.eqb_neq.
    split.
    + intros ([i j] & -> & Hin). destruct (HT _ Hin) as (Hr & Hb & Ht).
      unfold other_end, touches in *. cbn [fst snd] in *.
      destruct (Z.eqb_spec i k) as [->|Hik].
      * repeat split; try lia. exact Hb.
      * destruct (Z.eqb_spec j k) as [->|Hjk]; [|discriminate].
        repeat split; try lia. now rewrite is_bond_sym.
    + intros (Hz & Hzk & Hb).
      destruct (Z_lt_le_dec k z) as [Hlt|Hge].
      * exists (k, z). unfold other_end. cbn [fst snd]. rewrite Z.eqb_refl.
        split; [reflexivity|]. unfold T.
        apply elem_of_filter_bool. split.
        -- apply elem_of_bonds. split; [lia|exact Hb].
        -- unfold touches. cbn [fst]. now rewrite Z.eqb_refl.
      * exists (z, k). unfold other_end. cbn [fst snd].
        destruct (Z.eqb_spec z k) as [|_]; [lia|].
        split; [reflexivity|]. unfold T.
        apply elem_of_filter_bool. split.
        -- apply elem_of_bonds. split; [lia|]. now rewrite is_bond_sym.
        -- unfold touches. cbn [fst snd]. rewrite Z.eqb_refl. apply orb_true_r.
Qed.

(** X3: when the enumeration scan ends, [N_total[k]] is the number of
    particles [j <> k], before or after [k] in the vector, whose squared
    distance to [k] is at most [delta2]; it is at most [N - 1], and the
    vector has [N] entries. *)
Theorem total_is_neighbour_count (N : Z) (particles : list Particle) (delta2 : float) :
  0 <= N <= Int.max_int ->
  let N_total := count_bonds N particles delta2 (replicate (Z.to_nat N) 0) in
  length N_total = Z.to_nat N
  /\ forall k, 0 <= k < N ->
       N_total !! Z.to_nat k
       = Some (Z.of_nat (length (neighbours N particles delta2 k)))
       /\ Z.of_nat (length (neighbours N particles delta2 k)) <= N - 1.
Proof.
  intros HN N_total. subst N_total. rewrite count_bonds_spec. split.
  - now rewrite length_fmap, length_seqZ.
  - intros k Hk. pose proof (degree_bonds_lt N particles delta2 k Hk) as Hlt.
    rewrite list_lookup_fmap, lookup_seqZ_lt by lia.
    cbn [fmap option_fmap option_map]. rewrite Z.add_0_l, Z2Nat.id by lia.
    rewrite (wrap_degree N k) by lia.
    rewrite (degree_neighbours N particles delta2 k Hk) in *. split; [reflexivity|lia].
Qed.

Lemma total_is_neighbour_count_witness :
  let particles := [mkParticle 0 0; mkParticle 1 0; mkParticle 2 0; mkParticle 0 1;
                    mkParticle 1 1; mkParticle 2 1] in
  count_bonds 6 particles 1 (replicate (Z.to_nat 6) 0) !! Z.to_nat 1
  = Some (Z.of_nat (length (neighbours 6 particles 1 1)))
  /\ neighbours 6 particles 1 1 = [0; 2; 4].
Proof.
  intros particles. split; [|reflexivity].
  apply (total_is_neighbour_count 6 particles 1); unfold Int.max_int; lia.
Defined.

(** ** Growing the horizon, growing the porosity *)

Lemma compare_cont_spec (p q : positive) :
  CompareSpec (p = q) (p < q)%positive (q < p)%positive (Pos.compare_cont Eq p q).
Proof. apply Pos.compare_spec. Qed.

Ltac order_cases :=
  repeat match goal with
  | |- context [?a ?= ?b] => destruct (Z.compare_spec a b)
  | |- context [Pos.compare_cont Eq ?a ?b] => destruct (compare_cont_spec a b)
  | H : context [?a ?= ?b] |- _ => destruct (Z.compare_spec a b)
  | H : context [Pos.compare_cont Eq ?a ?b] |- _ => destruct (compare_cont_spec a b)
  end; cbn in *; try discriminate; try reflexivity; try lia.

Lemma SFleb_trans (a b c : spec_float) :
  SFleb a b = true -> SFleb b c = true -> SFleb a c = true.
Proof.
  unfold SFleb, SFcompare.
  destruct a as [sa|sa| |sa ma ea]; destruct b as [sb|sb| |sb mb eb];
    destruct c as [sc|sc| |sc mc ec];
    try discriminate; try reflexivity;
    try (destruct sa); try (destruct sb); try (destruct sc);
    try discriminate; try reflexivity; intros H1 H2; order_cases.
Qed.

Lemma SFltb_leb_trans (a b c : spec_float) :
  SFltb a b = true -> SFleb b c = true -> SFltb a c = true.
Proof.
  unfold SFltb, SFleb, SFcompare.
  destruct a as [sa|sa| |sa ma ea]; destruct b as [sb|sb| |sb mb eb];
    destruct c as [sc|sc| |sc mc ec];
    try discriminate; try reflexivity;
    try (destruct sa); try (destruct sb); try (destruct sc);
    try discriminate; try reflexivity; intros H1 H2; order_cases.
Qed.

Lemma leb_trans (a b c : float) :
  (a <=? b)%float = true -> (b <=? c)%float = true -> (a <=? c)%float = true.
Proof. rewrite !FloatAxioms.leb_spec. apply SFleb_trans. Qed.

Lemma ltb_leb_trans (a b c : float) :
  (a <? b)%float = true -> (b <=? c)%float = true -> (a <? c)%float = true.
Proof. rewrite !FloatAxioms.ltb_spec, FloatAxioms.leb_spec. apply SFltb_leb_trans. Qed.

Lemma degree_filter_mono (k : Z) (f g : Z * Z -> bool) (l : list (Z * Z)) :
  (forall p, f p = true -> g p = true) ->
  (degree k (List.filter f l) <= degree k (List.filter g l))%nat.
Proof.
  intros Hfg. induction l as [|p l IH]; [reflexivity|].
  cbn [List.filter]. destruct (f p) eqn:Hf.
  - rewrite (Hfg p Hf), !degree_cons. destruct (touches k p); lia.
  - destruct (g p); rewrite ?degree_cons; destruct (touches k p); lia.
Qed.

Lemma degree_broken_mono (k : Z) (rng : nat -> float) (phi phi' : float) (t : nat)
    (bs : list (Z * Z)) :
  (phi <=? phi')%float = true ->
  (degree k (broken_bonds rng phi t bs) <= degree k (broken_bonds rng phi' t bs))%nat.
Proof.
  intros Hle. revert t. induction bs as [|p bs IH]; intros t; [reflexivity|].
  cbn [broken_bonds]. specialize (IH (Datatypes.S t)).
  destruct (rng t <? phi)%float eqn:Hr.
  - rewrite (ltb_leb_trans _ _ _ Hr Hle), !degree_cons. destruct (touches k p); lia.
  - destruct (rng t <? phi')%float; rewrite ?degree_cons; destruct (touches k p); lia.
Qed.

Lemma length_broken_mono (rng : nat -> float) (phi phi' : float) (t : nat)
    (bs : list (Z * Z)) :
  (phi <=? phi')%float = true ->
  (length (broken_bonds rng phi t bs) <= length (broken_bonds rng phi' t bs))%nat.
Proof.
  intros Hle. revert t. induction bs as [|p bs IH]; intros t; [reflexivity|].
  cbn [broken_bonds]. specialize (IH (Datatypes.S t)).
  destruct (rng t <? phi)%float eqn:Hr.
  - rewrite (ltb_leb_trans _ _ _ Hr Hle). cbn [length]. lia.
  - destruct (rng t <? phi')%float; cbn [length]; lia.
Qed.

(** X4: a larger squared horizon never loses a bond: if
    [delta2 <= delta2'] (as doubles), every pair that passes the distance
    test for [delta2] passes it for [delta2'], and on the same particles no
    entry of [N_total] decreases. *)
Theorem horizon_monotone (N : Z) (particles : list Particle) (delta2 delta2' : float) :
  0 <= N <= Int.max_int ->
  (delta2 <=? delta2')%float = true ->
  (forall i j, is_bond particles delta2 i j = true ->
               is_bond particles delta2' i j = true)
  /\ forall k, 0 <= k < N ->
       exists t t',
         count_bonds N particles delta2 (replicate (Z.to_nat N) 0) !! Z.to_nat k
         = Some t
         /\ count_bonds N particles delta2' (replicate (Z.to_nat N) 0) !! Z.to_nat k
            = Some t'
         /\ 0 <= t <= t'.
Proof.
  intros HN Hle.
  assert (Hb : forall i j, is_bond particles delta2 i j = true ->
                           is_bond particles delta2' i j = true).
  { intros i j H. unfold is_bond in *. exact (leb_trans _ _ _ H Hle). }
  split; [exact Hb|]. intros k Hk. rewrite !count_bonds_spec.
  rewrite !list_lookup_fmap, lookup_seqZ_lt by lia.
  cbn [fmap option_fmap option_map]. rewrite Z.add_0_l, Z2Nat.id by lia.
  rewrite !(wrap_degree N k) by (lia || now apply degree_bonds_lt).
  eexists _, _. split; [reflexivity|]. split; [reflexivity|].
  split; [lia|]. apply Nat2Z.inj_le. unfold bonds.
  apply degree_filter_mono. intros [i j]. apply Hb.
Qed.

Lemma horizon_monotone_witness :
  let particles := [mkParticle 0 0; mkParticle 1 0; mkParticle 0 1; mkParticle 1 1] in
  exists t t',
    count_bonds 4 particles 1 (replicate (Z.to_nat 4) 0) !! Z.to_nat 0 = Some t
    /\ count_bonds 4 particles 2.25 (replicate (Z.to_nat 4) 0) !! Z.to_nat 0 = Some t'
    /\ 0 <= t <= t'.
Proof.
  intros particles.
  apply (horizon_monotone 4 particles 1 2.25);
    [unfold Int.max_int; lia|reflexivity|lia].
Defined.

(** X5: with the same lattice, the same horizon and the same draws, a
    larger [phi] (as doubles, [phi <= phi']) breaks every bond that [phi]
    breaks: no entry of [N_broken] decreases, while the same number of draws
    is taken. *)
Theorem porosity_monotone (N : Z) (particles : list Particle) (delta2 phi phi' : float)
    (rng : nat -> float) :
  0 <= N <= Int.max_int ->
  (phi <=? phi')%float = true ->
  let st := apply_predamage N particles delta2 phi rng (predamage_init N) in
  let st' := apply_predamage N particles delta2 phi' rng (predamage_init N) in
  drawn st = drawn st' /\ totalBonds st = totalBonds st'
  /\ (forall t, (rng t <? phi)%float = true -> (rng t <? phi')%float = true)
  /\ forall k, 0 <= k < N ->
       exists b b', N_broken st !! Z.to_nat k = Some b
                    /\ N_broken st' !! Z.to_nat k = Some b' /\ 0 <= b <= b'.
Proof.
  intros HN Hle st st'. subst st st'. rewrite !apply_predamage_spec.
  cbn [drawn totalBonds N_broken]. split; [reflexivity|]. split; [reflexivity|].
  split; [intros t Ht; exact (ltb_leb_trans _ _ _ Ht Hle)|].
  intros k Hk. rewrite !list_lookup_fmap, lookup_seqZ_lt by lia.
  cbn [fmap option_fmap option_map]. rewrite Z.add_0_l, Z2Nat.id by lia.
  pose proof (degree_bonds_lt N particles delta2 k Hk) as Hlt.
  rewrite !(wrap_degree N k) by
    (lia || (eapply Nat.le_lt_trans; [apply degree_broken_le|exact Hlt])).
  eexists _, _. split; [reflexivity|]. split; [reflexivity|].
  split; [lia|]. apply Nat2Z.inj_le. now apply degree_broken_mono.
Qed.

Lemma porosity_monotone_witness :
  let particles := [mkParticle 0 0; mkParticle 1 0; mkParticle 0 1; mkParticle 1 1] in
  let rng := fun k : nat => if Nat.even k then 0.25%float else 0.75%float in
  exists b b',
    N_broken (apply_predamage 4 particles 2.25 0.5 rng (predamage_init 4))
      !! Z.to_nat 0 = Some b
    /\ N_broken (apply_predamage 4 particles 2.25 0.8 rng (predamage_init 4))
         !! Z.to_nat 0 = Some b'
    /\ 0 <= b <= b'.
Proof.
  intros particles rng.
  apply (porosity_monotone 4 particles 2.25 0.5 0.8 rng);
    [unfold Int.max_int; lia|reflexivity|lia].
Defined.

(** ** Exact quotients *)

Lemma div_zero_int (t : Z) :
  0 < t < 2 ^ 53 -> (double_of_int 0 / double_of_int t)%float = 0%float.
Proof.
  intros Ht. apply Prim2SF_inj. rewrite div_spec.
  destruct (Prim2SF_double_of_int_pos t Ht) as (mt & et & -> & _).
  reflexivity.
Qed.

Lemma div_self_int (t : Z) :
  0 < t < 2 ^ 53 -> (double_of_int t / double_of_int t)%float = 1%float.
Proof.
  intros Ht. apply Prim2SF_inj. rewrite div_spec.
  destruct (Prim2SF_double_of_int_pos t Ht) as (mt & et & -> & He & _ & Hd).
  now rewrite SFdiv_self.
Qed.

Lemma int_below_2_53 (t : Z) : t <= Int.max_int -> t < 2 ^ 53.
Proof. intros H. apply Z.le_lt_trans with Int.max_int; [exact H|reflexivity]. Qed.

Lemma realized_porosity_none (T : Z) :
  T <= Int.max_int -> realized_porosity T 0 = 0%float.
Proof.
  intros HT. unfold realized_porosity. destruct (Z.ltb_spec 0 T); [|reflexivity].
  apply div_zero_int. split; [lia|now apply int_below_2_53].
Qed.

Lemma realized_porosity_all (T : Z) :
  T <= Int.max_int -> realized_porosity T T = if 0 <? T then 1%float else 0%float.
Proof.
  intros HT. unfold realized_porosity. destruct (Z.ltb_spec 0 T); [|reflexivity].
  apply div_self_int. split; [lia|now apply int_below_2_53].
Qed.

(** ** The two ends of the porosity range *)

(** X6: in a completed simulation with draws in [0, 1): if [phi == 0] the
    damage of every particle is exactly [0.0]; if [phi == 1] the damage is
    exactly [1.0] for every particle that has a bond and [0.0] for an
    isolated one. For at most 65536 particles, so that the two global
    counters cannot overflow, the realized porosity is exactly [0.0] when
    [phi == 0], and when [phi == 1] it is [1.0] if there is a bond and
    [0.0] if there is none, [totalBonds] being the number of bonds. *)
Theorem extreme_damage (Lx Ly dx phi m : float) (rng : nat -> float) (sim : simulation) :
  simulate Lx Ly dx phi m rng = Ok sim ->
  (forall k, (0 <=? rng k)%float = true /\ (rng k <? 1)%float = true) ->
  let N := lat_N (sim_lattice sim) in
  let bs := bonds N (lat_particles (sim_lattice sim)) ((m * dx) * (m * dx))%float in
  ((phi =? 0)%float = true ->
     (forall i, 0 <= i < N -> sim_damage sim !! Z.to_nat i = Some 0%float)
     /\ (N <= 65536 -> sim_realizedPorosity sim = 0%float))
  /\ ((phi =? 1)%float = true ->
        (forall i, 0 <= i < N ->
           exists t, sim_N_total sim !! Z.to_nat i = Some t
                     /\ sim_damage sim !! Z.to_nat i
                        = Some (if 0 <? t then 1%float else 0%float))
        /\ (N <= 65536 ->
            totalBonds (sim_predamage sim) = Z.of_nat (length bs)
            /\ sim_realizedPorosity sim
               = match bs with [] => 0%float | _ :: _ => 1%float end)).
Proof.
  intros Hsim Hrng. destruct (simulate_sizes _ _ _ _ _ _ _ Hsim) as (HN & Hp & Hd).
  revert Hsim HN Hp Hd. unfold simulate.
  destruct (build_lattice Lx Ly dx) as [lat|f]; [|discriminate].
  cbn [bind]. intros [= <-].
  cbn [sim_lattice sim_N_total sim_predamage sim_damage sim_realizedPorosity].
  intros HN Hp Hd.
  set (N := lat_N lat) in *. set (ps := lat_particles lat) in *.
  set (d2 := (m * dx * (m * dx))%float) in *.
  assert (Hdam : forall i, 0 <= i < N ->
            compute_damage N (count_bonds N ps d2 (replicate (Z.to_nat N) 0))
              (N_broken (apply_predamage N ps d2 phi rng (predamage_init N)))
              (replicate (Z.to_nat N) 0%float) !! Z.to_nat i
            = Some (damage_at (count_bonds N ps d2 (replicate (Z.to_nat N) 0))
                      (N_broken (apply_predamage N ps d2 phi rng (predamage_init N)))
                      i)).
  { intros i Hi. apply compute_damage_lookup; [rewrite length_replicate|]; lia. }
  assert (Hfew : N <= 65536 ->
            Int.wrap (Z.of_nat (length (bonds N ps d2)))
            = Z.of_nat (length (bonds N ps d2))).
  { intros Hsmall.
    pose proof (few_particles_few_bonds N ps d2 ltac:(lia)).
    apply wrap_in_range. unfold Int.min_int. lia. }
  split; intros Hphi.
  - assert (Hnone : broken_bonds rng phi 0 (bonds N ps d2) = []).
    { apply broken_bonds_none. intros k. apply not_below_zero; [apply Hrng|exact Hphi]. }
    split.
    + intros i Hi. rewrite (Hdam i Hi). f_equal.
      destruct (counters_at N ps d2 phi rng i HN Hi) as (Hb & Ht & Hle).
      rewrite Hnone in Hb. change (Z.of_nat (degree i [])) with 0 in Hb.
      destruct (damage_at_spec _ _ i _ _ Hb Ht) as (Heq & _); [lia|lia|].
      rewrite Heq. destruct (Z.ltb_spec 0 (Z.of_nat (degree i (bonds N ps d2))));
        [|reflexivity].
      apply div_zero_int. split; [lia|]. apply int_below_2_53. lia.
    + intros Hsmall. rewrite apply_predamage_spec. cbn [totalBonds brokenBonds].
      rewrite Hnone. apply realized_porosity_none, wrap_range.
  - assert (Hall : broken_bonds rng phi 0 (bonds N ps d2) = bonds N ps d2).
    { apply broken_bonds_all. intros k. rewrite (eqb_one phi Hphi). apply Hrng. }
    split.
    + intros i Hi. rewrite (Hdam i Hi).
      destruct (counters_at N ps d2 phi rng i HN Hi) as (Hb & Ht & Hle).
      rewrite Hall in Hb. eexists. split; [exact Ht|]. f_equal.
      destruct (damage_at_spec _ _ i _ _ Hb Ht) as (Heq & _); [lia|lia|].
      rewrite Heq. destruct (Z.ltb_spec 0 (Z.of_nat (degree i (bonds N ps d2))));
        [|reflexivity].
      apply div_self_int. split; [lia|]. apply int_below_2_53. lia.
    + intros Hsmall. rewrite apply_predamage_spec. cbn [totalBonds brokenBonds].
      rewrite Hall, (Hfew Hsmall). split; [reflexivity|].
      rewrite realized_porosity_all
        by (pose proof (few_particles_few_bonds N ps d2 ltac:(lia)); lia).
      destruct (bonds N ps d2) as [|p l]; [reflexivity|].
      cbn [length]. destruct (Z.ltb_spec 0 (Z.of_nat (Datatypes.S (length l))));
        [reflexivity|lia].
Qed.

Lemma extreme_damage_witness :
  let rng := fun k : nat => if Nat.even k then 0.25%float else 0.75%float in
  exists sim,
    simulate 1 1 1 1 1.5 rng = Ok sim
    /\ (forall i, 0 <= i < lat_N (sim_lattice sim) ->
          exists t, sim_N_total sim !! Z.to_nat i = Some t
                    /\ sim_damage sim !! Z.to_nat i
                       = Some (if 0 <? t then 1%float else 0%float))
    /\ sim_damage sim = [1; 1; 1; 1]%float
    /\ sim_realizedPorosity sim = 1%float.
Proof.
  intros rng.
  destruct (simulate 1 1 1 1 1.5 rng) as [sim|f] eqn:E;
    [|vm_compute in E; discriminate].
  exists sim. split; [reflexivity|]. split.
  - apply (extreme_damage 1 1 1 1 1.5 rng sim E); [|reflexivity].
    intros k. unfold rng. destruct (Nat.even k); split; reflexivity.
  - vm_compute in E. injection E as <-. split; reflexivity.
Defined.

(** ** The realized porosity *)

(** X7: in a completed simulation of at most 65536 particles the two
    global counters did not wrap around: [0 <= brokenBonds <= totalBonds],
    [totalBonds] is at most [N (N - 1) / 2] and is the number of draws
    taken, and the realized porosity -- their quotient, or [0.0] when there
    is no bond -- lies in [[0, 1]]. *)
Theorem realized_porosity_unit_interval (Lx Ly dx phi m : float) (rng : nat -> float)
    (sim : simulation) :
  simulate Lx Ly dx phi m rng = Ok sim ->
  let N := lat_N (sim_lattice sim) in
  let st := sim_predamage sim in
  N <= 65536 ->
  0 <= brokenBonds st <= totalBonds st
  /\ 2 * totalBonds st <= N * (N - 1)
  /\ Z.of_nat (drawn st) = totalBonds st
  /\ (totalBonds st = 0 -> sim_realizedPorosity sim = 0%float)
  /\ (0 <=? sim_realizedPorosity sim)%float = true
  /\ (sim_realizedPorosity sim <=? 1)%float = true.
Proof.
  intros Hsim. destruct (simulate_sizes _ _ _ _ _ _ _ Hsim) as (HN & Hp & Hd).
  revert Hsim HN Hp Hd. unfold simulate.
  destruct (build_lattice Lx Ly dx) as [lat|f]; [|discriminate].
  cbn [bind]. intros [= <-].
  cbn [sim_lattice sim_N_total sim_predamage sim_damage sim_realizedPorosity].
  intros HN Hp Hd Hsmall.
  set (N := lat_N lat) in *. set (ps := lat_particles lat) in *.
  set (d2 := (m * dx * (m * dx))%float) in *.
  rewrite apply_predamage_spec. cbn [totalBonds brokenBonds drawn].
  set (bs := bonds N ps d2).
  pose proof (few_particles_few_bonds N ps d2 ltac:(lia)) as Hfew. fold bs in Hfew.
  pose proof (length_broken_le rng phi 0 bs) as Hble.
  pose proof (length_all_pairs N ltac:(lia)) as Hpairs.
  pose proof (length_filter_bool_le (fun p => is_bond ps d2 p.1 p.2) (all_pairs N))
    as Hfl. fold (bonds N ps d2) in Hfl. fold bs in Hfl.
  rewrite !wrap_in_range by (unfold Int.min_int; lia).
  split; [lia|]. split; [lia|]. split; [reflexivity|].
  split; [intros H0; unfold realized_porosity; now rewrite H0|].
  unfold realized_porosity. destruct (Z.ltb_spec 0 (Z.of_nat (length bs)));
    [|split; reflexivity].
  apply div_int_unit_interval; [lia|]. split; [lia|]. apply int_below_2_53. lia.
Qed.

Lemma realized_porosity_unit_interval_witness :
  let rng := fun k : nat => if Nat.even k then 0.25%float else 0.75%float in
  exists sim,
    simulate 1 1 1 0.5 1.5 rng = Ok sim
    /\ (0 <=? sim_realizedPorosity sim)%float = true
    /\ (sim_realizedPorosity sim <=? 1)%float = true
    /\ sim_realizedPorosity sim = 0.5%float.
Proof.
  intros rng.
  destruct (simulate 1 1 1 0.5 1.5 rng) as [sim|f] eqn:E;
    [|vm_compute in E; discriminate].
  exists sim. split; [reflexivity|].
  assert (Hs : lat_N (sim_lattice sim) <= 65536).
  { vm_compute in E. injection E as <-. cbn. lia. }
  split; [apply (realized_porosity_unit_interval 1 1 1 0.5 1.5 rng sim E Hs)|].
  split; [apply (realized_porosity_unit_interval 1 1 1 0.5 1.5 rng sim E Hs)|].
  vm_compute in E. now injection E as <-.
Defined.

(** ** Horizons that catch nothing, horizons that catch everything *)

Lemma filter_none {A : Type} (f : A -> bool) (l : list A) :
  Forall (fun a => f a = false) l -> List.filter f l = [].
Proof.
  induction 1 as [|a l Ha _ IH]; [reflexivity|].
  cbn [List.filter]. now rewrite Ha, IH.
Qed.

Lemma fmap_const_seqZ {B : Type} (c : B) (N : Z) :
  (fun _ : Z => c) <$> seqZ 0 N = replicate (Z.to_nat N) c.
Proof. rewrite (const_fmap _ _ c) by reflexivity. now rewrite length_seqZ. Qed.

Lemma compute_damage_isolated (N : Z) (N_broken : list Z) :
  0 <= N ->
  compute_damage N (replicate (Z.to_nat N) 0) N_broken (replicate (Z.to_nat N) 0%float)
  = replicate (Z.to_nat N) 0%float.
Proof.
  intros HN. apply (list_eq_same_length _ _ (Z.to_nat N)).
  - apply length_replicate.
  - now rewrite compute_damage_length, length_replicate.
  - intros i a b Hi Ha Hb. apply lookup_replicate in Hb as [-> _].
    rewrite <- (Nat2Z.id i) in Ha.
    rewrite compute_damage_lookup in Ha by (rewrite ?length_replicate; lia).
    injection Ha as <-. unfold damage_at.
    rewrite lookup_total_replicate_2 by lia. reflexivity.
Qed.

(** X8: when no visited pair passes the distance test -- a lattice of one
    particle, or a horizon shorter than the spacing -- both scans leave
    every counter at 0, no random number is drawn, the realized porosity is
    [0.0] and the damage of every particle is [0.0]. *)
Theorem no_bond_scan (N : Z) (particles : list Particle) (delta2 phi : float)
    (rng : nat -> float) :
  0 <= N <= Int.max_int ->
  (forall i j, 0 <= i -> i < j -> j < N -> is_bond particles delta2 i j = false) ->
  let N_total := count_bonds N particles delta2 (replicate (Z.to_nat N) 0) in
  let st := apply_predamage N particles delta2 phi rng (predamage_init N) in
  N_total = replicate (Z.to_nat N) 0
  /\ st = mkPredamage (replicate (Z.to_nat N) 0) 0 0 0
  /\ realized_porosity (totalBonds st) (brokenBonds st) = 0%float
  /\ compute_damage N N_total (N_broken st) (replicate (Z.to_nat N) 0%float)
     = replicate (Z.to_nat N) 0%float.
Proof.
  intros HN Hnone N_total st. subst N_total st.
  assert (Hbs : bonds N particles delta2 = []).
  { unfold bonds. apply filter_none, Forall_forall.
    intros [i j] Hin%elem_of_all_pairs. cbn [fst snd]. apply Hnone; lia. }
  rewrite count_bonds_spec, apply_predamage_spec, Hbs.
  cbn [broken_bonds length totalBonds brokenBonds N_broken].
  change (fun k : Z => Int.wrap (Z.of_nat (degree k []))) with (fun _ : Z => 0).
  change (Int.wrap (Z.of_nat 0)) with 0.
  rewrite fmap_const_seqZ. split; [reflexivity|]. split; [reflexivity|].
  split; [reflexivity|]. apply compute_damage_isolated. lia.
Qed.

(** The 2 x 2 lattice of spacing 1 with [m = 0.5]. *)
Lemma no_bond_scan_witness :
  let particles := [mkParticle 0 0; mkParticle 1 0; mkParticle 0 1; mkParticle 1 1] in
  let delta2 := ((0.5 * 1) * (0.5 * 1))%float in
  let rng := fun k : nat => if Nat.even k then 0.25%float else 0.75%float in
  apply_predamage 4 particles delta2 0.5 rng (predamage_init 4)
  = mkPredamage (replicate (Z.to_nat 4) 0) 0 0 0.
Proof.
  intros particles delta2 rng.
  apply (no_bond_scan 4 particles delta2 0.5 rng); [unfold Int.max_int; lia|].
  intros i j H0 Hij Hj.
  assert (Hi : i = 0 \/ i = 1 \/ i = 2) by lia.
  assert (Hj' : j = 1 \/ j = 2 \/ j = 3) by lia.
  destruct Hi as [->|[->| ->]]; destruct Hj' as [->|[->| ->]];
    (reflexivity || lia).
Defined.

Lemma length_filter_others (N k : Z) :
  0 <= k < N ->
  Z.of_nat (length (List.filter (fun j => negb (j =? k)) (seqZ 0 N))) = N - 1.
Proof.
  intros Hk. replace N with (k + (1 + (N - k - 1))) at 1 by lia.
  rewrite seqZ_app, seqZ_app by lia. rewrite !List.filter_app, !length_app.
  rewrite (filter_all _ (seqZ 0 k)), (filter_none _ (seqZ (0 + k) 1)),
    (filter_all _ (seqZ (0 + k + 1) (N - k - 1))).
  - rewrite !length_seqZ. cbn [length]. lia.
  - apply Forall_forall. intros j Hj%elem_of_seqZ.
    apply negb_true_iff, Z.eqb_neq. lia.
  - apply Forall_forall. intros j Hj%elem_of_seqZ.
    apply negb_false_iff, Z.eqb_eq. lia.
  - apply Forall_forall. intros j Hj%elem_of_seqZ.
    apply negb_true_iff, Z.eqb_neq. lia.
Qed.

(** X9: when every visited pair passes the distance test, every particle
    is bonded to all the others: [N_total[k] = N - 1] for every [k], one
    draw is taken per pair, [N (N - 1) / 2] in all, and up to 65536
    particles [totalBonds] is that number. *)
Theorem complete_scan (N : Z) (particles : list Particle) (delta2 phi : float)
    (rng : nat -> float) :
  0 <= N <= Int.max_int ->
  (forall i j, 0 <= i -> i < j -> j < N -> is_bond particles delta2 i j = true) ->
  let N_total := count_bonds N particles delta2 (replicate (Z.to_nat N) 0) in
  let st := apply_predamage N particles delta2 phi rng (predamage_init N) in
  (forall k, 0 <= k < N -> N_total !! Z.to_nat k = Some (N - 1))
  /\ 2 * Z.of_nat (drawn st) = N * (N - 1)
  /\ (N <= 65536 -> 2 * totalBonds st = N * (N - 1)).
Proof.
  intros HN Hall N_total st. subst N_total st.
  assert (Hbs : bonds N particles delta2 = all_pairs N).
  { unfold bonds. apply filter_all, Forall_forall.
    intros [i j] Hin%elem_of_all_pairs. cbn [fst snd]. apply Hall; lia. }
  pose proof (length_all_pairs N ltac:(lia)) as Hlen.
  split; [|split].
  - intros k Hk. rewrite count_bonds_spec.
    rewrite list_lookup_fmap, lookup_seqZ_lt by lia.
    cbn [fmap option_fmap option_map]. rewrite Z.add_0_l, Z2Nat.id by lia.
    rewrite (wrap_degree N k) by (lia || now apply degree_bonds_lt).
    rewrite (degree_neighbours N particles delta2 k Hk). f_equal.
    rewrite <- (length_filter_others N k Hk). do 2 f_equal.
    unfold neighbours. apply List.filter_ext_in. intros j Hj.
    apply list_elem_of_In, elem_of_seqZ in Hj.
    destruct (Z.eqb_spec j k) as [->|Hjk]; [reflexivity|].
    cbn [negb andb].
    destruct (Z_lt_le_dec k j); [apply Hall; lia|].
    rewrite is_bond_sym. apply Hall; lia.
  - rewrite apply_predamage_spec. cbn [drawn]. now rewrite Hbs.
  - intros Hsmall. rewrite apply_predamage_spec. cbn [totalBonds].
    pose proof (few_particles_few_bonds N particles delta2 ltac:(lia)) as Hfew.
    rewrite wrap_in_range by (unfold Int.min_int; lia). now rewrite Hbs.
Qed.

(** The 2 x 2 lattice of spacing 1 with [m = 1.5]. *)
Lemma complete_scan_witness :
  let particles := [mkParticle 0 0; mkParticle 1 0; mkParticle 0 1; mkParticle 1 1] in
  let delta2 := ((1.5 * 1) * (1.5 * 1))%float in
  count_bonds 4 particles delta2 (replicate (Z.to_nat 4) 0) !! Z.to_nat 2
  = Some (4 - 1).
Proof.
  intros particles delta2.
  refine (proj1 (complete_scan 4 particles delta2 0.5 (fun _ => 0%float) _ _) 2 _);
    [unfold Int.max_int; lia| |lia].
  intros i j H0 Hij Hj.
  assert (Hi : i = 0 \/ i = 1 \/ i = 2) by lia.
  assert (Hj' : j = 1 \/ j = 2 \/ j = 3) by lia.
  destruct Hi as [->|[->| ->]]; destruct Hj' as [->|[->| ->]];
    (reflexivity || lia).
Defined.

(** ** How a damage value is printed *)

Lemma compare_cont_Z (p q : positive) :
  Pos.compare_cont Eq p q = (Zpos p ?= Zpos q).
Proof. reflexivity. Qed.

(** A finite double has a significand of at most 53 bits. *)
Lemma finite_mantissa_bound (v : float) (s : bool) (m : positive) (e : Z) :
  Prim2SF v = S754_finite s m e -> Zpos m < 2 ^ 53.
Proof.
  intros Hv. pose proof (Prim2SF_valid v) as Hval. rewrite Hv in Hval.
  cbn [valid_binary] in Hval. unfold bounded in Hval.
  apply andb_true_iff in Hval as [Hc _]. unfold canonical_mantissa in Hc.
  apply Z.eqb_eq in Hc. rewrite fexp_eq in Hc.
  pose proof (digits2_pos_bounds m) as [_ Hlt].
  apply Z.lt_le_trans with (1 := Hlt). apply Z.pow_le_mono_r; lia.
Qed.

(** The quotient of two non-negative [int]s is never a negative zero. *)
Lemma div_int_sign (b t : Z) :
  0 <= b < 2 ^ 53 -> 0 < t < 2 ^ 53 ->
  match Prim2SF (double_of_int b / double_of_int t) with
  | S754_zero s | S754_infinity s | S754_finite s _ _ => s = false
  | S754_nan => True
  end.
Proof.
  intros Hb Ht. rewrite div_spec.
  destruct (Prim2SF_double_of_int_pos t Ht) as (mt & et & -> & _).
  destruct (Z.eq_dec b 0) as [->|Hb0]; [reflexivity|].
  destruct (Prim2SF_double_of_int_pos b ltac:(lia)) as (mb & eb & -> & _).
  unfold SF64div, SFdiv.
  destruct (SFdiv_core_binary prec emax (Zpos mb) eb (Zpos mt) et) as [[mz ez] lz].
  apply (binary_round_aux_sign (xorb false false) mz ez lz).
Qed.

Lemma round_half_even_le (num den K : Z) :
  0 < den -> 0 <= num <= K * den -> 0 <= round_half_even num den <= K.
Proof.
  intros Hden Hnum. unfold round_half_even.
  pose proof (Z.div_mod num den ltac:(lia)) as Hdm.
  pose proof (Z.mod_pos_bound num den Hden) as Hmod.
  assert (Hq0 : 0 <= num / den) by (apply Z.div_pos; lia).
  assert (HqK : num / den <= K) by (apply Z.div_le_upper_bound; lia).
  destruct (Z.compare_spec (2 * (num mod den)) den) as [Heq|Hlt|Hgt].
  - destruct (Z.even (num / den)); [lia|].
    destruct (Z.eq_dec (num / den) K) as [HK|HK]; [|lia]. rewrite HK in Hdm. nia.
  - lia.
  - destruct (Z.eq_dec (num / den) K) as [HK|HK]; [|lia]. rewrite HK in Hdm. nia.
Qed.

(** The doubles between 0 and 1: a zero, or a positive significand [m]
    with an exponent [e <= -52] and [m * 2^e <= 1]. *)
Lemma unit_interval_shape (d : float) :
  (0 <=? d)%float = true -> (d <=? 1)%float = true ->
  (exists s, Prim2SF d = S754_zero s)
  \/ exists m e, Prim2SF d = S754_finite false m e /\ e <= -52 /\ Zpos m <= 2 ^ (- e).
Proof.
  rewrite !FloatAxioms.leb_spec. change (Prim2SF 0) with (S754_zero false).
  change (Prim2SF 1) with SF_one. intros H0 H1.
  pose proof (finite_mantissa_bound d) as Hbound.
  destruct (Prim2SF d) as [s|[|]| |[|] m e]; try discriminate.
  - left. now exists s.
  - right. exists m, e. split; [reflexivity|].
    specialize (Hbound false m e eq_refl).
    revert H1. unfold SFleb, SF_one, SFcompare.
    destruct (Z.compare_spec e (-52)) as [->|Hlt|Hgt].
    + change (2 ^ (- -52)) with 4503599627370496.
      rewrite compare_cont_Z.
      destruct (Z.compare_spec (Zpos m) 4503599627370496) as [Hm|Hm|Hm];
        intros H1; (discriminate H1 || (split; lia)).
    + intros _. split; [lia|].
      assert (2 ^ 53 <= 2 ^ (- e)) by (apply Z.pow_le_mono_r; lia). lia.
    + intros H1. discriminate H1.
Qed.

(** A double in [[+0, 1]] is printed as ["0.dddddd"] or ["1.000000"]. *)
Lemma fixed6_unit_interval (d : float) :
  (0 <=? d)%float = true -> (d <=? 1)%float = true ->
  Prim2SF d <> S754_zero true ->
  fixed6 d = "1.000000" \/ exists n, 0 <= n < 1000000 /\ fixed6 d = "0." +:+ pad6 n.
Proof.
  intros H0 H1 Hz. unfold fixed6.
  destruct (unit_interval_shape d H0 H1) as [[s Hd]|(m & e & Hd & He & Hm)];
    rewrite Hd in *.
  - destruct s; [congruence|].
    right. exists 0. split; [lia|vm_compute; reflexivity].
  - destruct (Z.leb_spec 0 e); [lia|].
    assert (Hden : 0 < 2 ^ (- e)) by (apply Z.pow_pos_nonneg; lia).
    pose proof (round_half_even_le (Zpos m * 1000000) (2 ^ (- e)) 1000000 Hden
                  ltac:(nia)) as Hr.
    set (scaled := round_half_even (Zpos m * 1000000) (2 ^ (- e))) in *.
    destruct (Z.eq_dec scaled 1000000) as [->|Hne].
    + left. vm_compute. reflexivity.
    + right. exists scaled. split; [lia|].
      rewrite Z.div_small, Z.mod_small by lia.
      replace (pretty 0) with "0" by (vm_compute; reflexivity). reflexivity.
Qed.

Lemma length_pad6 (n : Z) : String.length ("0." +:+ pad6 n) = 8%nat.
Proof. reflexivity. Qed.

(** The text of every damage value of a completed simulation. *)
Lemma simulate_damage_text (Lx Ly dx phi m : float) (rng : nat -> float)
    (sim : simulation) :
  simulate Lx Ly dx phi m rng = Ok sim ->
  forall i, 0 <= i < lat_N (sim_lattice sim) ->
    exists d, sim_damage sim !! Z.to_nat i = Some d
      /\ (fixed6 d = "1.000000"
          \/ exists n, 0 <= n < 1000000 /\ fixed6 d = "0." +:+ pad6 n).
Proof.
  intros Hsim. destruct (simulate_sizes _ _ _ _ _ _ _ Hsim) as (HN & Hp & Hd).
  revert Hsim HN Hp Hd. unfold simulate.
  destruct (build_lattice Lx Ly dx) as [lat|f]; [|discriminate].
  cbn [bind]. intros [= <-].
  cbn [sim_lattice sim_N_total sim_predamage sim_damage sim_realizedPorosity].
  intros HN Hp Hd i Hi.
  set (N := lat_N lat) in *. set (ps := lat_particles lat) in *.
  set (d2 := (m * dx * (m * dx))%float) in *.
  destruct (counters_at N ps d2 phi rng i HN Hi) as (Hb & Ht & Hle).
  eexists. split; [apply compute_damage_lookup; [rewrite length_replicate|]; lia|].
  destruct (damage_at_spec _ _ i _ _ Hb Ht) as (Heq & _ & H0 & H1); [lia|lia|].
  assert (Hshape : fixed6 (damage_at (count_bonds N ps d2 (replicate (Z.to_nat N) 0))
                     (N_broken (apply_predamage N ps d2 phi rng (predamage_init N))) i)
                   = "1.000000"
                   \/ exists n, 0 <= n < 1000000
                        /\ fixed6 (damage_at
                             (count_bonds N ps d2 (replicate (Z.to_nat N) 0))
                             (N_broken (apply_predamage N ps d2 phi rng
                                          (predamage_init N))) i)
                           = "0." +:+ pad6 n).
  { apply fixed6_unit_interval; [exact H0|exact H1|].
    rewrite Heq. destruct (Z.ltb_spec 0 (Z.of_nat (degree i (bonds N ps d2))));
      [|discriminate].
    pose proof (div_int_sign (Z.of_nat (degree i (broken_bonds rng phi 0 (bonds N ps d2))))
                  (Z.of_nat (degree i (bonds N ps d2)))) as Hs.
    intros Hneg. rewrite Hneg in Hs.
    assert (Hlt : Z.of_nat (degree i (bonds N ps d2)) < 2 ^ 53)
      by (apply int_below_2_53; lia).
    discriminate Hs; lia. }
  exact Hshape.
Qed.

(** X10: in a completed simulation every damage value is printed, under
    the fixed six-decimal format of the output file, either as ["1.000000"]
    or as ["0."] followed by six decimal digits: eight characters, never a
    sign, an exponent, [nan] or [inf]. *)
Theorem damage_text_shape (Lx Ly dx phi m : float) (rng : nat -> float)
    (sim : simulation) :
  simulate Lx Ly dx phi m rng = Ok sim ->
  forall i, 0 <= i < lat_N (sim_lattice sim) ->
    exists d, sim_damage sim !! Z.to_nat i = Some d
      /\ (fixed6 d = "1.000000"
          \/ exists n, 0 <= n < 1000000 /\ fixed6 d = "0." +:+ pad6 n)
      /\ String.length (fixed6 d) = 8%nat.
Proof.
  intros Hsim. destruct (simulate_sizes _ _ _ _ _ _ _ Hsim) as (HN & Hp & Hd).
  revert Hsim HN Hp Hd. unfold simulate.
  destruct (build_lattice Lx Ly dx) as [lat|f]; [|discriminate].
  cbn [bind]. intros [= <-].
  cbn [sim_lattice sim_N_total sim_predamage sim_damage sim_realizedPorosity].
  intros HN Hp Hd i Hi.
  set (N := lat_N lat) in *. set (ps := lat_particles lat) in *.
  set (d2 := (m * dx * (m * dx))%float) in *.
  destruct (counters_at N ps d2 phi rng i HN Hi) as (Hb & Ht & Hle).
  eexists. split; [apply compute_damage_lookup; [rewrite length_replicate|]; lia|].
  destruct (damage_at_spec _ _ i _ _ Hb Ht) as (Heq & _ & H0 & H1); [lia|lia|].
  assert (Hshape : fixed6 (damage_at (count_bonds N ps d2 (replicate (Z.to_nat N) 0))
                     (N_broken (apply_predamage N ps d2 phi rng (predamage_init N))) i)
                   = "1.000000"
                   \/ exists n, 0 <= n < 1000000
                        /\ fixed6 (damage_at
                             (count_bonds N ps d2 (replicate (Z.to_nat N) 0))
                             (N_broken (apply_predamage N ps d2 phi rng
                                          (predamage_init N))) i)
                           = "0." +:+ pad6 n).
  { apply fixed6_unit_interval; [exact H0|exact H1|].
    rewrite Heq. destruct (Z.ltb_spec 0 (Z.of_nat (degree i (bonds N ps d2))));
      [|discriminate].
    pose proof (div_int_sign (Z.of_nat (degree i (broken_bonds rng phi 0 (bonds N ps d2))))
                  (Z.of_nat (degree i (bonds N ps d2)))) as Hs.
    intros Hneg. rewrite Hneg in Hs.
    assert (Hlt : Z.of_nat (degree i (bonds N ps d2)) < 2 ^ 53)
      by (apply int_below_2_53; lia).
    discriminate Hs; lia. }
  split; [exact Hshape|].
  destruct Hshape as [->|(n & _ & ->)]; reflexivity.
Qed.

Lemma damage_text_shape_witness :
  let rng := fun k : nat => if Nat.even k then 0.25%float else 0.75%float in
  exists sim,
    simulate 1 1 1 0.5 1.5 rng = Ok sim
    /\ (exists d, sim_damage sim !! Z.to_nat 0 = Some d
                  /\ String.length (fixed6 d) = 8%nat)
    /\ fixed6 <$> sim_damage sim = ["0.666667"; "0.666667"; "0.000000"; "0.666667"].
Proof.
  intros rng.
  destruct (simulate 1 1 1 0.5 1.5 rng) as [sim|f] eqn:E;
    [|vm_compute in E; discriminate].
  exists sim. split; [reflexivity|]. split.
  - assert (Hs : 0 <= 0 < lat_N (sim_lattice sim)).
    { vm_compute in E. injection E as <-. cbn. lia. }
    destruct (damage_text_shape 1 1 1 0.5 1.5 rng sim E 0 Hs) as (d & Hd & _ & Hlen).
    exists d. split; [exact Hd|exact Hlen].
  - vm_compute in E. injection E as <-. vm_compute. reflexivity.
Defined.

(** ** The draws a run looks at *)



(** ** Sign of the squared distance *)

Lemma binary_normalize_pos_sign (p : positive) (e : Z) (sz : bool) :
  SFnonneg (binary_normalize prec emax (Zpos p) e sz) = true.
Proof.
  cbn [binary_normalize]. unfold binary_round.
  destruct (shl_align _ _ _) as [mz ez].
  pose proof (binary_round_aux_not_nan false (Zpos mz) ez loc_Exact ltac:(lia)) as Hn.
  pose proof (binary_round_aux_sign false (Zpos mz) ez loc_Exact) as Hs.
  destruct (binary_round_aux prec emax false (Zpos mz) ez loc_Exact) as [s|s| |s m e'];
    cbn in Hs, Hn; subst; (reflexivity || discriminate).
Qed.

(** The sum of two doubles with a clear sign bit has a clear sign bit. *)
Lemma SFadd_nonneg_sign (a b : spec_float) :
  SFnonneg a = true -> SFnonneg b = true -> SFnonneg (SF64add a b) = true.
Proof.
  destruct a as [[|]|[|]| |[|] ma ea]; try discriminate;
    destruct b as [[|]|[|]| |[|] mb eb]; try discriminate; intros _ _;
    unfold SF64add, SFadd; try reflexivity.
  cbn [cond_Zopp Z.add]. apply binary_normalize_pos_sign.
Qed.

(** A finite double minus itself is [+0]. *)
Lemma SFsub_diag (v : spec_float) :
  SFis_finite v = true -> SF64sub v v = S754_zero false.
Proof.
  destruct v as [[|]| | |s m e]; try discriminate; intros _; try reflexivity.
  unfold SF64sub, SFsub. rewrite Z.min_id.
  destruct (shl_align m e e) as [m' e'] eqn:Hal. cbn [fst].
  rewrite Z.sub_diag. reflexivity.
Qed.

(** X12: for two particles with finite coordinates the squared distance is
    never negative and never a NaN ([0 <= dist2 a b] holds as a comparison
    of doubles), and the squared distance of a particle to itself is
    exactly [+0.0]. *)
Theorem dist2_nonneg (a b : Particle) :
  SFis_finite (Prim2SF (x a)) = true -> SFis_finite (Prim2SF (y a)) = true ->
  SFis_finite (Prim2SF (x b)) = true -> SFis_finite (Prim2SF (y b)) = true ->
  (0 <=? dist2 a b)%float = true /\ dist2 a a = 0%float.
Proof.
  intros Hxa Hya Hxb Hyb. split.
  - unfold dist2. rewrite FloatAxioms.leb_spec.
    change (Prim2SF 0) with (S754_zero false). rewrite add_spec.
    assert (Hs : SFnonneg (SF64add (Prim2SF ((x a - x b) * (x a - x b)))
                             (Prim2SF ((y a - y b) * (y a - y b)))) = true).
    { apply SFadd_nonneg_sign; rewrite mul_spec; apply SFmul_square;
        rewrite sub_spec; now apply SFsub_finite. }
    apply SFleb_zero_nonneg.
    destruct (SF64add _ _) as [[|]|[|]| |[|] mm ee]; (exact I || discriminate).
  - apply Prim2SF_inj. unfold dist2.
    rewrite add_spec, !mul_spec, !sub_spec, !SFsub_diag by assumption. reflexivity.
Qed.

Lemma dist2_nonneg_witness :
  (0 <=? dist2 (mkParticle 0.5 1) (mkParticle 2 0.25))%float = true
  /\ dist2 (mkParticle 0.5 1) (mkParticle 0.5 1) = 0%float.
Proof. apply (dist2_nonneg (mkParticle 0.5 1) (mkParticle 2 0.25)); reflexivity. Defined.

(** ** The percent field of the file name *)

Lemma shr_m_iter (p : positive) (mrs : shr_record) :
  0 <= shr_m mrs ->
  shr_m (SpecFloat.iter_pos shr_1 p mrs) = shr_m mrs / 2 ^ Zpos p.
Proof.
  revert mrs. induction p as [p IH|p IH|]; intros mrs Hm; cbn [SpecFloat.iter_pos].
  - assert (H1 : 0 <= shr_m (shr_1 mrs)) by now apply shr_1_nonneg.
    assert (H2 : 0 <= shr_m (SpecFloat.iter_pos shr_1 p (shr_1 mrs)))
      by (apply iter_pos_inv; [exact shr_1_nonneg|exact H1]).
    rewrite (IH _ H2), (IH _ H1), shr_m_shr_1 by exact Hm.
    assert (Hp : 0 < 2 ^ Zpos p) by (apply Z.pow_pos_nonneg; lia).
    assert (Hpow : 2 ^ Zpos p~1 = 2 * (2 ^ Zpos p * 2 ^ Zpos p)).
    { rewrite (Pos2Z.inj_xI p).
      replace (2 * Zpos p + 1) with (1 + (Zpos p + Zpos p)) by lia.
      now rewrite !Z.pow_add_r by lia. }
    rewrite !Z.div_div by lia. f_equal. rewrite Hpow. ring.
  - assert (H2 : 0 <= shr_m (SpecFloat.iter_pos shr_1 p mrs))
      by (apply iter_pos_inv; [exact shr_1_nonneg|exact Hm]).
    rewrite (IH _ H2), (IH _ Hm).
    assert (Hp : 0 < 2 ^ Zpos p) by (apply Z.pow_pos_nonneg; lia).
    assert (Hpow : 2 ^ Zpos p~0 = 2 ^ Zpos p * 2 ^ Zpos p).
    { rewrite (Pos2Z.inj_xO p).
      replace (2 * Zpos p) with (Zpos p + Zpos p) by lia.
      now rewrite !Z.pow_add_r by lia. }
    rewrite !Z.div_div by lia. f_equal. rewrite Hpow. ring.
  - now rewrite shr_m_shr_1.
Qed.

(** Shifting a significand to its format exponent. *)
Lemma shr_fexp_spec (m e : Z) (l : location) :
  0 <= m ->
  exists mrs,
    shr_fexp prec emax m e l = (mrs, Z.max e (fexp prec emax (Zdigits2 m + e)))
    /\ shr_m mrs = m / 2 ^ (Z.max e (fexp prec emax (Zdigits2 m + e)) - e).
Proof.
  intros Hm. unfold shr_fexp, shr.
  destruct (fexp prec emax (Zdigits2 m + e) - e) as [|p|p] eqn:Hn.
  - exists (shr_record_of_loc m l). rewrite Z.max_l by lia.
    rewrite Z.sub_diag, Z.div_1_r, shr_m_of_loc. split; reflexivity.
  - exists (SpecFloat.iter_pos shr_1 p (shr_record_of_loc m l)).
    rewrite Z.max_r by lia. split; [f_equal; lia|].
    rewrite shr_m_iter by (rewrite shr_m_of_loc; exact Hm).
    rewrite shr_m_of_loc. do 2 f_equal. lia.
  - exists (shr_record_of_loc m l). rewrite Z.max_l by lia.
    rewrite Z.sub_diag, Z.div_1_r, shr_m_of_loc. split; reflexivity.
Qed.

Lemma Zdigits2_le (m d : Z) : 0 <= m < 2 ^ d -> 0 <= d -> Zdigits2 m <= d.
Proof.
  intros Hm Hd. destruct m as [|p|p]; cbn [Zdigits2]; [exact Hd| |lia].
  apply digits2_pos_le; lia.
Qed.

(** A positive value of at most 100 rounds to a double that truncates to
    an integer between 0 and 100. *)
Lemma round_trunc_le_100 (M : positive) (ex : Z) :
  ex <= -46 -> Zpos M <= 100 * 2 ^ (- ex) ->
  exists b, SFtrunc (binary_round_aux prec emax false (Zpos M) ex loc_Exact) = Some b
            /\ 0 <= b <= 100.
Proof.
  intros Hex HM. unfold binary_round_aux.
  assert (Hfexp : forall z, z <= 7 -> fexp prec emax z <= -46).
  { intros z Hz. rewrite fexp_eq. lia. }
  assert (Hpow : forall a b, 0 <= a -> 0 <= b -> 2 ^ (a + b) = 2 ^ a * 2 ^ b)
    by (intros; apply Z.pow_add_r; lia).
  assert (Hpos : forall a, 0 <= a -> 0 < 2 ^ a) by (intros; apply Z.pow_pos_nonneg; lia).
  destruct (shr_fexp_spec (Zpos M) ex loc_Exact ltac:(lia)) as (mrs1 & -> & Hm1).
  set (e1 := Z.max ex (fexp prec emax (Zdigits2 (Zpos M) + ex))) in *.
  assert (He1 : ex <= e1 <= -46).
  { split; [apply Z.le_max_l|]. apply Z.max_lub; [exact Hex|]. apply Hfexp.
    assert (Zdigits2 (Zpos M) <= 7 - ex); [|lia].
    apply Zdigits2_le; [|lia]. split; [lia|].
    replace (7 - ex) with (7 + - ex) by lia. rewrite Hpow by lia.
    change (2 ^ 7) with 128. pose proof (Hpos (- ex) ltac:(lia)). lia. }
  assert (Hsplit : 2 ^ (- ex) = 2 ^ (- e1) * 2 ^ (e1 - ex)).
  { rewrite <- Hpow by lia. f_equal. lia. }
  pose proof (Hpos (- e1) ltac:(lia)) as HA.
  pose proof (Hpos (e1 - ex) ltac:(lia)) as HB.
  assert (Hm1b : 0 <= shr_m mrs1 <= 100 * 2 ^ (- e1)).
  { rewrite Hm1. split; [apply Z.div_pos; lia|].
    apply Z.div_le_upper_bound; [lia|]. rewrite Hsplit in HM. lia. }
  pose proof (round_nearest_even_bounds (shr_m mrs1) (loc_of_shr_record mrs1)) as Hr.
  set (r := round_nearest_even (shr_m mrs1) (loc_of_shr_record mrs1)) in *.
  destruct (shr_fexp_spec r e1 loc_Exact ltac:(lia)) as (mrs2 & -> & Hm2).
  set (e2 := Z.max e1 (fexp prec emax (Zdigits2 r + e1))) in *.
  assert (H46 : 2 ^ 46 <= 2 ^ (- e1)) by (apply Z.pow_le_mono_r; lia).
  change (2 ^ 46) with 70368744177664 in H46.
  assert (He2 : e1 <= e2 <= -46).
  { split; [apply Z.le_max_l|]. apply Z.max_lub; [lia|]. apply Hfexp.
    assert (Zdigits2 r <= 7 - e1); [|lia].
    apply Zdigits2_le; [|lia]. split; [lia|].
    replace (7 - e1) with (7 + - e1) by lia. rewrite Hpow by lia.
    change (2 ^ 7) with 128. lia. }
  assert (Hsplit2 : 2 ^ (- e1) = 2 ^ (- e2) * 2 ^ (e2 - e1)).
  { rewrite <- Hpow by lia. f_equal. lia. }
  pose proof (Hpos (- e2) ltac:(lia)) as HC.
  pose proof (Hpos (e2 - e1) ltac:(lia)) as HD.
  assert (Hm2b : 0 <= shr_m mrs2 < 101 * 2 ^ (- e2)).
  { rewrite Hm2. split; [apply Z.div_pos; lia|].
    apply Z.div_lt_upper_bound; [lia|]. rewrite Hsplit2 in Hm1b. nia. }
  destruct (shr_m mrs2) as [|m2|m2] eqn:Hs2; [exists 0; split; [reflexivity|lia]| |lia].
  destruct (Z.leb_spec e2 (emax - prec)) as [_|Hbig];
    [|change (emax - prec) with 971 in Hbig; lia].
  cbn [SFtrunc cond_Zopp]. eexists. split; [reflexivity|].
  replace (Z.shiftl (Zpos m2) e2) with (Zpos m2 / 2 ^ (- e2))
    by (rewrite <- Z.shiftr_div_pow2, <- Z.shiftl_opp_r by lia; f_equal; lia).
  split; [apply Z.div_pos; lia|].
  assert (Z.pos m2 / 2 ^ (- e2) < 101); [|lia].
  apply Z.div_lt_upper_bound; lia.
Qed.

Lemma percent_cast (phi : float) :
  (0 <=? phi)%float = true -> (phi <=? 1)%float = true ->
  exists b, static_cast_int (phi * 100) = Ok b /\ 0 <= b <= 100.
Proof.
  intros H0 H1. unfold static_cast_int. rewrite mul_spec.
  change (Prim2SF 100) with (S754_finite false 7036874417766400 (-46)).
  assert (Hin : forall b, 0 <= b <= 100 -> Int.in_range b = true).
  { intros b Hb. apply in_range_spec. unfold Int.min_int, Int.max_int. lia. }
  destruct (unit_interval_shape phi H0 H1) as [[s ->]|(m & e & -> & He & Hm)].
  - exists 0. split; [reflexivity|lia].
  - unfold SF64mul, SFmul. cbn [xorb].
    destruct (round_trunc_le_100 (m * 7036874417766400) (e + -46)) as (b & -> & Hb).
    + lia.
    + rewrite Pos2Z.inj_mul. replace (- (e + -46)) with (- e + 46) by lia.
      rewrite Z.pow_add_r by lia. change (2 ^ 46) with 70368744177664.
      assert (0 < 2 ^ (- e)) by (apply Z.pow_pos_nonneg; lia). nia.
    + exists b. now rewrite (Hin b Hb).
Qed.

Lemma not_ltb_leb (a b : float) :
  Prim2SF a <> S754_nan -> Prim2SF b <> S754_nan ->
  (b <? a)%float = false -> (a <=? b)%float = true.
Proof.
  rewrite FloatAxioms.ltb_spec, FloatAxioms.leb_spec. unfold SFltb, SFleb, SFcompare.
  destruct (Prim2SF a) as [sa|sa| |sa ma ea]; destruct (Prim2SF b) as [sb|sb| |sb mb eb];
    try congruence; intros _ _;
    try (destruct sa); try (destruct sb); try discriminate; try reflexivity;
    rewrite ?compare_cont_Z; intros H; order_cases.
Qed.

(** X13: when [phi] is a number that the validation accepts (neither
    [phi < 0] nor [phi > 1]), the conversion [static_cast<int>(phi * 100)]
    of the file name is always defined and gives an integer between 0 and
    100; so the file name exists as soon as [Lx] converts to an [int]. *)
Theorem percent_field_defined (Lx phi : float) (a : Z) :
  Prim2SF phi <> S754_nan ->
  (phi <? 0)%float = false -> (1 <? phi)%float = false ->
  static_cast_int Lx = Ok a ->
  exists b,
    0 <= b <= 100
    /\ static_cast_int (phi * 100) = Ok b
    /\ output_filename Lx phi
       = Ok ("porosity_Lx" +:+ pretty a +:+ "_phi" +:+ pretty b +:+ ".vtk").
Proof.
  intros Hnan Hlo Hhi HLx.
  assert (H0 : (0 <=? phi)%float = true)
    by (apply not_ltb_leb; [discriminate|exact Hnan|exact Hlo]).
  assert (H1 : (phi <=? 1)%float = true)
    by (apply not_ltb_leb; [exact Hnan|discriminate|exact Hhi]).
  destruct (percent_cast phi H0 H1) as (b & Hb & Hrange).
  exists b. split; [exact Hrange|]. split; [exact Hb|].
  unfold output_filename. rewrite HLx, Hb. reflexivity.
Qed.

Lemma percent_field_defined_witness :
  exists b,
    0 <= b <= 100
    /\ static_cast_int (0.29 * 100) = Ok b
    /\ output_filename 12.5 0.29
       = Ok ("porosity_Lx" +:+ pretty 12 +:+ "_phi" +:+ pretty b +:+ ".vtk").
Proof.
  apply (percent_field_defined 12.5 0.29 12);
    [intros H; vm_compute in H; discriminate H|reflexivity|reflexivity|].
  vm_compute. reflexivity.
Defined.

(** ** Runs that complete *)

Lemma ltb_not_leb (a b : float) :
  (a <? b)%float = true -> (b <=? a)%float = false.
Proof.
  rewrite FloatAxioms.ltb_spec, FloatAxioms.leb_spec. unfold SFltb, SFleb, SFcompare.
  destruct (Prim2SF a) as [sa|sa| |sa ma ea]; destruct (Prim2SF b) as [sb|sb| |sb mb eb];
    try discriminate; try reflexivity;
    try (destruct sa); try (destruct sb); try discriminate; try reflexivity;
    rewrite ?compare_cont_Z; intros H; order_cases.
Qed.

Lemma leb_not_ltb (a b : float) :
  (a <=? b)%float = true -> (b <? a)%float = false.
Proof.
  rewrite FloatAxioms.ltb_spec, FloatAxioms.leb_spec. unfold SFltb, SFleb, SFcompare.
  destruct (Prim2SF a) as [sa|sa| |sa ma ea]; destruct (Prim2SF b) as [sb|sb| |sb mb eb];
    try discriminate; try reflexivity;
    try (destruct sa); try (destruct sb); try discriminate; try reflexivity;
    rewrite ?compare_cont_Z; intros H; order_cases.
Qed.

(** A positive double below 2^31 converts to an [int]. *)
Lemma cast_small_positive (v : float) :
  (0 <? v)%float = true -> (v <? 2147483648)%float = true ->
  exists a, static_cast_int v = Ok a /\ 0 <= a <= Int.max_int.
Proof.
  intros H0 H1. unfold static_cast_int.
  pose proof (finite_mantissa_bound v) as Hbound.
  revert H1. rewrite FloatAxioms.ltb_spec.
  change (Prim2SF 2147483648) with (S754_finite false 4503599627370496 (-21)).
  destruct (positive_double v H0) as [->|(m & e & Hv)]; [discriminate|].
  rewrite Hv. specialize (Hbound false m e Hv).
  unfold SFltb, SFcompare. rewrite compare_cont_Z. intros H1.
  assert (He : e <= -21 /\ Zpos m < 2 ^ (- e) * 2147483648).
  { destruct (Z.compare_spec e (-21)) as [->|Hlt|Hgt].
    - change (2 ^ (- -21)) with 2097152.
      destruct (Z.compare_spec (Zpos m) 4503599627370496); (discriminate H1 || lia).
    - split; [lia|].
      assert (2 ^ 22 <= 2 ^ (- e)) by (apply Z.pow_le_mono_r; lia).
      change (2 ^ 22) with 4194304 in *. change (2 ^ 53) with 9007199254740992 in *.
      lia.
    - discriminate H1. }
  destruct He as [He Hm]. cbn [SFtrunc cond_Zopp].
  assert (Hden : 0 < 2 ^ (- e)) by (apply Z.pow_pos_nonneg; lia).
  replace (Z.shiftl (Zpos m) e) with (Zpos m / 2 ^ (- e))
    by (rewrite <- Z.shiftr_div_pow2, <- Z.shiftl_opp_r by lia; f_equal; lia).
  assert (Hq : 0 <= Zpos m / 2 ^ (- e) < 2147483648).
  { split; [apply Z.div_pos; lia|]. apply Z.div_lt_upper_bound; lia. }
  eexists. rewrite (proj2 (in_range_spec _)) by (unfold Int.min_int, Int.max_int; lia).
  split; [reflexivity|]. unfold Int.max_int. lia.
Qed.

(** A run with parameters in range and a grid that fits an [int]. *)
Lemma run_in_range (Lx Ly dx phi m : float) (rng : nat -> float)
    (can_open : string -> bool) (a b : Z) :
  (0 <? Lx)%float = true -> (Lx <? 2147483648)%float = true ->
  (0 <? Ly)%float = true -> (0 <? dx)%float = true -> (0 <? m)%float = true ->
  (0 <=? phi)%float = true -> (phi <=? 1)%float = true ->
  Zfloor (Lx / dx) = Some a -> Zfloor (Ly / dx) = Some b ->
  (a + 1) * (b + 1) <= Int.max_int ->
  exists filename sim particles,
    output_filename Lx phi = Ok filename
    /\ simulate Lx Ly dx phi m rng = Ok sim
    /\ sim_lattice sim = mkLattice (a + 1) (b + 1) ((a + 1) * (b + 1)) particles
    /\ 1 <= a + 1 /\ 1 <= b + 1
    /\ runSimulation Lx Ly dx phi m rng can_open
       = if can_open filename
         then Written filename
                (write_vtk (lat_N (sim_lattice sim))
                   (lat_particles (sim_lattice sim)) (sim_damage sim)) sim
         else IOFailure filename.
Proof.
  intros HLx HLx31 HLy Hdx Hm Hphi0 Hphi1 Ha Hb Hmax.
  destruct (build_lattice_spec Lx Ly dx a b HLx HLy Hdx Ha Hb Hmax)
    as (Ha0 & Hb0 & ps & Hbuild & Hlen & Hps).
  destruct (cast_small_positive Lx HLx HLx31) as (c & Hc & _).
  destruct (percent_cast phi Hphi0 Hphi1) as (p & Hp & _).
  assert (Hvalid : invalid_parameters Lx Ly dx phi m = false).
  { unfold invalid_parameters.
    rewrite (ltb_not_leb _ _ Hdx), (ltb_not_leb _ _ HLx), (ltb_not_leb _ _ HLy),
      (ltb_not_leb _ _ Hm), (leb_not_ltb _ _ Hphi0), (leb_not_ltb _ _ Hphi1).
    reflexivity. }
  unfold runSimulation, simulate, output_filename.
  rewrite Hvalid, Hbuild, Hc, Hp. cbn [bind].
  eexists _, _, ps. split; [reflexivity|]. split; [reflexivity|].
  split; [reflexivity|]. split; [lia|]. split; [lia|reflexivity].
Qed.

(** The counters of a completed simulation hold exact counts. *)
Lemma simulate_counters (Lx Ly dx phi m : float) (rng : nat -> float) (sim : simulation) :
  simulate Lx Ly dx phi m rng = Ok sim ->
  let N := lat_N (sim_lattice sim) in
  let st := sim_predamage sim in
  (forall k, 0 <= k < N ->
     exists nb nt, N_broken st !! Z.to_nat k = Some nb
                   /\ sim_N_total sim !! Z.to_nat k = Some nt
                   /\ 0 <= nb <= nt /\ nt <= N - 1)
  /\ (N <= 65536 ->
      Z.of_nat (drawn st) = totalBonds st
      /\ 0 <= brokenBonds st <= totalBonds st
      /\ 2 * totalBonds st <= N * (N - 1)).
Proof.
  intros Hsim. destruct (simulate_sizes _ _ _ _ _ _ _ Hsim) as (HN & Hp & Hd).
  revert Hsim HN Hp Hd. unfold simulate.
  destruct (build_lattice Lx Ly dx) as [lat|f]; [|discriminate].
  cbn [bind]. intros [= <-].
  cbn [sim_lattice sim_N_total sim_predamage sim_damage sim_realizedPorosity].
  intros HN Hp Hd.
  set (N := lat_N lat) in *. set (ps := lat_particles lat) in *.
  set (d2 := (m * dx * (m * dx))%float) in *. split.
  - intros k Hk.
    destruct (counters_at N ps d2 phi rng k HN Hk) as (Hb & Ht & Hle).
    eexists _, _. split; [exact Hb|]. split; [exact Ht|]. lia.
  - intros Hsmall. rewrite apply_predamage_spec. cbn [totalBonds brokenBonds drawn].
    set (bs := bonds N ps d2).
    pose proof (few_particles_few_bonds N ps d2 ltac:(lia)) as Hfew. fold bs in Hfew.
    pose proof (length_broken_le rng phi 0 bs) as Hble.
    pose proof (length_all_pairs N ltac:(lia)) as Hpairs.
    pose proof (length_filter_bool_le (fun p => is_bond ps d2 p.1 p.2) (all_pairs N))
      as Hfl. fold (bonds N ps d2) in Hfl. fold bs in Hfl.
    rewrite !wrap_in_range by (unfold Int.min_int; lia).
    split; [reflexivity|]. split; lia.
Qed.

(** X14: a run whose parameters are in range completes, and every [int]
    it computes holds its exact value: for positive [Lx], [Ly], [dx] and
    [m], [Lx] below 2^31, [phi] in [[0, 1]] and a grid of at most 65536
    points, the parameters are accepted, no conversion to [int] is out of
    range and no index is outside its vector, [Nx = floor(Lx/dx)+1],
    [Ny = floor(Ly/dx)+1] and [N = Nx * Ny], the per-particle counters are
    counts below [N], [totalBonds] is the number of draws taken and
    [brokenBonds] is at most [totalBonds], the product [2 * N] of the
    VERTICES line does not wrap around, and the run ends by writing the
    file if it can be opened and by reporting the failure otherwise,
    whatever the draws. (The vectors are taken to be allocated: running
    out of memory is not part of the model.) *)
Theorem run_completes (Lx Ly dx phi m : float) (rng : nat -> float)
    (can_open : string -> bool) (a b : Z) :
  (0 <? Lx)%float = true -> (Lx <? 2147483648)%float = true ->
  (0 <? Ly)%float = true -> (0 <? dx)%float = true -> (0 <? m)%float = true ->
  (0 <=? phi)%float = true -> (phi <=? 1)%float = true ->
  Zfloor (Lx / dx) = Some a -> Zfloor (Ly / dx) = Some b ->
  (a + 1) * (b + 1) <= 65536 ->
  exists filename sim,
    output_filename Lx phi = Ok filename
    /\ simulate Lx Ly dx phi m rng = Ok sim
    /\ lat_Nx (sim_lattice sim) = a + 1 /\ lat_Ny (sim_lattice sim) = b + 1
    /\ lat_N (sim_lattice sim) = (a + 1) * (b + 1)
    /\ 1 <= lat_N (sim_lattice sim)
    /\ (forall k, 0 <= k < lat_N (sim_lattice sim) ->
          exists nb nt,
            N_broken (sim_predamage sim) !! Z.to_nat k = Some nb
            /\ sim_N_total sim !! Z.to_nat k = Some nt
            /\ 0 <= nb <= nt /\ nt <= lat_N (sim_lattice sim) - 1)
    /\ Z.of_nat (drawn (sim_predamage sim)) = totalBonds (sim_predamage sim)
    /\ 0 <= brokenBonds (sim_predamage sim) <= totalBonds (sim_predamage sim)
    /\ 2 * totalBonds (sim_predamage sim)
       <= lat_N (sim_lattice sim) * (lat_N (sim_lattice sim) - 1)
    /\ Int.mul 2 (lat_N (sim_lattice sim)) = 2 * lat_N (sim_lattice sim)
    /\ runSimulation Lx Ly dx phi m rng can_open
       = if can_open filename
         then Written filename
                (write_vtk (lat_N (sim_lattice sim))
                   (lat_particles (sim_lattice sim)) (sim_damage sim)) sim
         else IOFailure filename.
Proof.
  intros HLx HLx31 HLy Hdx Hm Hphi0 Hphi1 Ha Hb Hmax.
  destruct (run_in_range Lx Ly dx phi m rng can_open a b HLx HLx31 HLy Hdx Hm
              Hphi0 Hphi1 Ha Hb ltac:(unfold Int.max_int; lia))
    as (filename & sim & ps & Hfn & Hsim & Hlat & Ha1 & Hb1 & Hrun).
  destruct (simulate_counters Lx Ly dx phi m rng sim Hsim) as [Hlocal Hglobal].
  assert (HN : lat_N (sim_lattice sim) = (a + 1) * (b + 1)) by now rewrite Hlat.
  destruct (Hglobal ltac:(lia)) as (Hdrawn & Hbroken & Htotal).
  exists filename, sim.
  split; [exact Hfn|]. split; [exact Hsim|].
  split; [now rewrite Hlat|]. split; [now rewrite Hlat|]. split; [exact HN|].
  split; [nia|]. split; [exact Hlocal|]. split; [exact Hdrawn|].
  split; [exact Hbroken|]. split; [exact Htotal|].
  split; [apply wrap_in_range; unfold Int.min_int, Int.max_int; nia|].
  exact Hrun.
Qed.

Lemma run_completes_witness :
  let rng := fun k : nat => if Nat.even k then 0.25%float else 0.75%float in
  exists filename sim,
    output_filename 1 0.5 = Ok filename
    /\ simulate 1 1 1 0.5 1.5 rng = Ok sim
    /\ lat_N (sim_lattice sim) = (1 + 1) * (1 + 1)
    /\ Z.of_nat (drawn (sim_predamage sim)) = totalBonds (sim_predamage sim)
    /\ runSimulation 1 1 1 0.5 1.5 rng (fun _ => false) = IOFailure filename.
Proof.
  intros rng.
  destruct (run_completes 1 1 1 0.5 1.5 rng (fun _ => false) 1 1)
    as (filename & sim & Hfn & Hsim & _ & _ & HN & _ & _ & Hdrawn & _ & _ & _ & Hrun);
    try reflexivity; [lia|].
  exists filename, sim. repeat split; assumption.
Defined.

(** ** The output file *)

Lemma round_half_even_close (num den : Z) :
  0 < den -> 2 * Z.abs (round_half_even num den * den - num) <= den.
Proof.
  intros Hden. unfold round_half_even.
  pose proof (Z.div_mod num den ltac:(lia)) as Hdm.
  pose proof (Z.mod_pos_bound num den Hden) as Hmod.
  destruct (Z.compare_spec (2 * (num mod den)) den) as [Heq|Hlt|Hgt];
    [destruct (Z.even (num / den))| |]; nia.
Qed.

(** A finite double is printed as its value correctly rounded to six
    decimals: an integer part and exactly six decimal digits. *)
Lemma fixed6_finite (v : float) (s : bool) (mant : positive) (e : Z) :
  Prim2SF v = S754_finite s mant e ->
  exists whole n,
    fixed6 v = sign_prefix s +:+ pretty whole +:+ "." +:+ pad6 n
    /\ 0 <= whole /\ 0 <= n < 1000000
    /\ (0 <= e -> whole * 1000000 + n = Zpos mant * 2 ^ e * 1000000)
    /\ (e < 0 ->
        2 * Z.abs ((whole * 1000000 + n) * 2 ^ (- e) - Zpos mant * 1000000)
        <= 2 ^ (- e)).
Proof.
  intros Hv. unfold fixed6. rewrite Hv.
  set (scaled := if 0 <=? e then Zpos mant * 2 ^ e * 1000000
                 else round_half_even (Zpos mant * 1000000) (2 ^ (- e))).
  assert (Hs : 0 <= scaled).
  { unfold scaled. destruct (Z.leb_spec 0 e).
    - assert (0 < 2 ^ e) by (apply Z.pow_pos_nonneg; lia). nia.
    - unfold round_half_even.
      assert (0 < 2 ^ (- e)) by (apply Z.pow_pos_nonneg; lia).
      assert (0 <= Z.pos mant * 1000000 / 2 ^ (- e)) by (apply Z.div_pos; lia).
      destruct (2 * _ ?= _); [destruct (Z.even _)| |]; lia. }
  pose proof (Z.div_mod scaled 1000000 ltac:(lia)) as Hdm.
  pose proof (Z.mod_pos_bound scaled 1000000 ltac:(lia)) as Hmod.
  exists (scaled / 1000000), (scaled mod 1000000).
  split; [reflexivity|]. split; [apply Z.div_pos; lia|]. split; [exact Hmod|].
  replace (scaled / 1000000 * 1000000 + scaled mod 1000000) with scaled by lia.
  unfold scaled. split; intros He.
  - destruct (Z.leb_spec 0 e); [reflexivity|lia].
  - destruct (Z.leb_spec 0 e); [lia|].
    apply round_half_even_close. apply Z.pow_pos_nonneg; lia.
Qed.

(** A number above zero truncates to a non-negative integer. *)
Lemma SFtrunc_positive (v : float) (a : Z) :
  (v <=? 0)%float = false -> SFtrunc (Prim2SF v) = Some a -> 0 <= a.
Proof.
  rewrite FloatAxioms.leb_spec. change (Prim2SF 0) with (S754_zero false).
  destruct (Prim2SF v) as [s|s| |[|] mv e]; cbn; try discriminate.
  intros _ [= <-]. apply Z.shiftl_nonneg. lia.
Qed.

(** C8 (as amended): when a run reaches the writing of its file -- every
    conversion to [int] on the way being defined -- the content is, line by
    line and in this order: the four header lines, ["POINTS N float"], one
    line ["x y 0.000000"] per particle, the VERTICES line, one line
    ["1 i"] per index [i = 0 .. N-1], ["POINT_DATA N"],
    ["SCALARS damage float 1"], ["LOOKUP_TABLE default"], and one damage
    value per particle; the three per-point blocks have [N] lines each and
    follow the order of the lattice vector. The VERTICES line is
    ["VERTICES N 2N"] up to [N = 2^30 - 1]; from [N = 2^30] on its second
    number is the wrapped [int] product, [2N - 2^32]. A finite coordinate
    is printed as its value rounded to six decimals, with exactly six
    digits after the point; an infinite one as [inf] or [-inf] and a NaN
    as [nan]; every damage value is printed as ["1.000000"] or as ["0."]
    and six digits. The file is named ["porosity_Lx" a "_phi" b ".vtk"],
    [a] being the truncation toward zero of [Lx], between 0 and 2^31-1,
    and [b] that of [phi * 100], between 0 and 100. *)
Theorem vtk_file_layout (Lx Ly dx phi m : float) (rng : nat -> float)
    (can_open : string -> bool) (filename content : string) (sim : simulation) :
  runSimulation Lx Ly dx phi m rng can_open = Written filename content sim ->
  let N := lat_N (sim_lattice sim) in
  let particles := lat_particles (sim_lattice sim) in
  content = unlines (vtk_lines N particles (sim_damage sim))
  /\ length (point_text <$> particles) = Z.to_nat N
  /\ length ((fun i => "1 " +:+ pretty i) <$> seqZ 0 N) = Z.to_nat N
  /\ length (fixed6 <$> sim_damage sim) = Z.to_nat N
  /\ (N <= 1073741823 -> Int.mul 2 N = 2 * N)
  /\ (1073741824 <= N -> Int.mul 2 N = 2 * N - 4294967296)
  /\ (forall v s mant e, Prim2SF v = S754_finite s mant e ->
        exists whole n,
          fixed6 v = sign_prefix s +:+ pretty whole +:+ "." +:+ pad6 n
          /\ 0 <= whole /\ 0 <= n < 1000000
          /\ (0 <= e -> whole * 1000000 + n = Zpos mant * 2 ^ e * 1000000)
          /\ (e < 0 ->
              2 * Z.abs ((whole * 1000000 + n) * 2 ^ (- e) - Zpos mant * 1000000)
              <= 2 ^ (- e)))
  /\ (forall v s, Prim2SF v = S754_infinity s -> fixed6 v = sign_prefix s +:+ "inf")
  /\ (forall v, Prim2SF v = S754_nan -> fixed6 v = "nan")
  /\ (forall i, 0 <= i < N ->
        exists d, sim_damage sim !! Z.to_nat i = Some d
          /\ (fixed6 d = "1.000000"
              \/ exists n, 0 <= n < 1000000 /\ fixed6 d = "0." +:+ pad6 n))
  /\ exists a b,
       SFtrunc (Prim2SF Lx) = Some a /\ SFtrunc (Prim2SF (phi * 100)) = Some b
       /\ 0 <= a <= Int.max_int /\ 0 <= b <= 100
       /\ filename = "porosity_Lx" +:+ pretty a +:+ "_phi" +:+ pretty b +:+ ".vtk".
Proof.
  unfold runSimulation.
  destruct (invalid_parameters Lx Ly dx phi m) eqn:Hvalid; [discriminate|].
  destruct (simulate Lx Ly dx phi m rng) as [sim'|f] eqn:Hsim; [|discriminate].
  destruct (output_filename Lx phi) as [fn|f] eqn:Hfn; [|discriminate].
  destruct (can_open fn); [|discriminate].
  intros [= <- <- <-]. cbv zeta.
  destruct (simulate_sizes _ _ _ _ _ _ _ Hsim) as (HN & Hp & Hd).
  destruct HN as [HN HNmax]. split; [apply write_vtk_lines; lia|].
  rewrite !length_fmap, length_seqZ.
  repeat (split; [assumption || reflexivity|]).
  split.
  { intros Hsmall. apply wrap_in_range. unfold Int.min_int, Int.max_int. lia. }
  split.
  { intros Hbig. unfold Int.max_int in HNmax. unfold Int.mul, Int.wrap.
    replace (2 * lat_N (sim_lattice sim') + 2147483648)
      with (2 * lat_N (sim_lattice sim') - 2147483648 + 1 * 4294967296) by lia.
    rewrite Z.mod_add, Z.mod_small by lia. lia. }
  split; [exact fixed6_finite|].
  split; [intros v s Hv; unfold fixed6; now rewrite Hv|].
  split; [intros v Hv; unfold fixed6; now rewrite Hv|].
  split; [exact (simulate_damage_text Lx Ly dx phi m rng sim' Hsim)|].
  unfold invalid_parameters in Hvalid.
  repeat (apply orb_false_iff in Hvalid as [Hvalid ?]).
  unfold output_filename, static_cast_int in Hfn.
  destruct (SFtrunc (Prim2SF Lx)) as [a|] eqn:Ha; [|discriminate].
  destruct (Int.in_range a) eqn:Hra; [|discriminate]. cbn [bind] in Hfn.
  destruct (SFtrunc (Prim2SF (phi * 100))) as [b|] eqn:Hb; [|discriminate].
  destruct (Int.in_range b); [|discriminate]. cbn [bind] in Hfn.
  injection Hfn as <-. exists a, b.
  split; [reflexivity|]. split; [reflexivity|].
  apply in_range_spec in Hra. split; [split; [|lia]|].
  { apply (SFtrunc_positive Lx a); assumption. }
  split; [|reflexivity].
  assert (Hnan : Prim2SF phi <> S754_nan).
  { intros Hphi. rewrite mul_spec, Hphi in Hb. discriminate Hb. }
  assert (Hlo : (0 <=? phi)%float = true)
    by (apply not_ltb_leb; [discriminate|exact Hnan|assumption]).
  assert (Hhi : (phi <=? 1)%float = true)
    by (apply not_ltb_leb; [exact Hnan|discriminate|assumption]).
  destruct (percent_cast phi Hlo Hhi) as (b' & Hb' & Hrange).
  unfold static_cast_int in Hb'. rewrite Hb in Hb'.
  destruct (Int.in_range b); [|discriminate]. now injection Hb' as ->.
Qed.

Lemma vtk_file_layout_witness :
  let rng := fun k : nat => if Nat.even k then 0.25%float else 0.75%float in
  exists filename content sim,
    runSimulation 2.5 1 1 0.5 1.5 rng (fun _ => true) = Written filename content sim
    /\ content = unlines (vtk_lines (lat_N (sim_lattice sim))
                            (lat_particles (sim_lattice sim)) (sim_damage sim))
    /\ filename = "porosity_Lx2_phi50.vtk".
Proof.
  intros rng.
  destruct (runSimulation 2.5 1 1 0.5 1.5 rng (fun _ => true))
    as [| | |filename content sim] eqn:E; try (vm_compute in E; discriminate).
  exists filename, content, sim. split; [reflexivity|].
  split; [apply (vtk_file_layout 2.5 1 1 0.5 1.5 rng (fun _ => true) _ _ _ E)|].
  vm_compute in E. now injection E as <- _ _.
Defined.

(** Two runs on accepted parameters whose files do not have the layout
    ["x y 0.0" with six decimals, "VERTICES N 2N"]: with [Ly] the largest
    double and [dx] a third of it, the fourth of the four particles has
    [y = 3 * dx = +infinity] and its line is ["0.000000 inf 0.000000"];
    with [Lx = Ly = 32767] and [dx = 1] the lattice has [N = 2^30]
    particles and the VERTICES line is ["VERTICES 1073741824 -2147483648"]. *)
Lemma vtk_file_layout_breaks :
  let rng := fun _ : nat => 0%float in
  (exists filename content sim,
     runSimulation 1 0x1.fffffffffffffp+1023 0x1.5555555555555p+1022 0.5 1 rng
       (fun _ => true) = Written filename content sim
     /\ lat_N (sim_lattice sim) = 4
     /\ content = unlines (vtk_lines 4 (lat_particles (sim_lattice sim))
                             (sim_damage sim))
     /\ (point_text <$> lat_particles (sim_lattice sim)) !! 3%nat
        = Some "0.000000 inf 0.000000")
  /\ (exists filename content sim,
        runSimulation 32767 32767 1 0.5 1 rng (fun _ => true)
        = Written filename content sim
        /\ lat_N (sim_lattice sim) = 1073741824
        /\ content = unlines (vtk_lines 1073741824 (lat_particles (sim_lattice sim))
                                (sim_damage sim))
        /\ "VERTICES 1073741824 -2147483648"
           ∈ vtk_lines 1073741824 (lat_particles (sim_lattice sim)) (sim_damage sim)).
Proof.
  intros rng. split.
  - let v := eval vm_compute in
      (runSimulation 1 0x1.fffffffffffffp+1023 0x1.5555555555555p+1022 0.5 1 rng
         (fun _ => true)) in
    match v with
    | Written ?f ?c ?s =>
        exists f, c, s; split; [vm_cast_no_check (eq_refl v)|]
    end.
    split; [reflexivity|]. split; vm_compute; reflexivity.
  - destruct (run_in_range 32767 32767 1 0.5 1 rng (fun _ => true) 32767 32767)
      as (filename & sim & ps & Hfn & Hsim & Hlat & _ & _ & Hrun);
      try reflexivity; [unfold Int.max_int; lia|].
    cbn beta iota in Hrun.
    assert (HN : lat_N (sim_lattice sim) = 1073741824) by (rewrite Hlat; reflexivity).
    destruct (simulate_sizes _ _ _ _ _ _ _ Hsim) as (_ & Hp & Hd).
    eexists filename, _, sim. split; [exact Hrun|]. split; [exact HN|].
    rewrite HN in *. split; [apply write_vtk_lines; lia|].
    unfold vtk_lines.
    assert (Hline : "VERTICES " +:+ pretty 1073741824 +:+ " "
                      +:+ pretty (Int.mul 2 1073741824)
                    = "VERTICES 1073741824 -2147483648") by (vm_compute; reflexivity).
    rewrite Hline. rewrite !elem_of_app. right. right. left. apply list_elem_of_here.
Qed.
